(** * OFAC screening automation: a shallow embedding and its properties

    The development follows the Python sources:
    - [src/config/settings.py]        -> [Module settings]
    - [src/scraping/ofac_scraper.py]  -> [OfacScraper_init], [search_person],
      [_parse_results], [take_screenshot], [reset_search_form], [close]
    - [src/database/db_manager.py]    -> [DatabaseManager_init],
      [fetch_persons_to_process], [insert_results_bulk],
      [insert_single_result], [fetch_incomplete_records_for_report],
      [disconnect]
    - [src/reporting/excel_exporter.py] -> [create_incomplete_records_report]
    - [src/main.py] -> [categorize_persons], [process_pre_checks],
      [run_ofac_searches], [generate_final_reports], [main]

    The browser, the database server, the file system and the clock are
    outside the program.  They are an abstract world [W] with an oracle that
    says, for every call the program makes, whether the call returns or
    raises.  A run of a function yields its result (a value or a propagated
    exception), the new world and the list of events it emitted. *)

From Stdlib Require Import ZArith NArith List String Ascii Bool Lia Permutation.
Import ListNotations.
Local Open Scope string_scope.
Local Open Scope Z_scope.
Local Open Scope list_scope.

(** ** Data model *)

(** [src/config/settings.py], the process constants. *)
Module settings.
Definition OFAC_URL : string := "https://sanctionssearch.ofac.treas.gov/".
Definition PROCESS_FLAG : string := "Si".
Definition STATUS_OK : string := "OK".
Definition STATUS_ERROR : string := "NOK".
Definition STATUS_INCOMPLETE : string := "Información incompleta".
Definition STATUS_NO_MASTER_RECORD : string := "No cruza con maestra".
End settings.

(** The interpreter's limit on the number of digits [int] converts from a
    string: CPython's default, which the program does not change. *)
Module sys.
Definition int_max_str_digits : Z := 4300.
End sys.

(** A row of [fetch_persons_to_process]: the dictionary with the keys
    [idPersona], [nombrePersona], [idMaestra], [direccion], [pais].  The last
    three come from the LEFT JOIN and are [None] when SQL gives NULL. *)
Record Person : Type := mkPerson {
  idPersona : Z;
  nombrePersona : string;
  idMaestra : option Z;
  direccion : option string;
  pais : option string
}.

(** The 5-tuple written to the results table:
    (idPersona, nombrePersona, pais, cantidadDeResultados, estadoTransaccion). *)
Record ResultRecord : Type := mkResult {
  r_idPersona : Z;
  r_nombrePersona : string;
  r_pais : option string;
  r_cantidadDeResultados : option Z;
  r_estadoTransaccion : string
}.

(** A row of [fetch_incomplete_records_for_report] (four columns). *)
Record ReportRow : Type := mkReportRow {
  rr_idPersona : Z;
  rr_nombrePersona : string;
  rr_pais : option string;
  rr_estadoTransaccion : string
}.

(** Python truthiness of a nullable text value: [None] and [''] are falsy. *)
Definition truthy (v : option string) : bool :=
  match v with
  | None => false
  | Some EmptyString => false
  | Some (String _ _) => true
  end.

(** The text of a page element is a Python [str]: a sequence of Unicode code
    points. *)
Definition codepoint : Type := N.
Definition text : Type := list codepoint.

(** Exceptions.  Every constructor stands for an instance of a subclass of
    Python's [Exception]; those are the ones [except Exception] catches. *)
Inductive exn : Type :=
| TimeoutException
| NoSuchElementException
| WebDriverException
| OperationalError
| InterfaceError
| OtherException (name : string).

(** ** Calls to the outside world *)

Inductive Cmd : Type :=
(* selenium / webdriver_manager *)
| ChromeDriverInstall                          (* ChromeDriverManager().install() *)
| ChromeStart                                  (* webdriver.Chrome(service, options) *)
| Get (url : string)                           (* driver.get(url) *)
| WaitPresence (id : string)                   (* wait.until(presence_of_element_located((By.ID, id))), 70 s *)
| FindElement (id : string)                    (* driver.find_element(By.ID, id) *)
| SendKeys (id : string) (keys : option string)
| SelectByVisibleText (id : string) (label : option string)
| Click (id : string)
| ElementText (id : string)                    (* element.text *)
| ExecuteScript (js : string)
| SaveScreenshot (date : string) (person_id : Z)  (* f"{today}_{person_id}.png" under SCREENSHOTS_DIR *)
| Quit
(* psycopg2 *)
| Connect
| Cursor
| ExecuteSelectPersons
| ExecuteInsert (r : ResultRecord)
| ExecuteValues (rs : list ResultRecord)
| ExecuteSelectIncomplete
| FetchAll
| Commit
| Rollback
| CursorClose
| ConnClose
(* pandas / openpyxl *)
| WriteReport (records : list ReportRow).

(** Methods and functions of the repository; [Call m] in a trace marks that
    control entered [m] with these arguments. *)
Inductive Method : Type :=
| MOfacScraper_init
| Msearch_person (name : string) (address country : option string)
| Mtake_screenshot (person_id : Z)
| Mreset_search_form
| Mclose
| MDatabaseManager_init
| Mfetch_persons_to_process
| Minsert_results_bulk (results_data : list ResultRecord)
| Minsert_single_result (person_data : Person) (result_count : option Z) (status : string)
| Mfetch_incomplete_records_for_report
| Mdisconnect
| Mcategorize_persons
| Mprocess_pre_checks
| Mrun_ofac_searches
| Mgenerate_final_reports
| Mcreate_incomplete_records_report (records : list ReportRow).

Inductive Level : Type := INFO | WARNING | ERROR | CRITICAL.

(** What a run leaves behind, in order.  A log entry keeps the level and the
    constant part of the message. *)
Inductive Event : Type :=
| Call (m : Method)
| Io (c : Cmd) (raised : option exn)
| Log (l : Level) (msg : string).

(** How a Python call ends. *)
Inductive Result (A : Type) : Type :=
| Normal (a : A)
| Raised (e : exn).
Arguments Normal {A} a.
Arguments Raised {A} e.

(** ** The outside world *)

(** State of everything outside the interpreter, and its answers. *)
Class World : Type := {
  W : Type;
  (** [act c w]: the call [c] made in world [w] returns ([None]) or raises
      ([Some e]), and leaves the world in a new state. *)
  act : Cmd -> W -> option exn * W;
  (** text of the results label, read by [ElementText] *)
  element_text : W -> text;
  (** [cursor.fetchall()] after the persons query *)
  fetched_persons : W -> list Person;
  (** [cursor.fetchall()] after the incomplete-records query *)
  fetched_report_rows : W -> list ReportRow;
  (** [datetime.now().strftime('%Y%m%d')] *)
  today : W -> string;
  (** Unicode decimal value of a code point: [Some d] exactly for the
      characters [\d] matches in a [str] pattern, which are the ones [int]
      reads as the digit [d]. *)
  decimal : codepoint -> option N
}.

(** ** The monad of the embedding: world state, emitted events, exceptions *)

Section Monad.

Context {world : World}.

Record Out (A : Type) : Type := mkOut {
    res : Result A;
    st : W;
    evs : list Event
  }.

Definition M (A : Type) : Type := W -> Out A.

Definition ret {A} (a : A) : M A := fun w => mkOut A (Normal a) w [].

Definition raise {A} (e : exn) : M A := fun w => mkOut A (Raised e) w [].

Definition bind {A B} (m : M A) (k : A -> M B) : M B :=
    fun w =>
      let o := m w in
      match res A o with
      | Normal a =>
          let o' := k a (st A o) in
          mkOut B (res B o') (st B o') (evs A o ++ evs B o')
      | Raised e => mkOut B (Raised e) (st A o) (evs A o)
      end.

  (** [try: m] / [except Exception as e: h e] *)
Definition try_except {A} (m : M A) (h : exn -> M A) : M A :=
    fun w =>
      let o := m w in
      match res A o with
      | Normal a => o
      | Raised e =>
          let o' := h e (st A o) in
          mkOut A (res A o') (st A o') (evs A o ++ evs A o')
      end.

Definition emit (e : Event) : M unit := fun w => mkOut unit (Normal tt) w [e].

Definition log (l : Level) (msg : string) : M unit := emit (Log l msg).

Definition enter (m : Method) : M unit := emit (Call m).

Definition io (c : Cmd) : M unit :=
    fun w =>
      let r := act c w in
      mkOut unit (match fst r with None => Normal tt | Some e => Raised e end)
            (snd r) [Io c (fst r)].

Definition ask {A} (f : W -> A) : M A := fun w => mkOut A (Normal (f w)) w [].

  (** [for x in l: body x] *)
Fixpoint for_each {A} (l : list A) (body : A -> M unit) : M unit :=
    match l with
    | [] => ret tt
    | x :: l' => bind (body x) (fun _ => for_each l' body)
    end.

End Monad.

Arguments mkOut {world A} _ _ _.
Arguments res {world A} _.
Arguments st {world A} _.
Arguments evs {world A} _.

Declare Scope monad_scope.
Delimit Scope monad_scope with monad.
Notation "x <- m ;; k" := (bind m (fun x => k))
  (at level 61, m at next level, right associativity) : monad_scope.
Notation "m ;; k" := (bind m (fun _ => k))
  (at level 61, right associativity) : monad_scope.
Local Open Scope monad_scope.

(** ** [src/scraping/ofac_scraper.py] *)

Section OfacScraper.

Context {world : World}.

(** [re.search(r'(\d+)', result_text)]: the leftmost match of a greedy
    [\d+] is the first maximal run of decimal digits.  [skip_to_digit] drops
    the characters before the first digit, [digit_run] takes the digits that
    follow. *)
Fixpoint skip_to_digit (t : text) : text :=
  match t with
  | [] => []
  | c :: t' =>
      match decimal c with
      | Some _ => t
      | None => skip_to_digit t'
      end
  end.

Fixpoint digit_run (t : text) : text :=
  match t with
  | [] => []
  | c :: t' =>
      match decimal c with
      | Some _ => c :: digit_run t'
      | None => []
      end
  end.

(** [match.group(1)] when there is a match, [None] otherwise. *)
Definition re_search_digits (t : text) : option text :=
  match digit_run (skip_to_digit t) with
  | [] => None
  | g => Some g
  end.

(** [int(s)] on a string: here the value when [s] is a non-empty string of
    at most [sys.int_max_str_digits] decimal digits, [None] (a [ValueError])
    on the empty string, on any other character, and on a string of more
    digits than that.  Python integers are unbounded. *)
Fixpoint int_acc (acc : Z) (s : text) : option Z :=
  match s with
  | [] => Some acc
  | c :: s' =>
      match decimal c with
      | Some d => int_acc (10 * acc + Z.of_N d) s'
      | None => None
      end
  end.

Definition int (s : text) : option Z :=
  match s with
  | [] => None
  | _ =>
      if sys.int_max_str_digits <? Z.of_nat (List.length s) then None
      else int_acc 0 s
  end.

(** [OfacScraper.__init__] *)
Definition OfacScraper_init : M unit :=
  enter MOfacScraper_init ;;
  try_except
    (io ChromeDriverInstall ;;
     io ChromeStart ;;
     log INFO "WebDriver initialized successfully.")
    (fun e =>
       log ERROR "Failed to initialize WebDriver: " ;;
       raise e).

(** [OfacScraper._parse_results] *)
Definition _parse_results (result_text : text) : M Z :=
  match re_search_digits result_text with
  | Some g =>
      match int g with
      | Some count =>
          log INFO "Parsed result count: " ;;
          ret count
      | None => raise (OtherException "ValueError")
      end
  | None =>
      log WARNING "Could not parse result count from text: " ;;
      ret 0
  end.

(** The [try] block of [search_person] (lines 54-69). *)
Definition search_attempt (name : string) (address country : option string) : M Z :=
  io (Get settings.OFAC_URL) ;;
  io (WaitPresence "ctl00_MainContent_txtLastName") ;;
  io (SendKeys "ctl00_MainContent_txtLastName" (Some name)) ;;
  io (FindElement "ctl00_MainContent_txtAddress") ;;
  io (SendKeys "ctl00_MainContent_txtAddress" address) ;;
  io (FindElement "ctl00_MainContent_ddlCountry") ;;
  io (SelectByVisibleText "ctl00_MainContent_ddlCountry" country) ;;
  io (FindElement "ctl00_MainContent_btnSearch") ;;
  io (Click "ctl00_MainContent_btnSearch") ;;
  io (WaitPresence "ctl00_MainContent_lblResults") ;;
  io (ElementText "ctl00_MainContent_lblResults") ;;
  result_text <- ask element_text ;;
  _parse_results result_text.

(** The two [except] clauses of [search_person] (lines 71-76). *)
Definition search_handler (e : exn) : M Z :=
  match e with
  | TimeoutException | NoSuchElementException =>
      log ERROR "Error searching: Element not found or timed out." ;;
      ret (-1)
  | _ =>
      log ERROR "Unexpected error during search" ;;
      ret (-1)
  end.

(** [OfacScraper.search_person] *)
Definition search_person (name : string) (address country : option string) : M Z :=
  enter (Msearch_person name address country) ;;
  try_except (search_attempt name address country) search_handler.

(** [OfacScraper.take_screenshot] *)
Definition take_screenshot (person_id : Z) : M unit :=
  enter (Mtake_screenshot person_id) ;;
  try_except
    (io (ExecuteScript "window.scrollTo(0, document.body.scrollHeight);") ;;
     date <- ask today ;;
     io (SaveScreenshot date person_id) ;;
     log INFO "Screenshot saved to ")
    (fun e => log ERROR "Failed to take screenshot for person ID ").

(** [OfacScraper.reset_search_form] *)
Definition reset_search_form : M unit :=
  enter Mreset_search_form ;;
  try_except
    (io (FindElement "ctl00_MainContent_btnReset") ;;
     io (Click "ctl00_MainContent_btnReset") ;;
     log INFO "Search form has been reset.")
    (fun e => log ERROR "Could not reset the search form: ").

(** [OfacScraper.close].  [self.driver] holds the WebDriver object from the
    constructor on and is never cleared, so the test [if self.driver] always
    passes. *)
Definition close : M unit :=
  enter Mclose ;;
  io Quit ;;
  log INFO "WebDriver closed.".

End OfacScraper.

(** ** [src/database/db_manager.py] *)

Section DatabaseManager.

Context {world : World}.

(** [DatabaseManager.__init__]: only [psycopg2.OperationalError] is caught
    (logged and raised again); any other exception propagates as it is. *)
Definition DatabaseManager_init : M unit :=
  enter MDatabaseManager_init ;;
  try_except
    (io Connect ;;
     io Cursor ;;
     log INFO "Database connection established successfully.")
    (fun e =>
       match e with
       | OperationalError =>
           log ERROR "Could not connect to the database: " ;;
           raise e
       | _ => raise e
       end).

(** [DatabaseManager.fetch_persons_to_process] *)
Definition fetch_persons_to_process : M (list Person) :=
  enter Mfetch_persons_to_process ;;
  try_except
    (io ExecuteSelectPersons ;;
     io FetchAll ;;
     ask fetched_persons)
    (fun e =>
       log ERROR "Failed to fetch persons to process: " ;;
       ret []).

(** [DatabaseManager.insert_results_bulk] *)
Definition insert_results_bulk (results_data : list ResultRecord) : M unit :=
  enter (Minsert_results_bulk results_data) ;;
  match results_data with
  | [] => ret tt
  | _ =>
      try_except
        (io (ExecuteValues results_data) ;;
         io Commit ;;
         log INFO "Successfully bulk-inserted records.")
        (fun e =>
           log ERROR "Failed to bulk-insert results: " ;;
           io Rollback)
  end.

(** The [params] tuple of [insert_single_result]. *)
Definition single_params (person_data : Person) (result_count : option Z)
    (status : string) : ResultRecord :=
  mkResult (idPersona person_data) (nombrePersona person_data)
           (pais person_data) result_count status.

(** [DatabaseManager.insert_single_result] *)
Definition insert_single_result (person_data : Person)
    (result_count : option Z) (status : string) : M unit :=
  enter (Minsert_single_result person_data result_count status) ;;
  try_except
    (io (ExecuteInsert (single_params person_data result_count status)) ;;
     io Commit ;;
     log INFO "Inserted result for person ID ")
    (fun e =>
       log ERROR "Failed to insert single result for person ID " ;;
       io Rollback).

(** [DatabaseManager.fetch_incomplete_records_for_report] *)
Definition fetch_incomplete_records_for_report : M (list ReportRow) :=
  enter Mfetch_incomplete_records_for_report ;;
  try_except
    (io ExecuteSelectIncomplete ;;
     io FetchAll ;;
     records <- ask fetched_report_rows ;;
     log INFO "Fetched incomplete records for Excel report." ;;
     ret records)
    (fun e =>
       log ERROR "Failed to fetch incomplete records for report: " ;;
       ret []).

(** [DatabaseManager.disconnect], on a manager whose constructor returned:
    cursor and connection are both set. *)
Definition disconnect : M unit :=
  enter Mdisconnect ;;
  io CursorClose ;;
  io ConnClose ;;
  log INFO "Database connection closed.".

End DatabaseManager.

(** ** [src/reporting/excel_exporter.py] *)

Section Reporting.

Context {world : World}.

(** [create_incomplete_records_report]; building, writing and reformatting the
    workbook is the one call [WriteReport]. *)
Definition create_incomplete_records_report (records : list ReportRow) : M unit :=
  enter (Mcreate_incomplete_records_report records) ;;
  match records with
  | [] => log INFO "No records with 'Incomplete Information' found. Skipping report generation."
  | _ =>
      try_except
        (io (WriteReport records) ;;
         log INFO "Successfully generated Excel report: ")
        (fun e => log ERROR "Failed to create the Excel report: ")
  end.

End Reporting.

(** ** [src/main.py] *)

Section Main.

Context {world : World}.

(** One pass of the loop of [categorize_persons] (lines 24-29) over the three
    lists built so far. *)
Definition categorize_step (acc : list Person * list Person * list Person)
    (person : Person) : list Person * list Person * list Person :=
  let '(search_queue, incomplete_records, no_master_records) := acc in
  match idMaestra person with
  | None => (search_queue, incomplete_records, no_master_records ++ [person])
  | Some _ =>
      if negb (truthy (direccion person)) || negb (truthy (pais person))
      then (search_queue, incomplete_records ++ [person], no_master_records)
      else (search_queue ++ [person], incomplete_records, no_master_records)
  end.

(** The value [categorize_persons] returns. *)
Definition categorize (all_persons : list Person)
  : list Person * list Person * list Person :=
  fold_left categorize_step all_persons ([], [], []).

(** [categorize_persons] *)
Definition categorize_persons (all_persons : list Person)
  : M (list Person * list Person * list Person) :=
  enter Mcategorize_persons ;;
  log INFO "Categorization complete: " ;;
  ret (categorize all_persons).

(** The tuples [process_pre_checks] builds (lines 46-52 and 56-62). *)
Definition incomplete_record (person : Person) : ResultRecord :=
  mkResult (idPersona person) (nombrePersona person) (pais person) None
           settings.STATUS_INCOMPLETE.

Definition no_master_record (person : Person) : ResultRecord :=
  mkResult (idPersona person) (nombrePersona person) None None
           settings.STATUS_NO_MASTER_RECORD.

(** [bulk_data] after the two loops of [process_pre_checks]. *)
Definition pre_check_bulk_data (incomplete no_master : list Person)
  : list ResultRecord :=
  fold_left (fun bulk_data person => bulk_data ++ [no_master_record person])
    no_master
    (fold_left (fun bulk_data person => bulk_data ++ [incomplete_record person])
       incomplete []).

(** [process_pre_checks] *)
Definition process_pre_checks (incomplete no_master : list Person) : M unit :=
  enter Mprocess_pre_checks ;;
  match pre_check_bulk_data incomplete no_master with
  | [] => ret tt
  | bulk_data =>
      log INFO "Performing bulk insert for pre-checked records." ;;
      insert_results_bulk bulk_data
  end.

(** The body of the loop of [run_ofac_searches] (lines 85-103). *)
Definition search_iteration (person : Person) : M unit :=
  let person_id := idPersona person in
  log INFO "Processing person ID: " ;;
  result_count <- search_person (nombrePersona person) (direccion person) (pais person) ;;
  (if result_count >? -1
   then
     insert_single_result person (Some result_count) settings.STATUS_OK ;;
     (if result_count >? 0 then take_screenshot person_id else ret tt)
   else
     insert_single_result person None settings.STATUS_ERROR) ;;
  reset_search_form.

(** [run_ofac_searches] *)
Definition run_ofac_searches (search_queue : list Person) : M unit :=
  enter Mrun_ofac_searches ;;
  match search_queue with
  | [] => log INFO "Search queue is empty. No OFAC checks to perform."
  | _ =>
      started <- try_except
                   (OfacScraper_init ;; ret true)
                   (fun e =>
                      log ERROR "Could not start the OFAC scraper. Aborting search process. Error: " ;;
                      ret false) ;;
      if started : bool
      then for_each search_queue search_iteration ;; close
      else ret tt
  end.

(** [generate_final_reports] *)
Definition generate_final_reports : M unit :=
  enter Mgenerate_final_reports ;;
  log INFO "Starting final report generation..." ;;
  incomplete_records <- fetch_incomplete_records_for_report ;;
  create_incomplete_records_report incomplete_records ;;
  log INFO "Final report generation finished.".

(** Lines 134-137 of [main]: what is done with a non-empty fetch. *)
Definition screen (all_persons : list Person) : M unit :=
  groups <- categorize_persons all_persons ;;
  let '(search_queue, incomplete, no_master) := groups in
  process_pre_checks incomplete no_master ;;
  run_ofac_searches search_queue ;;
  generate_final_reports.

(** Lines 129-137 of [main]: the [try] block once [db_manager] is bound. *)
Definition main_connected : M unit :=
  all_persons <- fetch_persons_to_process ;;
  match all_persons with
  | [] => log INFO "No persons found with the 'aConsultar' flag set to 'SI'."
  | _ => screen all_persons
  end.

(** [main].  [db_manager] stays [None] exactly when the constructor raised;
    the [finally] clause then skips [disconnect]. *)
Definition main : M unit :=
  log INFO "--- OFAC Background Check Automation Started ---" ;;
  connected <- try_except
                 (DatabaseManager_init ;; ret true)
                 (fun e =>
                    log CRITICAL "A critical error occurred in the main process: " ;;
                    ret false) ;;
  (if connected : bool
   then
     try_except main_connected
       (fun e => log CRITICAL "A critical error occurred in the main process: ") ;;
     disconnect
   else ret tt) ;;
  log INFO "--- OFAC Background Check Automation Finished ---".

End Main.

(** ** Reading a trace *)

(** The methods entered, in order. *)
Definition calls (tr : list Event) : list Method :=
  flat_map (fun ev => match ev with Call m => [m] | _ => [] end) tr.

(** The calls made to the outside world, in order, with their outcome. *)
Definition ios (tr : list Event) : list (Cmd * option exn) :=
  flat_map (fun ev => match ev with Io c r => [(c, r)] | _ => [] end) tr.

Definition logs (tr : list Event) : list (Level * string) :=
  flat_map (fun ev => match ev with Log l msg => [(l, msg)] | _ => [] end) tr.

Definition is_db_cmd (c : Cmd) : bool :=
  match c with
  | Connect | Cursor | ExecuteSelectPersons | ExecuteInsert _ | ExecuteValues _
  | ExecuteSelectIncomplete | FetchAll | Commit | Rollback | CursorClose
  | ConnClose => true
  | _ => false
  end.

Definition is_browser_cmd (c : Cmd) : bool :=
  match c with
  | ChromeDriverInstall | ChromeStart | Get _ | WaitPresence _ | FindElement _
  | SendKeys _ _ | SelectByVisibleText _ _ | Click _ | ElementText _
  | ExecuteScript _ | SaveScreenshot _ _ | Quit => true
  | _ => false
  end.

(** Calls to the browser in a trace. *)
Definition browser_ios (tr : list Event) : list (Cmd * option exn) :=
  filter (fun x => is_browser_cmd (fst x)) (ios tr).

(** Database calls of a trace that raised. *)
Definition db_failures (tr : list Event) : list (Cmd * option exn) :=
  filter (fun x => is_db_cmd (fst x) && match snd x with Some _ => true | None => false end)
         (ios tr).

(** The write statements sent to the database, each with its rows. *)
Definition writes (tr : list Event) : list (list ResultRecord) :=
  flat_map (fun ev =>
              match ev with
              | Io (ExecuteInsert r) _ => [[r]]
              | Io (ExecuteValues rs) _ => [rs]
              | _ => []
              end) tr.

(** The rows the database keeps.  A row is kept when its INSERT returned and
    the COMMIT after it returned; a ROLLBACK that returns drops the rows of
    the open transaction.  [replay_step] carries (kept, open transaction). *)
Definition replay_step (acc : list ResultRecord * list ResultRecord) (ev : Event)
  : list ResultRecord * list ResultRecord :=
  let '(kept, pending) := acc in
  match ev with
  | Io (ExecuteInsert r) None => (kept, pending ++ [r])
  | Io (ExecuteValues rs) None => (kept, pending ++ rs)
  | Io Commit None => (kept ++ pending, [])
  | Io Rollback None => (kept, [])
  | _ => (kept, pending)
  end.

Definition replay (tr : list Event) : list ResultRecord * list ResultRecord :=
  fold_left replay_step tr ([], []).

Definition stored (tr : list Event) : list ResultRecord := fst (replay tr).

(** The arguments of the calls of [insert_single_result]. *)
Definition persist_calls (tr : list Event) : list (Person * option Z * string) :=
  flat_map (fun m => match m with
                     | Minsert_single_result p c s => [(p, c, s)]
                     | _ => []
                     end) (calls tr).

(** The arguments of the calls of [take_screenshot]. *)
Definition screenshot_calls (tr : list Event) : list Z :=
  flat_map (fun m => match m with Mtake_screenshot id => [id] | _ => [] end)
           (calls tr).

Definition count_calls (f : Method -> bool) (tr : list Event) : nat :=
  List.length (filter f (calls tr)).

Definition is_reset (m : Method) : bool :=
  match m with Mreset_search_form => true | _ => false end.

Definition is_close (m : Method) : bool :=
  match m with Mclose => true | _ => false end.

Definition is_search (m : Method) : bool :=
  match m with Msearch_person _ _ _ => true | _ => false end.

(** The three steps of the loop whose order matters: search of a person,
    hand-over of that person's outcome to storage, reset of the form.
    A call of [search_person] has the three fields of the person as
    arguments, so it is read back as a person only up to those fields:
    [search_key] is that view of a person. *)
Definition search_key (p : Person) : string * option string * option string :=
  (nombrePersona p, direccion p, pais p).

Inductive LoopCall : Type :=
| CSearch (key : string * option string * option string)
| CPersist (person : Person)
| CReset.

Definition loop_calls (tr : list Event) : list LoopCall :=
  flat_map (fun m => match m with
                     | Msearch_person n a c => [CSearch (n, a, c)]
                     | Minsert_single_result p _ _ => [CPersist p]
                     | Mreset_search_form => [CReset]
                     | _ => []
                     end) (calls tr).

(** The result record the loop hands to storage for a search result. *)
Definition outcome_record (person : Person) (result_count : Z) : ResultRecord :=
  if result_count >? -1
  then single_params person (Some result_count) settings.STATUS_OK
  else single_params person None settings.STATUS_ERROR.

(** ** Sample worlds, for running the program *)

(** Code points of an ASCII string. *)
Definition codes (s : string) : text :=
  map N_of_ascii (list_ascii_of_string s).

(** Decimal value of the ASCII digits; no other character below 256 is a
    decimal digit for Python. *)
Definition ascii_decimal (c : codepoint) : option N :=
  if ((48 <=? c) && (c <=? 57))%N then Some (c - 48)%N else None.

(** A world without memory: [fails] fixes which calls raise, [page] is the
    results label, [persons] and [rows] are what the two queries return. *)
Definition static_world (fails : Cmd -> option exn) (page : text)
    (persons : list Person) (rows : list ReportRow) : World :=
  {| W := unit;
     act := fun c w => (fails c, w);
     element_text := fun _ => page;
     fetched_persons := fun _ => persons;
     fetched_report_rows := fun _ => rows;
     today := fun _ => "20240131";
     decimal := ascii_decimal |}.

Definition nothing_fails (c : Cmd) : option exn := None.

Definition person_ok : Person :=
  mkPerson 3 "Ana Rojas" (Some 3) (Some "Calle 10") (Some "Chile").

Definition person_incomplete : Person :=
  mkPerson 2 "Luis Mora" (Some 2) (Some "") (Some "Chile").

Definition person_no_master : Person :=
  mkPerson 1 "Eva Pino" None None None.

Definition sample_persons : list Person :=
  [person_no_master; person_incomplete; person_ok].

(** Everything works and the page reports three matches. *)
Definition world_of (persons : list Person) : World :=
  static_world nothing_fails (codes "Lookup Results: 3 Found") persons [].

Definition world_three_found : World := world_of sample_persons.

(** Chrome cannot be started. *)
Definition world_no_chrome : World :=
  static_world (fun c => match c with ChromeStart => Some WebDriverException | _ => None end)
               (codes "Lookup Results: 3 Found") sample_persons [].

(** The connection to the database is lost after the fetch: the INSERT
    raises, and so does the ROLLBACK in its handler. *)
Definition world_db_lost : World :=
  static_world (fun c => match c with
                         | ExecuteInsert _ | ExecuteValues _ => Some OperationalError
                         | Rollback => Some InterfaceError
                         | _ => None
                         end)
               (codes "Lookup Results: 3 Found")
               [person_ok] [].

(** The database rejects every INSERT; the ROLLBACK works. *)
Definition world_insert_rejected : World :=
  static_world (fun c => match c with
                         | ExecuteInsert _ | ExecuteValues _ => Some OperationalError
                         | _ => None
                         end)
               (codes "Lookup Results: 3 Found")
               [person_ok] [].

(** The results label never appears: the second wait times out. *)
Definition world_timeout : World :=
  static_world (fun c => match c with
                         | WaitPresence "ctl00_MainContent_lblResults" => Some TimeoutException
                         | _ => None
                         end)
               [] [person_ok] [].

(** The persons query fails after a successful connect. *)
Definition world_query_fails : World :=
  static_world (fun c => match c with
                         | ExecuteSelectPersons => Some OperationalError
                         | _ => None
                         end)
               [] [person_ok] [].

(** The persons query works and finds nobody. *)
Definition world_nobody : World :=
  static_world nothing_fails [] [] [].

(** Screenshot and reset both fail. *)
Definition world_no_evidence : World :=
  static_world (fun c => match c with
                         | SaveScreenshot _ _ => Some WebDriverException
                         | FindElement "ctl00_MainContent_btnReset" => Some NoSuchElementException
                         | _ => None
                         end)
               (codes "Lookup Results: 3 Found") [person_ok] [].

(** Raised calls of a trace. *)
Definition failures (tr : list Event) : list (Cmd * option exn) :=
  filter (fun x => match snd x with Some _ => true | None => false end) (ios tr).

(** The integer a string of digit values denotes in base ten. *)
Fixpoint decimal_value (ds : list N) : Z :=
  match ds with
  | [] => 0
  | d :: ds' => Z.of_N d * 10 ^ Z.of_nat (List.length ds') + decimal_value ds'
  end.

(** Digit values of a string of digits. *)
Definition digit_values {world : World} (run : text) : list N :=
  map (fun c => match decimal c with Some d => d | None => 0%N end) run.

(** The three tests of the loop of [categorize_persons], in the order the
    [if] / [elif] / [else] takes them. *)
Definition goes_no_master (person : Person) : bool :=
  match idMaestra person with None => true | Some _ => false end.

Definition goes_incomplete (person : Person) : bool :=
  negb (goes_no_master person) &&
  (negb (truthy (direccion person)) || negb (truthy (pais person))).

Definition goes_search_queue (person : Person) : bool :=
  negb (goes_no_master person) &&
  negb (negb (truthy (direccion person)) || negb (truthy (pais person))).

(** Two lists without a common element. *)
Definition disjoint {A} (l1 l2 : list A) : Prop :=
  forall x, In x l1 -> In x l2 -> False.

(** [subseq l1 l2]: [l1] is [l2] with some elements left out. *)
Inductive subseq {A : Type} : list A -> list A -> Prop :=
| subseq_nil : subseq [] []
| subseq_skip (x : A) (l1 l2 : list A) : subseq l1 l2 -> subseq l1 (x :: l2)
| subseq_take (x : A) (l1 l2 : list A) : subseq l1 l2 -> subseq (x :: l1) (x :: l2).

(** The two calls that start the browser, when they raised. *)
Definition launch_failures (tr : list Event) : list (Cmd * option exn) :=
  filter (fun x => match x with
                   | (ChromeDriverInstall, Some _) | (ChromeStart, Some _) => true
                   | _ => false
                   end) (ios tr).

(** The records the database keeps for a person. *)
Definition records_of (person : Person) (rows : list ResultRecord)
  : list ResultRecord :=
  filter (fun r => r_idPersona r =? idPersona person) rows.

(** "Exactly one result record is kept for every person of the input." *)
Definition exactly_one_record (all_persons : list Person) (tr : list Event) : Prop :=
  forall person, In person all_persons ->
                 List.length (records_of person (stored tr)) = 1%nat.

(** ** Predicates over runs *)

Section RunPredicates.

Context {world : World}.

(** A computation all of whose events are of one kind. *)
Definition emits (P : Event -> Prop) {A} (m : M A) : Prop :=
  forall w, Forall P (evs (m w)).

(** A computation that returns only when none of its calls raised. *)
Definition clean {A} (m : M A) : Prop :=
  forall w a, res (m w) = Normal a -> failures (evs (m w)) = [].

(** A computation that raises only when one of its calls raised. *)
Definition faithful {A} (m : M A) : Prop :=
  forall w e, res (m w) = Raised e -> failures (evs (m w)) <> [].

(** A computation that never raises. *)
Definition safe {A} (m : M A) : Prop :=
  forall w, exists a, res (m w) = Normal a.

End RunPredicates.

(** Kinds of events. *)
Definition not_call (ev : Event) : Prop :=
  match ev with Call _ => False | _ => True end.

(** Browser traffic and log lines: what the methods of the scraper emit
    after their entry. *)
Definition browser_ev (ev : Event) : Prop :=
  match ev with
  | Call _ => False
  | Io c _ => is_browser_cmd c = true
  | Log _ _ => True
  end.

(** Events that leave the results table and the open transaction alone. *)
Definition no_write_ev (ev : Event) : Prop :=
  match ev with
  | Io (ExecuteInsert _) _ | Io (ExecuteValues _) _ | Io Commit _ | Io Rollback _ => False
  | _ => True
  end.

(** Events of the phases around the search: no search, no close, nothing
    sent to the browser, no write to the results table. *)
Definition report_ev (ev : Event) : Prop :=
  match ev with
  | Call m => is_search m = false /\ is_close m = false
  | Io c r => is_browser_cmd c = false /\ no_write_ev (Io c r)
  | Log _ _ => True
  end.

(** ** More ways to read a trace *)

(** [int] refuses the match of [_parse_results] in this text: its first run
    of decimal digits is longer than the interpreter converts. *)
Definition over_int_limit {world : World} (t : text) : bool :=
  match re_search_digits t with
  | Some g => sys.int_max_str_digits <? Z.of_nat (List.length g)
  | None => false
  end.

(** Nothing fails, and the results label shows a run of 4301 digits. *)
Definition world_long_count : World :=
  static_world nothing_fails (repeat 49%N 4301%nat) [person_ok] [].

(** The reports handed to the spreadsheet writer, each with its rows. *)
Definition reports_written (tr : list Event) : list (list ReportRow) :=
  flat_map (fun ev => match ev with Io (WriteReport rows) _ => [rows] | _ => [] end) tr.

Definition is_disconnect (m : Method) : bool :=
  match m with Mdisconnect => true | _ => false end.

(** Calls that all returned. *)
Definition returned (cs : list Cmd) : list (Cmd * option exn) :=
  map (fun c => (c, None)) cs.

(** The calls of the [try] block of [search_person], in program order. *)
Definition search_script (name : string) (address country : option string)
  : list Cmd :=
  [Get settings.OFAC_URL;
   WaitPresence "ctl00_MainContent_txtLastName";
   SendKeys "ctl00_MainContent_txtLastName" (Some name);
   FindElement "ctl00_MainContent_txtAddress";
   SendKeys "ctl00_MainContent_txtAddress" address;
   FindElement "ctl00_MainContent_ddlCountry";
   SelectByVisibleText "ctl00_MainContent_ddlCountry" country;
   FindElement "ctl00_MainContent_btnSearch";
   Click "ctl00_MainContent_btnSearch";
   WaitPresence "ctl00_MainContent_lblResults";
   ElementText "ctl00_MainContent_lblResults"].

(** The shape of every record the run writes: one of the four statuses; a
    match count, never negative, exactly under the status OK; no country
    under the no-master status. *)
Definition well_formed_record (r : ResultRecord) : Prop :=
  (r_estadoTransaccion r = settings.STATUS_OK /\
   exists n, r_cantidadDeResultados r = Some n /\ 0 <= n) \/
  (r_cantidadDeResultados r = None /\
   (r_estadoTransaccion r = settings.STATUS_ERROR \/
    r_estadoTransaccion r = settings.STATUS_INCOMPLETE \/
    (r_estadoTransaccion r = settings.STATUS_NO_MASTER_RECORD /\ r_pais r = None))).

(** The person ids for which a record calls for evidence: a positive count. *)
Definition evidence_due (r : ResultRecord) : list Z :=
  match r_cantidadDeResultados r with
  | Some n => if n >? 0 then [r_idPersona r] else []
  | None => []
  end.

(** The database cannot be reached. *)
Definition world_no_database : World :=
  static_world (fun c => match c with Connect => Some OperationalError | _ => None end)
               [] sample_persons [].

(** The cursor cannot be closed. *)
Definition world_stuck_cursor : World :=
  static_world (fun c => match c with CursorClose => Some InterfaceError | _ => None end)
               (codes "Lookup Results: 3 Found") sample_persons [].

(** The report cannot be written; one incomplete record is on file. *)
Definition world_no_report : World :=
  static_world (fun c => match c with WriteReport _ => Some (OtherException "OSError") | _ => None end)
               (codes "Lookup Results: 0 Found") sample_persons
               [mkReportRow 2 "Luis Mora" (Some "Chile") settings.STATUS_INCOMPLETE].

(** The incomplete-records query fails. *)
Definition world_report_query_fails : World :=
  static_world (fun c => match c with ExecuteSelectIncomplete => Some OperationalError | _ => None end)
               (codes "Lookup Results: 0 Found") sample_persons
               [mkReportRow 2 "Luis Mora" (Some "Chile") settings.STATUS_INCOMPLETE].

Section Scripts.

Context {world : World}.

(** A computation whose calls to the outside are those of [script], in
    order: all of them, each having returned, or those up to the first one
    that raises, and then it raises what that call raised. *)
Definition plays (script : list Cmd) {A} (m : M A) : Prop :=
  forall w,
    ios (evs (m w)) = returned script \/
    (exists pre c post e,
        script = pre ++ c :: post /\
        ios (evs (m w)) = returned pre ++ [(c, Some e)] /\
        res (m w) = Raised e).

End Scripts.

Definition is_scraper_init (m : Method) : bool :=
  match m with MOfacScraper_init => true | _ => false end.

(** * Properties *)

(** ** Laws of the monad *)

Section Laws.

Context {world : World}.

Lemma bind_run {A B} (m : M A) (k : A -> M B) (w : W) :
  bind m k w =
  match res (m w) with
  | Normal a =>
      mkOut (res (k a (st (m w)))) (st (k a (st (m w))))
            (evs (m w) ++ evs (k a (st (m w))))
  | Raised e => mkOut (Raised e) (st (m w)) (evs (m w))
  end.
Proof. reflexivity. Qed.

Lemma try_run {A} (m : M A) (h : exn -> M A) (w : W) :
  try_except m h w =
  match res (m w) with
  | Normal a => m w
  | Raised e =>
      mkOut (res (h e (st (m w)))) (st (h e (st (m w))))
            (evs (m w) ++ evs (h e (st (m w))))
  end.
Proof. reflexivity. Qed.

Lemma enter_bind_run {B} (m : Method) (k : unit -> M B) (w : W) :
  bind (enter m) k w = mkOut (res (k tt w)) (st (k tt w)) (Call m :: evs (k tt w)).
Proof. reflexivity. Qed.

Lemma log_bind_run {B} (l : Level) (msg : string) (k : unit -> M B) (w : W) :
  bind (log l msg) k w = mkOut (res (k tt w)) (st (k tt w)) (Log l msg :: evs (k tt w)).
Proof. reflexivity. Qed.

Lemma evs_bind {A B} (m : M A) (k : A -> M B) (w : W) :
  evs (bind m k w) =
  evs (m w) ++ match res (m w) with
               | Normal a => evs (k a (st (m w)))
               | Raised _ => []
               end.
Proof.
  rewrite bind_run. destruct (res (m w)); simpl; [reflexivity|].
  now rewrite app_nil_r.
Qed.

Lemma evs_try {A} (m : M A) (h : exn -> M A) (w : W) :
  evs (try_except m h w) =
  evs (m w) ++ match res (m w) with
               | Normal _ => []
               | Raised e => evs (h e (st (m w)))
               end.
Proof.
  rewrite try_run. destruct (res (m w)); simpl; [|reflexivity].
  now rewrite app_nil_r.
Qed.

Lemma res_bind {A B} (m : M A) (k : A -> M B) (w : W) :
  res (bind m k w) =
  match res (m w) with
  | Normal a => res (k a (st (m w)))
  | Raised e => Raised e
  end.
Proof. rewrite bind_run. now destruct (res (m w)). Qed.

Lemma st_bind {A B} (m : M A) (k : A -> M B) (w : W) :
  st (bind m k w) =
  match res (m w) with
  | Normal a => st (k a (st (m w)))
  | Raised e => st (m w)
  end.
Proof. rewrite bind_run. now destruct (res (m w)). Qed.

Lemma res_try {A} (m : M A) (h : exn -> M A) (w : W) :
  res (try_except m h w) =
  match res (m w) with
  | Normal a => Normal a
  | Raised e => res (h e (st (m w)))
  end.
Proof. rewrite try_run. now destruct (res (m w)) eqn:E. Qed.

Lemma st_try {A} (m : M A) (h : exn -> M A) (w : W) :
  st (try_except m h w) =
  match res (m w) with
  | Normal a => st (m w)
  | Raised e => st (h e (st (m w)))
  end.
Proof. rewrite try_run. now destruct (res (m w)) eqn:E. Qed.

Lemma emits_ret P {A} (a : A) : emits P (ret a).
Proof. intro w. constructor. Qed.

Lemma emits_raise P {A} (e : exn) : emits P (@raise _ A e).
Proof. intro w. constructor. Qed.

Lemma emits_ask P {A} (f : W -> A) : emits P (ask f).
Proof. intro w. constructor. Qed.

Lemma emits_emit (P : Event -> Prop) ev : P ev -> emits P (emit ev).
Proof. intros H w. simpl. auto. Qed.

Lemma emits_log (P : Event -> Prop) l msg : P (Log l msg) -> emits P (log l msg).
Proof. apply emits_emit. Qed.

Lemma emits_enter (P : Event -> Prop) m : P (Call m) -> emits P (enter m).
Proof. apply emits_emit. Qed.

Lemma emits_io (P : Event -> Prop) c : (forall r, P (Io c r)) -> emits P (io c).
Proof. intros H w. unfold io. simpl. auto. Qed.

Lemma emits_bind P {A B} (m : M A) (k : A -> M B) :
  emits P m -> (forall a, emits P (k a)) -> emits P (bind m k).
Proof.
  intros Hm Hk w. rewrite evs_bind. apply Forall_app. split; [apply Hm|].
  destruct (res (m w)); [apply Hk | constructor].
Qed.

Lemma emits_try P {A} (m : M A) (h : exn -> M A) :
  emits P m -> (forall e, emits P (h e)) -> emits P (try_except m h).
Proof.
  intros Hm Hh w. rewrite evs_try. apply Forall_app. split; [apply Hm|].
  destruct (res (m w)); [constructor | apply Hh].
Qed.

Lemma emits_for_each P {A} (l : list A) (body : A -> M unit) :
  (forall x, emits P (body x)) -> emits P (for_each l body).
Proof.
  intros Hb. induction l as [|x l IH]; simpl.
  - apply emits_ret.
  - apply emits_bind; auto.
Qed.

End Laws.

(** Breaks a computation built from the combinators into its leaves. *)
Ltac emits_steps :=
  repeat first
    [ apply emits_bind; [|intro]
    | apply emits_try; [|intro]
    | apply emits_ret
    | apply emits_raise
    | apply emits_ask
    | apply emits_log
    | apply emits_enter
    | apply emits_io; intro ].

(** ** Reading traces piecewise *)

Lemma calls_app (a b : list Event) : calls (a ++ b) = calls a ++ calls b.
Proof. apply flat_map_app. Qed.

Lemma ios_app (a b : list Event) : ios (a ++ b) = ios a ++ ios b.
Proof. apply flat_map_app. Qed.

Lemma logs_app (a b : list Event) : logs (a ++ b) = logs a ++ logs b.
Proof. apply flat_map_app. Qed.

Lemma writes_app (a b : list Event) : writes (a ++ b) = writes a ++ writes b.
Proof. apply flat_map_app. Qed.

Lemma failures_call m tr : failures (Call m :: tr) = failures tr.
Proof. reflexivity. Qed.

Lemma failures_log l msg tr : failures (Log l msg :: tr) = failures tr.
Proof. reflexivity. Qed.

Lemma failures_app (a b : list Event) :
  failures (a ++ b) = failures a ++ failures b.
Proof. unfold failures. now rewrite ios_app, filter_app. Qed.

Lemma db_failures_app (a b : list Event) :
  db_failures (a ++ b) = db_failures a ++ db_failures b.
Proof. unfold db_failures. now rewrite ios_app, filter_app. Qed.

Lemma browser_ios_app (a b : list Event) :
  browser_ios (a ++ b) = browser_ios a ++ browser_ios b.
Proof. unfold browser_ios. now rewrite ios_app, filter_app. Qed.

Lemma persist_calls_app (a b : list Event) :
  persist_calls (a ++ b) = persist_calls a ++ persist_calls b.
Proof. unfold persist_calls. now rewrite calls_app, flat_map_app. Qed.

Lemma screenshot_calls_app (a b : list Event) :
  screenshot_calls (a ++ b) = screenshot_calls a ++ screenshot_calls b.
Proof. unfold screenshot_calls. now rewrite calls_app, flat_map_app. Qed.

Lemma loop_calls_app (a b : list Event) :
  loop_calls (a ++ b) = loop_calls a ++ loop_calls b.
Proof. unfold loop_calls. now rewrite calls_app, flat_map_app. Qed.

Lemma count_calls_app f (a b : list Event) :
  count_calls f (a ++ b) = (count_calls f a + count_calls f b)%nat.
Proof. unfold count_calls. now rewrite calls_app, filter_app, length_app. Qed.

Lemma browser_ev_not_call ev : browser_ev ev -> not_call ev.
Proof. destruct ev; simpl; auto. Qed.

Lemma browser_ev_no_write ev : browser_ev ev -> no_write_ev ev.
Proof. destruct ev as [m|c r|l s]; simpl; auto. destruct c; simpl; auto; discriminate. Qed.

Lemma calls_not_call tr : Forall not_call tr -> calls tr = [].
Proof.
  induction 1 as [|ev tr H _ IH]; [reflexivity|].
  destruct ev; simpl in *; [contradiction | exact IH | exact IH].
Qed.

Lemma writes_no_write tr : Forall no_write_ev tr -> writes tr = [].
Proof.
  induction 1 as [|ev tr H _ IH]; [reflexivity|].
  destruct ev as [m|c r|l s]; simpl in *; try exact IH.
  destruct c; simpl in *; try exact IH; contradiction.
Qed.

Lemma replay_no_write tr acc :
  Forall no_write_ev tr -> fold_left replay_step tr acc = acc.
Proof.
  intros H. revert acc. induction H as [|ev tr H _ IH]; intros acc; [reflexivity|].
  simpl. rewrite IH. destruct acc as [kept pending].
  destruct ev as [m|c r|l s]; simpl in *; try reflexivity.
  destruct c; simpl in *; try reflexivity; try contradiction; now destruct r.
Qed.

Lemma db_failures_browser tr : Forall browser_ev tr -> db_failures tr = [].
Proof.
  induction 1 as [|ev tr H _ IH]; [reflexivity|].
  destruct ev as [m|c r|l s]; simpl in *; try exact IH.
  unfold db_failures in *. simpl.
  destruct c; simpl in *; try discriminate; exact IH.
Qed.

(** ** Failures and results *)

Section Failures.

Context {world : World}.

Lemma clean_ret {A} (a : A) : clean (ret a).
Proof. intros w b _. reflexivity. Qed.

Lemma clean_ask {A} (f : W -> A) : clean (ask f).
Proof. intros w b _. reflexivity. Qed.

Lemma clean_emit ev : (match ev with Io _ _ => False | _ => True end) -> clean (emit ev).
Proof. intros H w b _. destruct ev; simpl in *; [reflexivity | contradiction | reflexivity]. Qed.

Lemma clean_log l msg : clean (log l msg).
Proof. now apply clean_emit. Qed.

Lemma clean_io c : clean (io c).
Proof.
  intros w a. unfold io. simpl. destruct (fst (act c w)); [discriminate|].
  reflexivity.
Qed.

Lemma clean_bind {A B} (m : M A) (k : A -> M B) :
  clean m -> (forall a, clean (k a)) -> clean (bind m k).
Proof.
  intros Hm Hk w b. rewrite res_bind, evs_bind, failures_app.
  destruct (res (m w)) as [a|e] eqn:E; [|discriminate].
  intros Hb. rewrite (Hm w a E), (Hk a _ b Hb). reflexivity.
Qed.

Lemma faithful_ret {A} (a : A) : faithful (ret a).
Proof. intros w e. discriminate. Qed.

Lemma faithful_ask {A} (f : W -> A) : faithful (ask f).
Proof. intros w e. discriminate. Qed.

Lemma faithful_log l msg : faithful (log l msg).
Proof. intros w e. discriminate. Qed.

Lemma faithful_io c : faithful (io c).
Proof.
  intros w e. unfold io. simpl. destruct (fst (act c w)); [|discriminate].
  intros _. unfold failures. simpl. discriminate.
Qed.

Lemma faithful_bind {A B} (m : M A) (k : A -> M B) :
  faithful m -> (forall a, faithful (k a)) -> faithful (bind m k).
Proof.
  intros Hm Hk w e. rewrite res_bind, evs_bind, failures_app.
  destruct (res (m w)) as [a|e'] eqn:E; intros H.
  - intros Hnil. apply app_eq_nil in Hnil. destruct Hnil as [_ Hnil].
    exact (Hk a _ e H Hnil).
  - rewrite app_nil_r. exact (Hm w e' E).
Qed.

End Failures.

Ltac clean_steps :=
  repeat first
    [ apply clean_bind; [|intro]
    | apply clean_ret
    | apply clean_ask
    | apply clean_log
    | apply clean_io ].

Ltac faithful_steps :=
  repeat first
    [ apply faithful_bind; [|intro]
    | apply faithful_ret
    | apply faithful_ask
    | apply faithful_log
    | apply faithful_io ].

(** ** The result count *)

Section ParseResults.

Context {world : World}.

Lemma digit_run_digits (t : text) :
  Forall (fun c => decimal c <> None) (digit_run t).
Proof.
  induction t as [|c t IH]; simpl; [constructor|].
  destruct (decimal c) eqn:E; constructor; [congruence | exact IH].
Qed.

Lemma skip_to_digit_app (pre t : text) :
  Forall (fun c => decimal c = None) pre ->
  skip_to_digit (pre ++ t) = skip_to_digit t.
Proof.
  induction 1 as [|c pre Hc _ IH]; simpl; [reflexivity|].
  now rewrite Hc.
Qed.

Lemma skip_to_digit_none (t : text) :
  Forall (fun c => decimal c = None) t -> skip_to_digit t = [].
Proof.
  induction 1 as [|c pre Hc _ IH]; simpl; [reflexivity|].
  now rewrite Hc.
Qed.

Lemma skip_to_digit_head (c : codepoint) (t : text) :
  decimal c <> None -> skip_to_digit (c :: t) = c :: t.
Proof. simpl. destruct (decimal c); congruence. Qed.

Lemma digit_run_app (run rest : text) :
  Forall (fun c => decimal c <> None) run ->
  match rest with [] => True | c :: _ => decimal c = None end ->
  digit_run (run ++ rest) = run.
Proof.
  intros Hrun Hrest. induction Hrun as [|c run Hc _ IH]; simpl.
  - destruct rest as [|c rest]; [reflexivity|]. simpl. now rewrite Hrest.
  - destruct (decimal c); [now rewrite IH | congruence].
Qed.

Lemma decimal_value_nonneg (ds : list N) : 0 <= decimal_value ds.
Proof.
  induction ds as [|d ds IH]; simpl; [lia|].
  assert (0 <= 10 ^ Z.of_nat (List.length ds)) by (apply Z.pow_nonneg; lia).
  nia.
Qed.

Lemma int_acc_digits (run : text) (acc : Z) :
  Forall (fun c => decimal c <> None) run ->
  int_acc acc run =
  Some (acc * 10 ^ Z.of_nat (List.length run) + decimal_value (digit_values run)).
Proof.
  intros H. revert acc. induction H as [|c run Hc _ IH]; intros acc.
  - simpl. f_equal. lia.
  - cbn [int_acc digit_values map decimal_value List.length].
    destruct (decimal c) as [d|] eqn:E; [|congruence].
    rewrite IH. f_equal. unfold digit_values. rewrite length_map.
    rewrite Nat2Z.inj_succ, Z.pow_succ_r by lia. ring.
Qed.

(** [int] reads a non-empty string of digits, within the limit, as its
    value in base ten, and refuses a longer one. *)
Lemma int_digits (run : text) :
  run <> [] ->
  Forall (fun c => decimal c <> None) run ->
  Z.of_nat (List.length run) <= sys.int_max_str_digits ->
  int run = Some (decimal_value (digit_values run)).
Proof.
  intros Hne H Hlen. destruct run as [|c run]; [congruence|].
  unfold int.
  destruct (sys.int_max_str_digits <? Z.of_nat (List.length (c :: run))) eqn:E;
    [lia|].
  rewrite int_acc_digits by exact H. f_equal; lia.
Qed.

Lemma int_over_limit (run : text) :
  sys.int_max_str_digits < Z.of_nat (List.length run) -> int run = None.
Proof.
  intros H. destruct run as [|c run]; [reflexivity|].
  unfold int.
  destruct (sys.int_max_str_digits <? Z.of_nat (List.length (c :: run))) eqn:E;
    [reflexivity | lia].
Qed.

(** The match is the first maximal run of digits. *)
Lemma re_search_digits_first_run (pre run rest : text) :
  Forall (fun c => decimal c = None) pre ->
  run <> [] ->
  Forall (fun c => decimal c <> None) run ->
  match rest with [] => True | c :: _ => decimal c = None end ->
  re_search_digits (pre ++ run ++ rest) = Some run.
Proof.
  intros Hpre Hne Hrun Hrest. unfold re_search_digits.
  rewrite skip_to_digit_app by exact Hpre.
  destruct run as [|c run]; [congruence|].
  rewrite <- app_comm_cons, skip_to_digit_head by (now inversion Hrun).
  rewrite app_comm_cons, digit_run_app by assumption. reflexivity.
Qed.

Lemma re_search_digits_no_digit (t : text) :
  Forall (fun c => decimal c = None) t -> re_search_digits t = None.
Proof.
  intros H. unfold re_search_digits. now rewrite skip_to_digit_none.
Qed.

(** What [_parse_results] does, once and for all.  It touches nothing.
    Either [int] accepts the match, or there is none: then it returns a
    count that is not negative, after one log line.  Or the match is longer
    than [int] converts: then the [ValueError] of [int] leaves it. *)
Lemma _parse_results_run (t : text) (w : W) :
  (over_int_limit t = false /\
   exists n l msg,
     _parse_results t w = mkOut (Normal n) w [Log l msg] /\ 0 <= n /\
     n = match re_search_digits t with
         | Some g => decimal_value (digit_values g)
         | None => 0
         end) \/
  (over_int_limit t = true /\
   _parse_results t w = mkOut (Raised (OtherException "ValueError")) w []).
Proof.
  unfold _parse_results, over_int_limit, re_search_digits.
  pose proof (digit_run_digits (skip_to_digit t)) as Hd.
  destruct (digit_run (skip_to_digit t)) as [|c g] eqn:E.
  - left. split; [reflexivity|].
    exists 0, WARNING, "Could not parse result count from text: ".
    repeat split; lia.
  - destruct (sys.int_max_str_digits <? Z.of_nat (List.length (c :: g))) eqn:El.
    + right. split; [reflexivity|].
      rewrite int_over_limit by lia. reflexivity.
    + left. split; [reflexivity|].
      rewrite int_digits by first [congruence | exact Hd | lia].
      exists (decimal_value (digit_values (c :: g))), INFO, "Parsed result count: ".
      split; [reflexivity | split; [apply decimal_value_nonneg | reflexivity]].
Qed.

Lemma _parse_results_st (t : text) (w : W) : st (_parse_results t w) = w.
Proof.
  destruct (_parse_results_run t w) as [(_ & n & l & msg & E & _)|(_ & E)];
    now rewrite E.
Qed.

End ParseResults.

(** ** The scraper *)

Lemma failures_returned (tr : list Event) (cs : list Cmd) :
  ios tr = returned cs -> failures tr = [].
Proof.
  unfold failures. intros ->. induction cs as [|c cs IH]; [reflexivity|exact IH].
Qed.

Lemma failures_cut (tr : list Event) (pre : list Cmd) (c : Cmd) (e : exn) :
  ios tr = returned pre ++ [(c, Some e)] -> failures tr = [(c, Some e)].
Proof.
  unfold failures. intros ->. induction pre as [|c' pre IH]; [reflexivity|exact IH].
Qed.

Section ScraperProperties.

Context {world : World}.

Lemma bind_io_normal {B} (c : Cmd) (k : unit -> M B) (w : W) (b : B) :
  res (bind (io c) k w) = Normal b ->
  res (k tt (snd (act c w))) = Normal b /\
  st (bind (io c) k w) = st (k tt (snd (act c w))).
Proof.
  rewrite res_bind, st_bind. unfold io; simpl.
  destruct (fst (act c w)); [discriminate|]. auto.
Qed.

Lemma emits_parse_results (P : Event -> Prop) (t : text) :
  (forall l msg, P (Log l msg)) -> emits P (_parse_results t).
Proof.
  intros H w.
  destruct (_parse_results_run t w) as [(_ & n & l & msg & E & _)|(_ & E)];
    rewrite E; simpl; auto.
Qed.

Lemma clean_parse_results (t : text) : clean (_parse_results t).
Proof.
  intros w a _.
  destruct (_parse_results_run t w) as [(_ & n & l & msg & E & _)|(_ & E)];
    now rewrite E.
Qed.

Lemma search_attempt_browser name address country :
  emits browser_ev (search_attempt name address country).
Proof.
  unfold search_attempt. emits_steps; try exact I; try reflexivity.
  apply emits_parse_results. intros; exact I.
Qed.

Lemma search_attempt_clean name address country :
  clean (search_attempt name address country).
Proof. unfold search_attempt. clean_steps. apply clean_parse_results. Qed.

(** When none of the calls of the [try] block raised, the block ends as
    [_parse_results] ends on the text of the results label. *)
Lemma reads_label_io (c : Cmd) (k : unit -> M Z) :
  (forall w, failures (evs (k tt w)) = [] ->
     res (k tt w)
     = res (_parse_results (element_text (st (k tt w))) (st (k tt w)))) ->
  forall w, failures (evs (bind (io c) k w)) = [] ->
    res (bind (io c) k w)
    = res (_parse_results (element_text (st (bind (io c) k w)))
             (st (bind (io c) k w))).
Proof.
  intros Hk w. rewrite bind_run. unfold io. cbn [res st evs].
  destruct (fst (act c w)) as [e|]; cbn [res st evs app].
  - discriminate.
  - exact (Hk (snd (act c w))).
Qed.

Lemma search_attempt_result name address country (w : W) :
  failures (evs (search_attempt name address country w)) = [] ->
  res (search_attempt name address country w)
  = res (_parse_results (element_text (st (search_attempt name address country w)))
           (st (search_attempt name address country w))).
Proof.
  revert w. unfold search_attempt.
  repeat (apply reads_label_io; cbv beta).
  intros w _. rewrite bind_run. cbn [ask res st evs].
  now rewrite _parse_results_st.
Qed.

Lemma search_attempt_normal name address country (w : W) (rc : Z) :
  res (search_attempt name address country w) = Normal rc ->
  res (_parse_results (element_text (st (search_attempt name address country w)))
                      (st (search_attempt name address country w))) = Normal rc.
Proof.
  intros H. rewrite <- H. symmetry. apply search_attempt_result.
  exact (search_attempt_clean _ _ _ w rc H).
Qed.

Lemma plays_io {A} (c : Cmd) (script : list Cmd) (k : unit -> M A) :
  plays script (k tt) -> plays (c :: script) (bind (io c) k).
Proof.
  intros Hk w. rewrite bind_run. unfold io. cbn [res st evs].
  destruct (fst (act c w)) as [e|] eqn:E.
  - right. exists [], c, script, e. cbn [res evs ios flat_map app returned map].
    repeat split.
  - cbn [res st evs]. change (Io c None :: ?l) with ([Io c None] ++ l).
    rewrite ios_app. cbn [ios flat_map app].
    destruct (Hk (snd (act c w))) as [Hi|(pre & c' & post & e & Hs & Hi & Hr)].
    + left. now rewrite Hi.
    + right. exists (c :: pre), c', post, e. rewrite Hi, Hs, Hr.
      repeat split.
Qed.

Lemma search_attempt_plays name address country :
  plays (search_script name address country) (search_attempt name address country).
Proof.
  unfold search_attempt, search_script.
  repeat (apply plays_io; cbv beta).
  intros w. left. rewrite bind_run. cbn [ask res st evs].
  destruct (_parse_results_run (element_text w) w)
    as [(_ & n & l & msg & E & _)|(_ & E)]; now rewrite E.
Qed.

Lemma search_handler_run (e : exn) (w : W) :
  exists msg, search_handler e w = mkOut (Normal (-1)) w [Log ERROR msg].
Proof. destruct e; eexists; reflexivity. Qed.

Lemma search_person_evs name address country (w : W) :
  exists tr,
    evs (search_person name address country w)
    = Call (Msearch_person name address country) :: tr /\
    Forall browser_ev tr.
Proof.
  unfold search_person. rewrite evs_bind. simpl.
  eexists. split; [reflexivity|].
  apply emits_try; [apply search_attempt_browser|].
  intros e w'. destruct (search_handler_run e w') as (msg & E). rewrite E.
  simpl. repeat constructor.
Qed.

(** [search_person] seen through its [try] block. *)
Lemma search_person_run name address country (w : W) :
  let a := search_attempt name address country w in
  let o := search_person name address country w in
  res o = match res a with
          | Normal rc => Normal rc
          | Raised _ => Normal (-1)
          end /\
  st o = st a /\
  ios (evs o) = ios (evs a).
Proof.
  cbv zeta. unfold search_person. rewrite enter_bind_run. cbn [res st evs].
  rewrite res_try, st_try, evs_try.
  change (Call (Msearch_person name address country) :: ?l)
    with ([Call (Msearch_person name address country)] ++ l).
  rewrite !ios_app.
  destruct (res (search_attempt name address country w)) as [rc|e].
  - now rewrite app_nil_r.
  - destruct (search_handler_run e (st (search_attempt name address country w)))
      as (msg & Eh).
    rewrite Eh. cbn [res st evs ios flat_map app]. now rewrite app_nil_r.
Qed.

Lemma search_person_res name address country (w : W) :
  exists rc, res (search_person name address country w) = Normal rc /\
             (rc = -1 \/ 0 <= rc).
Proof.
  destruct (search_person_run name address country w) as (Hres & _).
  cbv zeta in Hres. rewrite Hres.
  destruct (res (search_attempt name address country w)) as [rc|e] eqn:E.
  - exists rc. split; [reflexivity|]. right.
    apply search_attempt_normal in E.
    destruct (_parse_results_run
                (element_text (st (search_attempt name address country w)))
                (st (search_attempt name address country w)))
      as [(_ & n & l & msg & En & Hn & _)|(_ & En)];
      rewrite En in E; simpl in E; congruence.
  - eauto.
Qed.

(** C1, as the code has it.  [search_person] makes the calls of its form in
    one fixed order.  When one of them raises (a wait that times out, an
    element that is absent, any other failure) no call follows it and the
    method returns -1.  When all of them returned, the method goes by the
    text of the results label: it returns 0 for a text without a decimal
    digit and the base-ten value of the first maximal run of decimal digits
    when that run has at most 4300 digits, never a negative number; on a
    longer run [int] raises [ValueError] and the second [except] clause
    returns -1 again.  So -1 is returned exactly when a call failed or the
    run is too long for [int], and it is below every count. *)
Theorem search_person_outcome (name : string) (address country : option string)
    (w : W) :
  let o := search_person name address country w in
  let script := search_script name address country in
  let label := element_text (st o) in
  (failures (evs o) <> [] ->
   res o = Normal (-1) /\
   exists pre c post e,
     script = pre ++ c :: post /\
     ios (evs o) = returned pre ++ [(c, Some e)]) /\
  (failures (evs o) = [] ->
   ios (evs o) = returned script /\
   res o = match res (_parse_results label (st o)) with
           | Normal n => Normal n
           | Raised _ => Normal (-1)
           end) /\
  (res o = Normal (-1) <->
   failures (evs o) <> [] \/ over_int_limit label = true) /\
  (exists rc, res o = Normal rc /\ (rc = -1 \/ 0 <= rc)) /\
  (forall (t : text) (w' : W),
      (over_int_limit t = false /\
       exists n, res (_parse_results t w') = Normal n /\ -1 < 0 <= n) \/
      (over_int_limit t = true /\
       res (_parse_results t w') = Raised (OtherException "ValueError"))) /\
  (forall (t : text) (w' : W),
      Forall (fun c => decimal c = None) t ->
      res (_parse_results t w') = Normal 0) /\
  (forall (pre run rest : text) (w' : W),
      Forall (fun c => decimal c = None) pre ->
      run <> [] ->
      Forall (fun c => decimal c <> None) run ->
      match rest with [] => True | c :: _ => decimal c = None end ->
      over_int_limit (pre ++ run ++ rest)
      = (sys.int_max_str_digits <? Z.of_nat (List.length run)) /\
      res (_parse_results (pre ++ run ++ rest) w')
      = if sys.int_max_str_digits <? Z.of_nat (List.length run)
        then Raised (OtherException "ValueError")
        else Normal (decimal_value (digit_values run))).
Proof.
  assert (Hparse : forall (t : text) (w' : W),
             (over_int_limit t = false /\
              exists n, res (_parse_results t w') = Normal n /\ -1 < 0 <= n) \/
             (over_int_limit t = true /\
              res (_parse_results t w') = Raised (OtherException "ValueError"))).
  { intros t w'.
    destruct (_parse_results_run t w') as [(Hl & n & l & msg & E & Hn & _)|(Hl & E)].
    - left. split; [exact Hl|]. exists n. rewrite E. simpl.
      split; [reflexivity | lia].
    - right. split; [exact Hl|]. now rewrite E. }
  destruct (search_person_run name address country w) as (Hres & Hst & Hios).
  cbv zeta in Hres, Hst, Hios. cbv zeta.
  set (a := search_attempt name address country w) in *.
  set (o := search_person name address country w) in *.
  assert (Hevs : failures (evs o) = failures (evs a))
    by (unfold failures; now rewrite Hios).
  assert (Hfail : failures (evs o) <> [] ->
                  res o = Normal (-1) /\
                  exists pre c post e,
                    search_script name address country = pre ++ c :: post /\
                    ios (evs o) = returned pre ++ [(c, Some e)]).
  { intros Hf.
    destruct (search_attempt_plays name address country w)
      as [Hi|(pre & c & post & e & Hs & Hi & Hr)]; fold a in Hi.
    - exfalso. apply Hf. rewrite Hevs. exact (failures_returned _ _ Hi).
    - fold a in Hr. rewrite Hres, Hr, Hios. split; [reflexivity|].
      now exists pre, c, post, e. }
  assert (Hgood : failures (evs o) = [] ->
                  ios (evs o) = returned (search_script name address country) /\
                  res o = match res (_parse_results (element_text (st o)) (st o)) with
                          | Normal n => Normal n
                          | Raised _ => Normal (-1)
                          end).
  { intros Hf.
    destruct (search_attempt_plays name address country w)
      as [Hi|(pre & c & post & e & Hs & Hi & Hr)]; fold a in Hi.
    - split; [now rewrite Hios|].
      rewrite Hres, Hst. rewrite Hevs in Hf. unfold a in Hf |- *.
      now rewrite (search_attempt_result name address country w Hf).
    - exfalso. rewrite Hevs, (failures_cut _ _ _ _ Hi) in Hf. discriminate. }
  split; [exact Hfail|]. split; [exact Hgood|].
  split; [|split; [|split; [|split]]].
  - split.
    + intros Hm. destruct (failures (evs o)) as [|f fs] eqn:Ef.
      * right. destruct (Hgood eq_refl) as (_ & Hr).
        destruct (Hparse (element_text (st o)) (st o))
          as [(_ & n & En & Hn)|(Hl & _)]; [|exact Hl].
        rewrite En, Hm in Hr. inversion Hr. lia.
      * left. discriminate.
    + intros [Hf|Hl]; [exact (proj1 (Hfail Hf))|].
      destruct (failures (evs o)) as [|f fs] eqn:Ef.
      * destruct (Hgood eq_refl) as (_ & Hr). rewrite Hr.
        destruct (Hparse (element_text (st o)) (st o))
          as [(Hl' & _)|(_ & En)]; [congruence | now rewrite En].
      * apply Hfail. discriminate.
  - apply search_person_res.
  - exact Hparse.
  - intros t w' Ht. unfold _parse_results.
    now rewrite re_search_digits_no_digit.
  - intros pre run rest w' Hpre Hne Hrun Hrest.
    unfold _parse_results, over_int_limit.
    rewrite re_search_digits_first_run by assumption.
    split; [reflexivity|].
    destruct (sys.int_max_str_digits <? Z.of_nat (List.length run)) eqn:El.
    + rewrite int_over_limit by lia. reflexivity.
    + rewrite int_digits by first [assumption | lia]. reflexivity.
Qed.

(** ** Evidence capture and form reset *)

Lemma take_screenshot_evs (person_id : Z) (w : W) :
  exists tr,
    evs (take_screenshot person_id w) = Call (Mtake_screenshot person_id) :: tr /\
    Forall browser_ev tr.
Proof.
  unfold take_screenshot. rewrite evs_bind. simpl.
  eexists. split; [reflexivity|].
  revert w. change (emits browser_ev
    (try_except
       (io (ExecuteScript "window.scrollTo(0, document.body.scrollHeight);") ;;
        date <- ask today ;;
        io (SaveScreenshot date person_id) ;;
        log INFO "Screenshot saved to ")
       (fun e => log ERROR "Failed to take screenshot for person ID "))).
  emits_steps; try exact I; reflexivity.
Qed.

Lemma reset_search_form_evs (w : W) :
  exists tr,
    evs (reset_search_form w) = Call Mreset_search_form :: tr /\
    Forall browser_ev tr.
Proof.
  unfold reset_search_form. rewrite evs_bind. simpl.
  eexists. split; [reflexivity|].
  revert w. change (emits browser_ev
    (try_except
       (io (FindElement "ctl00_MainContent_btnReset") ;;
        io (Click "ctl00_MainContent_btnReset") ;;
        log INFO "Search form has been reset.")
       (fun e => log ERROR "Could not reset the search form: "))).
  emits_steps; try exact I; reflexivity.
Qed.

Lemma take_screenshot_res (person_id : Z) (w : W) :
  res (take_screenshot person_id w) = Normal tt.
Proof.
  unfold take_screenshot. rewrite res_bind. simpl. rewrite res_try.
  match goal with |- match ?r with _ => _ end = _ => destruct r as [[]|e] end;
    reflexivity.
Qed.

Lemma reset_search_form_res (w : W) : res (reset_search_form w) = Normal tt.
Proof.
  unfold reset_search_form. rewrite res_bind. simpl. rewrite res_try.
  match goal with |- match ?r with _ => _ end = _ => destruct r as [[]|e] end;
    reflexivity.
Qed.

(** A failure inside a method of the form [enter; try body except: log ERROR]
    leaves an ERROR line in the log. *)
Lemma swallowed_failure_is_logged (m : Method) (body : M unit) (msg : string)
    (w : W) :
  clean body ->
  failures (evs ((enter m ;; try_except body (fun e => log ERROR msg)) w)) <> [] ->
  In (ERROR, msg)
     (logs (evs ((enter m ;; try_except body (fun e => log ERROR msg)) w))).
Proof.
  intros Hclean. rewrite enter_bind_run. cbn [evs].
  rewrite failures_call, evs_try, failures_app.
  destruct (res (body w)) as [a|e] eqn:E.
  - rewrite (Hclean w a E). intros H. exfalso. apply H. reflexivity.
  - intros _. change (Call m :: ?l) with ([Call m] ++ l).
    rewrite !logs_app. apply in_or_app. right. apply in_or_app. right.
    simpl. auto.
Qed.

(** C9. [take_screenshot] and [reset_search_form] return normally in every
    world, whatever their calls to the browser do; a call that raised leaves
    an ERROR line in the log; and whatever follows them runs, from the world
    they leave. *)
Theorem evidence_and_reset_never_raise (person_id : Z) (w : W) :
  res (take_screenshot person_id w) = Normal tt /\
  res (reset_search_form w) = Normal tt /\
  (failures (evs (take_screenshot person_id w)) <> [] ->
   In (ERROR, "Failed to take screenshot for person ID ")
      (logs (evs (take_screenshot person_id w)))) /\
  (failures (evs (reset_search_form w)) <> [] ->
   In (ERROR, "Could not reset the search form: ")
      (logs (evs (reset_search_form w)))) /\
  (forall (B : Type) (k : M B),
      res ((take_screenshot person_id ;; k) w)
      = res (k (st (take_screenshot person_id w))) /\
      res ((reset_search_form ;; k) w) = res (k (st (reset_search_form w)))).
Proof.
  split; [apply take_screenshot_res|].
  split; [apply reset_search_form_res|].
  split; [|split].
  - unfold take_screenshot. apply swallowed_failure_is_logged. clean_steps.
  - unfold reset_search_form. apply swallowed_failure_is_logged. clean_steps.
  - intros B k. rewrite !res_bind.
    now rewrite take_screenshot_res, reset_search_form_res.
Qed.

End ScraperProperties.

(** ** Classification and pre-checks *)

Section PreCheckProperties.

Context {world : World}.

Lemma categorize_from (l sq inc nm : list Person) :
  fold_left categorize_step l (sq, inc, nm)
  = (sq ++ filter goes_search_queue l,
     inc ++ filter goes_incomplete l,
     nm ++ filter goes_no_master l).
Proof.
  revert sq inc nm. induction l as [|p l IH]; intros sq inc nm.
  - simpl. now rewrite !app_nil_r.
  - cbn [fold_left filter]. unfold categorize_step at 2.
    unfold goes_search_queue, goes_incomplete, goes_no_master.
    destruct (idMaestra p) as [m|]; cbn [negb andb].
    + destruct (negb (truthy (direccion p)) || negb (truthy (pais p)));
        cbn [negb]; rewrite IH; now rewrite <- ?app_assoc.
    + rewrite IH. now rewrite <- ?app_assoc.
Qed.

Lemma categorize_filter (all_persons : list Person) :
  categorize all_persons
  = (filter goes_search_queue all_persons,
     filter goes_incomplete all_persons,
     filter goes_no_master all_persons).
Proof. unfold categorize. now rewrite categorize_from. Qed.

Lemma goes_exactly_one (p : Person) :
  (goes_search_queue p = true /\ goes_incomplete p = false /\ goes_no_master p = false) \/
  (goes_search_queue p = false /\ goes_incomplete p = true /\ goes_no_master p = false) \/
  (goes_search_queue p = false /\ goes_incomplete p = false /\ goes_no_master p = true).
Proof.
  unfold goes_search_queue, goes_incomplete, goes_no_master.
  destruct (idMaestra p); destruct (truthy (direccion p));
    destruct (truthy (pais p)); simpl; auto.
Qed.

Lemma partition_lengths (l : list Person) :
  List.length l
  = (List.length (filter goes_search_queue l)
     + List.length (filter goes_incomplete l)
     + List.length (filter goes_no_master l))%nat.
Proof.
  induction l as [|p l IH]; [reflexivity|]. cbn [filter].
  destruct (goes_exactly_one p) as [(E1 & E2 & E3)|[(E1 & E2 & E3)|(E1 & E2 & E3)]];
    rewrite E1, E2, E3; simpl; lia.
Qed.

(** C3. [categorize_persons] returns, in every world and without touching it,
    the three sub-sequences of its input picked by the tests of the loop, each
    in input order: no master link -> no-master, whatever address and country
    are; a master link and an empty or absent address or country ->
    incomplete; otherwise -> search queue.  The three are pairwise disjoint,
    every input record is in one of them, none is lost or repeated, and the
    empty input gives three empty lists.  Its only trace is one INFO line of
    the log. *)
Theorem categorize_persons_partition (all_persons : list Person) (w : W) :
  let o := categorize_persons all_persons w in
  let search_queue := filter goes_search_queue all_persons in
  let incomplete := filter goes_incomplete all_persons in
  let no_master := filter goes_no_master all_persons in
  res o = Normal (search_queue, incomplete, no_master) /\
  st o = w /\
  evs o = [Call Mcategorize_persons; Log INFO "Categorization complete: "] /\
  ios (evs o) = [] /\
  (forall p, goes_no_master p = true <-> idMaestra p = None) /\
  (forall p, goes_incomplete p = true <->
             idMaestra p <> None /\
             (truthy (direccion p) = false \/ truthy (pais p) = false)) /\
  (forall p, goes_search_queue p = true <->
             idMaestra p <> None /\
             truthy (direccion p) = true /\ truthy (pais p) = true) /\
  disjoint search_queue incomplete /\
  disjoint search_queue no_master /\
  disjoint incomplete no_master /\
  (forall p, In p all_persons <->
             In p search_queue \/ In p incomplete \/ In p no_master) /\
  List.length all_persons
  = (List.length search_queue + List.length incomplete + List.length no_master)%nat /\
  res (categorize_persons [] w) = Normal ([], [], []).
Proof.
  cbv zeta.
  assert (Hd : forall f g : Person -> bool,
             (forall p, f p = true -> g p = true -> False) ->
             disjoint (filter f all_persons) (filter g all_persons)).
  { intros f g H p Hf Hg. apply filter_In in Hf, Hg. apply (H p); tauto. }
  split; [|split; [|split; [|split]]]; try reflexivity.
  - unfold categorize_persons. rewrite enter_bind_run. cbn [res].
    rewrite log_bind_run. cbn [res]. unfold ret. cbn [res].
    now rewrite categorize_filter.
  - repeat split.
    + unfold goes_no_master. destruct (idMaestra p); congruence.
    + unfold goes_no_master. destruct (idMaestra p); congruence.
    + unfold goes_incomplete, goes_no_master in H.
      destruct (idMaestra p); [congruence | discriminate].
    + unfold goes_incomplete, goes_no_master in H.
      destruct (idMaestra p); [|discriminate].
      destruct (truthy (direccion p)); destruct (truthy (pais p)); simpl in H;
        auto; discriminate.
    + intros [Hm Ha]. unfold goes_incomplete, goes_no_master.
      destruct (idMaestra p); [|congruence].
      destruct Ha as [Ha|Ha]; rewrite Ha; simpl; [reflexivity|].
      now destruct (truthy (direccion p)).
    + unfold goes_search_queue, goes_no_master in H.
      destruct (idMaestra p); [congruence | discriminate].
    + unfold goes_search_queue, goes_no_master in H.
      destruct (idMaestra p); [|discriminate].
      now destruct (truthy (direccion p)); destruct (truthy (pais p)).
    + unfold goes_search_queue, goes_no_master in H.
      destruct (idMaestra p); [|discriminate].
      now destruct (truthy (direccion p)); destruct (truthy (pais p)).
    + intros (Hm & Ha & Hp). unfold goes_search_queue, goes_no_master.
      destruct (idMaestra p); [|congruence]. now rewrite Ha, Hp.
    + apply Hd. intros p H1 H2.
      destruct (goes_exactly_one p) as [H|[H|H]]; destruct H as (? & ? & ?);
        congruence.
    + apply Hd. intros p H1 H2.
      destruct (goes_exactly_one p) as [H|[H|H]]; destruct H as (? & ? & ?);
        congruence.
    + apply Hd. intros p H1 H2.
      destruct (goes_exactly_one p) as [H|[H|H]]; destruct H as (? & ? & ?);
        congruence.
    + intros Hin. rewrite !filter_In.
      destruct (goes_exactly_one p) as [H|[H|H]]; destruct H as (? & ? & ?);
        tauto.
    + rewrite !filter_In. tauto.
    + apply partition_lengths.
Qed.

Lemma fold_left_append_map {A B} (f : A -> B) (l : list A) (acc : list B) :
  fold_left (fun bulk x => bulk ++ [f x]) l acc = acc ++ map f l.
Proof.
  revert acc. induction l as [|x l IH]; intros acc; simpl.
  - now rewrite app_nil_r.
  - rewrite IH. now rewrite <- app_assoc.
Qed.

Lemma pre_check_bulk_data_map (incomplete no_master : list Person) :
  pre_check_bulk_data incomplete no_master
  = map incomplete_record incomplete ++ map no_master_record no_master.
Proof. unfold pre_check_bulk_data. now rewrite !fold_left_append_map. Qed.

(** What [insert_results_bulk] sends: nothing for an empty batch, otherwise
    one statement with all the rows, whatever the database answers. *)
Lemma insert_results_bulk_writes (rows : list ResultRecord) (w : W) :
  writes (evs (insert_results_bulk rows w))
  = match rows with [] => [] | _ => [rows] end /\
  calls (evs (insert_results_bulk rows w)) = [Minsert_results_bulk rows] /\
  (rows = [] -> ios (evs (insert_results_bulk rows w)) = []).
Proof.
  unfold insert_results_bulk. destruct rows as [|r rows].
  - repeat split.
  - unfold bind, try_except, io, log, enter, emit. simpl.
    repeat (match goal with
            | |- context [act ?c ?w'] => destruct (act c w') as [[?|] ?]
            end; simpl);
      (split; [reflexivity | split; [reflexivity | discriminate]]).
Qed.

(** C4. From N incomplete and M no-master records [process_pre_checks] builds
    N+M result records, in that order and one per person: none has a match
    count; an incomplete record carries the person's own country (which may
    be absent) and the status of incomplete data, a no-master record carries
    no country and the no-master status.  It sends them in one bulk write,
    by one call of [insert_results_bulk]; when N+M = 0 it does not call
    [insert_results_bulk] and sends nothing to the database. *)
Theorem process_pre_checks_batch (incomplete no_master : list Person) (w : W) :
  let o := process_pre_checks incomplete no_master w in
  let bulk_data := pre_check_bulk_data incomplete no_master in
  bulk_data = map incomplete_record incomplete ++ map no_master_record no_master /\
  List.length bulk_data = (List.length incomplete + List.length no_master)%nat /\
  Forall (fun r => r_cantidadDeResultados r = None) bulk_data /\
  (forall p, incomplete_record p
             = mkResult (idPersona p) (nombrePersona p) (pais p) None
                        settings.STATUS_INCOMPLETE) /\
  (forall p, no_master_record p
             = mkResult (idPersona p) (nombrePersona p) None None
                        settings.STATUS_NO_MASTER_RECORD) /\
  writes (evs o) = match bulk_data with [] => [] | _ => [bulk_data] end /\
  calls (evs o)
  = Mprocess_pre_checks
    :: match bulk_data with [] => [] | _ => [Minsert_results_bulk bulk_data] end /\
  ((List.length incomplete + List.length no_master)%nat = 0%nat ->
   ios (evs o) = []).
Proof.
  cbv zeta. rewrite pre_check_bulk_data_map.
  split; [reflexivity|].
  split; [now rewrite length_app, !length_map|].
  split.
  { apply Forall_app. split; apply Forall_forall; intros r Hr;
      apply in_map_iff in Hr; destruct Hr as (p & <- & _); reflexivity. }
  split; [reflexivity|]. split; [reflexivity|].
  unfold process_pre_checks. rewrite enter_bind_run. cbn [evs].
  rewrite pre_check_bulk_data_map.
  destruct (map incomplete_record incomplete ++ map no_master_record no_master)
    as [|r rows] eqn:E.
  - repeat split.
  - rewrite log_bind_run. cbn [evs].
    split; [|split].
    + change (writes (evs (insert_results_bulk (r :: rows) w)) = [r :: rows]).
      apply (insert_results_bulk_writes (r :: rows) w).
    + change (Mprocess_pre_checks :: calls (evs (insert_results_bulk (r :: rows) w))
              = [Mprocess_pre_checks; Minsert_results_bulk (r :: rows)]).
      now rewrite (proj1 (proj2 (insert_results_bulk_writes (r :: rows) w))).
    + intros Hlen. exfalso.
      apply (f_equal (@List.length _)) in E.
      rewrite length_app, !length_map in E. simpl in E. lia.
Qed.

End PreCheckProperties.

(** ** The search loop *)

(** Unfolds the combinators and follows every answer of the world. *)
Ltac run_cases :=
  unfold bind, try_except, io, log, enter, emit, ret; simpl;
  repeat (match goal with
          | |- context [act ?c ?w'] => destruct (act c w') as [[?|] ?]
          end; simpl).

Section LoopProperties.

Context {world : World}.

(** The statement of [insert_single_result] always goes out, with exactly
    the record of its three arguments. *)
Lemma insert_single_result_sends (p : Person) (c : option Z) (s : string) (w : W) :
  let o := insert_single_result p c s w in
  calls (evs o) = [Minsert_single_result p c s] /\
  writes (evs o) = [[single_params p c s]] /\
  browser_ios (evs o) = [].
Proof.
  unfold insert_single_result. run_cases; repeat split.
Qed.

(** It raises only out of the ROLLBACK of its handler. *)
Lemma insert_single_result_raises (p : Person) (c : option Z) (s : string)
    (w : W) (e : exn) :
  res (insert_single_result p c s w) = Raised e ->
  In (Rollback, Some e) (ios (evs (insert_single_result p c s w))).
Proof.
  unfold insert_single_result. run_cases; intros H; try discriminate;
    inversion H; subst; simpl; auto.
Qed.

(** What the database keeps of it, on top of [kept], when no transaction is
    open: the record when every database call returned, and never more than
    the record.  When the method returns, no transaction is left open. *)
Lemma insert_single_result_replay (p : Person) (c : option Z) (s : string)
    (w : W) (kept : list ResultRecord) :
  let o := insert_single_result p c s w in
  (db_failures (evs o) = [] ->
   res o = Normal tt /\
   fold_left replay_step (evs o) (kept, []) = (kept ++ [single_params p c s], [])) /\
  (res o = Normal tt ->
   fold_left replay_step (evs o) (kept, []) = (kept ++ [single_params p c s], []) \/
   fold_left replay_step (evs o) (kept, []) = (kept, [])).
Proof.
  unfold insert_single_result. run_cases; unfold db_failures; simpl;
    split; intros H; try discriminate; auto.
Qed.


(** One pass of the loop, piece by piece. *)
Lemma search_iteration_run (person : Person) (w : W) :
  let o1 := search_person (nombrePersona person) (direccion person) (pais person) w in
  exists rc,
    res o1 = Normal rc /\ (rc = -1 \/ 0 <= rc) /\
    let o2 := insert_single_result person
                (if rc >? -1 then Some rc else None)
                (if rc >? -1 then settings.STATUS_OK else settings.STATUS_ERROR)
                (st o1) in
    search_iteration person w =
    match res o2 with
    | Raised e =>
        mkOut (Raised e) (st o2)
              (Log INFO "Processing person ID: " :: evs o1 ++ evs o2)
    | Normal _ =>
        let o3 := (if rc >? 0 then take_screenshot (idPersona person) else ret tt)
                    (st o2) in
        let o4 := reset_search_form (st o3) in
        mkOut (Normal tt) (st o4)
              (Log INFO "Processing person ID: "
                   :: evs o1 ++ evs o2 ++ evs o3 ++ evs o4)
    end.
Proof.
  cbv zeta.
  destruct (search_person_res (nombrePersona person) (direccion person)
              (pais person) w) as (rc & Erc & Hrc).
  exists rc. split; [exact Erc|]. split; [exact Hrc|].
  unfold search_iteration. rewrite log_bind_run.
  rewrite (bind_run (search_person _ _ _)), Erc. cbn [res st evs].
  rewrite (bind_run (if rc >? -1 then _ else _)).
  destruct (rc >? -1) eqn:Egt.
  - rewrite (bind_run (insert_single_result _ _ _)).
    destruct (res (insert_single_result person (Some rc) settings.STATUS_OK
                     (st (search_person (nombrePersona person) (direccion person)
                            (pais person) w)))) as [[]|e] eqn:E2;
      cbn [res st evs]; [|reflexivity].
    rewrite reset_search_form_res.
    destruct (rc >? 0) eqn:Epos.
    + rewrite take_screenshot_res. now rewrite <- !app_assoc.
    + cbn [ret res st evs]. now rewrite <- !app_assoc.
  - assert (Hz : (rc >? 0) = false) by lia. rewrite Hz.
    destruct (res (insert_single_result person None settings.STATUS_ERROR
                     (st (search_person (nombrePersona person) (direccion person)
                            (pais person) w)))) as [[]|e] eqn:E2;
      cbn [res st evs]; [|reflexivity].
    rewrite reset_search_form_res. reflexivity.
Qed.

(** A method of the scraper leaves its entry and browser traffic: nothing
    the database sees. *)
Lemma scraper_method_trace (m : Method) (tr : list Event) :
  Forall browser_ev tr ->
  calls (Call m :: tr) = [m] /\
  writes (Call m :: tr) = [] /\
  db_failures (Call m :: tr) = [] /\
  forall acc, fold_left replay_step (Call m :: tr) acc = acc.
Proof.
  intros H. repeat split.
  - cbn [calls flat_map app].
    change (flat_map _ tr) with (calls tr).
    rewrite calls_not_call; [reflexivity|].
    eapply Forall_impl; [apply browser_ev_not_call | exact H].
  - change (writes tr = []). apply writes_no_write.
    eapply Forall_impl; [apply browser_ev_no_write | exact H].
  - change (db_failures tr = []). now apply db_failures_browser.
  - intros acc. apply replay_no_write. constructor; [exact I|].
    eapply Forall_impl; [apply browser_ev_no_write | exact H].
Qed.

(** The record of one pass and the calls of one pass. *)
Lemma search_iteration_trace (person : Person) (w : W) :
  let o := search_iteration person w in
  exists rc,
    res (search_person (nombrePersona person) (direccion person) (pais person) w)
    = Normal rc /\
    (rc = -1 \/ 0 <= rc) /\
    calls (evs o)
    = Msearch_person (nombrePersona person) (direccion person) (pais person)
      :: Minsert_single_result person
           (if rc >? -1 then Some rc else None)
           (if rc >? -1 then settings.STATUS_OK else settings.STATUS_ERROR)
      :: match res o with
         | Raised _ => []
         | Normal _ =>
             (if rc >? 0 then [Mtake_screenshot (idPersona person)] else [])
             ++ [Mreset_search_form]
         end /\
    writes (evs o) = [[outcome_record person rc]] /\
    (forall kept,
        db_failures (evs o) = [] ->
        res o = Normal tt /\
        fold_left replay_step (evs o) (kept, [])
        = (kept ++ [outcome_record person rc], [])) /\
    (forall kept,
        res o = Normal tt ->
        fold_left replay_step (evs o) (kept, [])
        = (kept ++ [outcome_record person rc], []) \/
        fold_left replay_step (evs o) (kept, []) = (kept, [])) /\
    (forall e, res o = Raised e -> In (Rollback, Some e) (ios (evs o))).
Proof.
  cbv zeta.
  destruct (search_iteration_run person w) as (rc & Erc & Hrc & Erun).
  cbv zeta in Erun. exists rc. split; [exact Erc|]. split; [exact Hrc|].
  set (o1 := search_person (nombrePersona person) (direccion person)
               (pais person) w) in *.
  set (cnt := if rc >? -1 then Some rc else None) in *.
  set (status := if rc >? -1 then settings.STATUS_OK else settings.STATUS_ERROR) in *.
  set (o2 := insert_single_result person cnt status (st o1)) in *.
  assert (Hrec : single_params person cnt status = outcome_record person rc).
  { unfold outcome_record, cnt, status. now destruct (rc >? -1). }
  destruct (search_person_evs (nombrePersona person) (direccion person)
              (pais person) w) as (tr1 & E1 & H1).
  fold o1 in E1.
  destruct (scraper_method_trace
              (Msearch_person (nombrePersona person) (direccion person) (pais person))
              tr1 H1) as (C1 & W1 & D1 & R1).
  rewrite <- E1 in C1, W1, D1, R1.
  destruct (insert_single_result_sends person cnt status (st o1))
    as (C2 & W2 & _). fold o2 in C2, W2.
  pose proof (insert_single_result_replay person cnt status (st o1)) as R2.
  cbv zeta in R2. fold o2 in R2.
  pose proof (insert_single_result_raises person cnt status (st o1)) as X2.
  fold o2 in X2.
  rewrite Erun. clear Erun.
  destruct (res o2) as [[]|e2] eqn:E2.
  - (* the insert returned *)
    cbv zeta. cbn [res evs].
    set (o3 := (if rc >? 0 then take_screenshot (idPersona person) else ret tt)
                 (st o2)).
    set (o4 := reset_search_form (st o3)).
    assert (H3 : calls (evs o3)
                 = (if rc >? 0 then [Mtake_screenshot (idPersona person)] else [])
                 /\ writes (evs o3) = [] /\ db_failures (evs o3) = []
                 /\ forall acc, fold_left replay_step (evs o3) acc = acc).
    { unfold o3. destruct (rc >? 0).
      - destruct (take_screenshot_evs (idPersona person) (st o2)) as (tr3 & E3 & H3).
        rewrite E3. now apply scraper_method_trace.
      - repeat split. }
    destruct H3 as (C3 & W3 & D3 & R3).
    destruct (reset_search_form_evs (st o3)) as (tr4 & E4 & H4). fold o4 in E4.
    destruct (scraper_method_trace Mreset_search_form tr4 H4) as (C4 & W4 & D4 & R4).
    rewrite <- E4 in C4, W4, D4, R4.
    change (Log INFO "Processing person ID: " :: ?l)
      with ([Log INFO "Processing person ID: "] ++ l).
    rewrite !calls_app, !writes_app, !db_failures_app.
    rewrite C1, C2, C3, C4, W1, W2, W3, W4, D1, D3, D4.
    cbn [calls writes db_failures ios flat_map filter app].
    rewrite Hrec.
    split; [reflexivity|]. split; [reflexivity|].
    split; [|split].
    + intros kept Hdb. rewrite app_nil_r in Hdb.
      cbn [fold_left replay_step]. rewrite !fold_left_app, R1.
      destruct (proj1 (R2 kept) Hdb) as (_ & Hk). rewrite Hk, R3, R4.
      now rewrite Hrec.
    + intros kept _.
      cbn [fold_left replay_step]. rewrite !fold_left_app, R1.
      destruct (proj2 (R2 kept) eq_refl) as [Hk|Hk]; rewrite Hk, R3, R4;
        [left; now rewrite Hrec | right; reflexivity].
    + intros e He. discriminate.
  - (* the insert raised *)
    cbn [res evs].
    change (Log INFO "Processing person ID: " :: ?l)
      with ([Log INFO "Processing person ID: "] ++ l).
    rewrite !calls_app, !writes_app, !db_failures_app, !ios_app.
    rewrite C1, C2, W1, W2, D1.
    cbn [calls writes db_failures ios flat_map filter app].
    rewrite Hrec.
    split; [reflexivity|]. split; [reflexivity|].
    split; [|split].
    + intros kept Hdb. exfalso.
      destruct (proj1 (R2 kept) Hdb) as (Hn & _). discriminate.
    + intros kept Hn. discriminate.
    + intros e He. inversion He; subst. apply in_or_app. right.
      now apply X2.
Qed.



Lemma search_iteration_loop_calls (person : Person) (w : W) :
  loop_calls (evs (search_iteration person w))
  = CSearch (search_key person) :: CPersist person
    :: match res (search_iteration person w) with
       | Normal _ => [CReset]
       | Raised _ => []
       end.
Proof.
  destruct (search_iteration_trace person w)
    as (rc & _ & _ & Hcalls & _).
  cbv zeta in Hcalls. unfold loop_calls. rewrite Hcalls.
  cbn [flat_map app]. unfold search_key.
  destruct (res (search_iteration person w)); [|reflexivity].
  now destruct (rc >? 0).
Qed.

(** C5, as the code has it.  When the loop runs through its queue, the
    calls of [search_person], [insert_single_result] and
    [reset_search_form] come in blocks of three, one block per record in
    queue order: the search of the record, the hand-over of its outcome, the
    reset.  So then the form is reset once per record, after the outcome
    went to storage and before the next search, whatever the search
    returned.  In any run the loop has such a block for every record whose
    pass ran to its end; a pass cut short by an exception has the search and
    the hand-over but no reset, and it is the last: the reset is in no
    [finally]. *)
Theorem reset_once_per_record (search_queue : list Person) (w : W) :
  let o := for_each search_queue search_iteration w in
  (res o = Normal tt ->
   loop_calls (evs o)
   = flat_map (fun p => [CSearch (search_key p); CPersist p; CReset]) search_queue /\
   count_calls is_reset (evs o) = List.length search_queue) /\
  (exists done rest : list Person,
      search_queue = done ++ rest /\
      loop_calls (evs o)
      = flat_map (fun p => [CSearch (search_key p); CPersist p; CReset]) done ++
        match rest with
        | [] => []
        | p :: _ => [CSearch (search_key p); CPersist p]
        end /\
      count_calls is_reset (evs o) = List.length done /\
      (rest = [] <-> res o = Normal tt)).
Proof.
  cbv zeta.
  assert (Hshape : exists done rest : list Person,
             search_queue = done ++ rest /\
             loop_calls (evs (for_each search_queue search_iteration w))
             = flat_map (fun p => [CSearch (search_key p); CPersist p; CReset]) done ++
               match rest with
               | [] => []
               | p :: _ => [CSearch (search_key p); CPersist p]
               end /\
             count_calls is_reset (evs (for_each search_queue search_iteration w))
             = List.length done /\
             (rest = [] <-> res (for_each search_queue search_iteration w) = Normal tt)).
  { revert w. induction search_queue as [|p q IH]; intros w.
    - exists [], []. repeat split.
    - cbn [for_each]. rewrite res_bind, evs_bind, loop_calls_app, count_calls_app.
      rewrite search_iteration_loop_calls.
      destruct (search_iteration_trace p w) as (rc & _ & _ & Hcalls & _).
      cbv zeta in Hcalls. unfold count_calls at 1. rewrite Hcalls.
      destruct (res (search_iteration p w)) as [a|e].
      + destruct (IH (st (search_iteration p w)))
          as (done & rest & Hq & Hl & Hc & Hr).
        exists (p :: done), rest. rewrite Hl, Hc.
        split; [now rewrite Hq|]. split; [reflexivity|].
        split; [|exact Hr]. now destruct (rc >? 0).
      + exists [], (p :: q).
        split; [reflexivity|]. split; [reflexivity|]. split; [reflexivity|].
        split; discriminate. }
  split; [|exact Hshape].
  intros Hn. destruct Hshape as (done & rest & Hq & Hl & Hc & Hr).
  apply Hr in Hn. subst rest. rewrite app_nil_r in Hq, Hl. subst done.
  split; assumption.
Qed.

End LoopProperties.

(** ** What the database keeps *)

Lemma subseq_refl {A} (l : list A) : subseq l l.
Proof. induction l; [apply subseq_nil | now apply subseq_take]. Qed.

Lemma subseq_nil_l {A} (l : list A) : subseq [] l.
Proof. induction l; [apply subseq_nil | now apply subseq_skip]. Qed.

Lemma subseq_app {A} (a b c d : list A) :
  subseq a b -> subseq c d -> subseq (a ++ c) (b ++ d).
Proof.
  intros H1 H2. induction H1; simpl;
    [exact H2 | now apply subseq_skip | now apply subseq_take].
Qed.

Lemma subseq_trans {A} (a b c : list A) :
  subseq a b -> subseq b c -> subseq a c.
Proof.
  intros H1 H2. revert a H1. induction H2 as [|x b c H2 IH|x b c H2 IH]; intros a H1.
  - exact H1.
  - apply subseq_skip. auto.
  - inversion H1; subst; [apply subseq_skip | apply subseq_take]; auto.
Qed.

Lemma subseq_app_l {A} (a b l : list A) : subseq (a ++ b) l -> subseq a l.
Proof.
  apply subseq_trans. rewrite <- (app_nil_r a) at 1.
  apply subseq_app; [apply subseq_refl | apply subseq_nil_l].
Qed.

Lemma subseq_length {A} (a b : list A) :
  subseq a b -> (List.length a <= List.length b)%nat.
Proof. induction 1; simpl; lia. Qed.

(** Whatever the trace, the rows kept and the rows of the open transaction
    are rows that were sent, in the order they were sent, each at most as
    often as it was sent. *)
Lemma replay_subseq (tr : list Event) (kept pending sent : list ResultRecord) :
  subseq (kept ++ pending) sent ->
  subseq (fst (fold_left replay_step tr (kept, pending))
          ++ snd (fold_left replay_step tr (kept, pending)))
         (sent ++ List.concat (writes tr)).
Proof.
  revert kept pending sent.
  induction tr as [|ev tr IH]; intros kept pending sent H.
  - simpl. now rewrite app_nil_r.
  - cbn [fold_left].
    destruct ev as [m|c r|l msg];
      try (cbn [replay_step writes flat_map app List.concat]; now apply IH).
    destruct c;
      try (destruct r; cbn [replay_step writes flat_map app List.concat]; now apply IH).
    + (* ExecuteInsert *)
      change (List.concat (writes (Io (ExecuteInsert r0) r :: tr)))
        with ([r0] ++ List.concat (writes tr)).
      rewrite app_assoc. destruct r as [e|]; cbn [replay_step]; apply IH.
      * rewrite <- (app_nil_r (kept ++ pending)).
        apply subseq_app; [exact H | apply subseq_nil_l].
      * rewrite app_assoc. apply subseq_app; [exact H | apply subseq_refl].
    + (* ExecuteValues *)
      change (List.concat (writes (Io (ExecuteValues rs) r :: tr)))
        with (rs ++ List.concat (writes tr)).
      rewrite app_assoc. destruct r as [e|]; cbn [replay_step]; apply IH.
      * rewrite <- (app_nil_r (kept ++ pending)).
        apply subseq_app; [exact H | apply subseq_nil_l].
      * rewrite app_assoc. apply subseq_app; [exact H | apply subseq_refl].
    + (* Commit *)
      destruct r as [e|]; cbn [replay_step writes flat_map app List.concat];
        apply IH; [exact H | now rewrite app_nil_r].
    + (* Rollback *)
      destruct r as [e|]; cbn [replay_step writes flat_map app List.concat];
        apply IH; [exact H | rewrite app_nil_r; now apply subseq_app_l in H].
Qed.

Lemma stored_subseq_writes (tr : list Event) :
  subseq (stored tr) (List.concat (writes tr)).
Proof.
  unfold stored, replay.
  apply subseq_app_l with (b := snd (fold_left replay_step tr ([], []))).
  apply (replay_subseq tr [] [] []). constructor.
Qed.

(** A row that is kept stays, as it is: later events only add rows. *)
Lemma replay_kept_grows (tr : list Event) (kept pending : list ResultRecord) :
  exists more, fst (fold_left replay_step tr (kept, pending)) = kept ++ more.
Proof.
  revert kept pending. induction tr as [|ev tr IH]; intros kept pending.
  - exists []. simpl. now rewrite app_nil_r.
  - cbn [fold_left].
    destruct (replay_step (kept, pending) ev) as [kept' pending'] eqn:E.
    assert (Hk : exists more, kept' = kept ++ more).
    { destruct ev as [m|c r|l msg]; simpl in E;
        try (inversion E; subst; exists []; now rewrite app_nil_r).
      destruct c; try destruct r; simpl in E; inversion E; subst;
        try (exists []; now rewrite app_nil_r).
      now exists pending. }
    destruct Hk as (m1 & ->). destruct (IH (kept ++ m1) pending') as (m2 & ->).
    exists (m1 ++ m2). now rewrite app_assoc.
Qed.

Lemma stored_append_only (tr1 tr2 : list Event) :
  exists more, stored (tr1 ++ tr2) = stored tr1 ++ more.
Proof.
  unfold stored, replay. rewrite fold_left_app.
  destruct (fold_left replay_step tr1 ([], [])) as [kept pending].
  apply replay_kept_grows.
Qed.

(** ** The search phase *)

Section SearchPhase.

Context {world : World}.

(** The records of a run of the loop: one per record of the queue that the
    loop reached, in queue order, each the outcome of a search result. *)
Lemma search_loop_records (q : list Person) (w : W) :
  let o := for_each q search_iteration w in
  exists rcs,
    (List.length rcs <= List.length q)%nat /\
    Forall (fun rc => rc = -1 \/ 0 <= rc) rcs /\
    writes (evs o)
    = map (fun x => [outcome_record (fst x) (snd x)]) (combine q rcs) /\
    (res o = Normal tt -> List.length rcs = List.length q) /\
    (forall kept,
        db_failures (evs o) = [] ->
        res o = Normal tt /\
        fold_left replay_step (evs o) (kept, [])
        = (kept ++ map (fun x => outcome_record (fst x) (snd x)) (combine q rcs),
           [])) /\
    count_calls is_close (evs o) = 0%nat.
Proof.
  cbv zeta. revert w. induction q as [|p q IH]; intros w.
  - exists []. simpl.
    split; [lia|]. split; [constructor|]. split; [reflexivity|].
    split; [reflexivity|]. split; [|reflexivity].
    intros kept _. now rewrite app_nil_r.
  - destruct (search_iteration_trace p w)
      as (rc & _ & Hrc & Hcalls & Hwrites & Hkeep & _ & _).
    cbv zeta in Hcalls, Hwrites, Hkeep.
    assert (Hclose : count_calls is_close (evs (search_iteration p w)) = 0%nat).
    { unfold count_calls. rewrite Hcalls.
      destruct (res (search_iteration p w)); [destruct (rc >? 0)|]; reflexivity. }
    cbn [for_each]. rewrite res_bind, evs_bind.
    destruct (res (search_iteration p w)) as [[]|e] eqn:Ei.
    + destruct (IH (st (search_iteration p w)))
        as (rcs & Hlen & Hall & Hw & Hn & Hk & Hc).
      exists (rc :: rcs).
      split; [simpl; lia|]. split; [now constructor|].
      split; [rewrite writes_app, Hwrites, Hw; reflexivity|].
      split; [intros H; simpl; now rewrite (Hn H)|].
      split.
      * intros kept Hdb. rewrite db_failures_app in Hdb.
        apply app_eq_nil in Hdb. destruct Hdb as (Hdb1 & Hdb2).
        destruct (Hkeep kept Hdb1) as (_ & Hk1).
        destruct (Hk (kept ++ [outcome_record p rc]) Hdb2) as (Hn2 & Hk2).
        split; [exact Hn2|].
        rewrite fold_left_app, Hk1, Hk2. cbn [combine map fst snd].
        now rewrite <- app_assoc.
      * now rewrite count_calls_app, Hclose, Hc.
    + exists [rc].
      split; [simpl; lia|]. split; [now constructor|].
      rewrite app_nil_r.
      split; [rewrite Hwrites; now destruct q|].
      split; [discriminate|].
      split; [|exact Hclose].
      intros kept Hdb. destruct (Hkeep kept Hdb) as (Hn & _). discriminate.
Qed.

(** [OfacScraper.__init__]: its entry and browser traffic; it returns when
    the two launch calls returned and raises what the first failing one
    raised. *)
Lemma OfacScraper_init_run (w : W) :
  exists tr,
    evs (OfacScraper_init w) = Call MOfacScraper_init :: tr /\
    Forall browser_ev tr /\
    (launch_failures (evs (OfacScraper_init w)) = [] ->
     res (OfacScraper_init w) = Normal tt) /\
    count_calls is_close (evs (OfacScraper_init w)) = 0%nat /\
    count_calls is_search (evs (OfacScraper_init w)) = 0%nat.
Proof.
  unfold OfacScraper_init. run_cases; eexists; (split; [reflexivity|]);
    unfold launch_failures; simpl;
    (split; [repeat constructor|]); (split; [|split; reflexivity]);
    intros; try discriminate; reflexivity.
Qed.

(** The search phase on a queue that is not empty (lines 78-105), piece by
    piece. *)
Lemma search_phase_run (q : list Person) (w : W) :
  (started <- try_except
                (OfacScraper_init ;; ret true)
                (fun e =>
                   log ERROR "Could not start the OFAC scraper. Aborting search process. Error: " ;;
                   ret false) ;;
   if started : bool
   then for_each q search_iteration ;; close
   else ret tt) w =
  match res (OfacScraper_init w) with
  | Raised _ =>
      mkOut (Normal tt) (st (OfacScraper_init w))
            (evs (OfacScraper_init w) ++
             [Log ERROR "Could not start the OFAC scraper. Aborting search process. Error: "])
  | Normal _ =>
      match res (for_each q search_iteration (st (OfacScraper_init w))) with
      | Raised e =>
          mkOut (Raised e) (st (for_each q search_iteration (st (OfacScraper_init w))))
                (evs (OfacScraper_init w) ++
                 evs (for_each q search_iteration (st (OfacScraper_init w))))
      | Normal _ =>
          mkOut (res (close (st (for_each q search_iteration (st (OfacScraper_init w))))))
                (st (close (st (for_each q search_iteration (st (OfacScraper_init w))))))
                (evs (OfacScraper_init w) ++
                 evs (for_each q search_iteration (st (OfacScraper_init w))) ++
                 evs (close (st (for_each q search_iteration (st (OfacScraper_init w))))))
      end
  end.
Proof.
  rewrite bind_run, try_run, (bind_run OfacScraper_init).
  destruct (res (OfacScraper_init w)) as [[]|e] eqn:Ei.
  - cbn [res st evs ret]. rewrite app_nil_r, bind_run.
    destruct (res (for_each q search_iteration (st (OfacScraper_init w))))
      as [[]|e] eqn:El; reflexivity.
  - cbn [res st evs]. rewrite log_bind_run. cbn [res st evs ret].
    now rewrite app_nil_r.
Qed.

Lemma run_ofac_searches_nonempty (q : list Person) (w : W) :
  q <> [] ->
  run_ofac_searches q w =
  mkOut
    (res ((started <- try_except
                (OfacScraper_init ;; ret true)
                (fun e =>
                   log ERROR "Could not start the OFAC scraper. Aborting search process. Error: " ;;
                   ret false) ;;
           if started : bool
           then for_each q search_iteration ;; close
           else ret tt) w))
    (st ((started <- try_except
                (OfacScraper_init ;; ret true)
                (fun e =>
                   log ERROR "Could not start the OFAC scraper. Aborting search process. Error: " ;;
                   ret false) ;;
           if started : bool
           then for_each q search_iteration ;; close
           else ret tt) w))
    (Call Mrun_ofac_searches ::
     evs ((started <- try_except
                (OfacScraper_init ;; ret true)
                (fun e =>
                   log ERROR "Could not start the OFAC scraper. Aborting search process. Error: " ;;
                   ret false) ;;
           if started : bool
           then for_each q search_iteration ;; close
           else ret tt) w)).
Proof.
  intros Hq. destruct q as [|p q]; [congruence|].
  unfold run_ofac_searches. now rewrite enter_bind_run.
Qed.

Lemma run_ofac_searches_empty (w : W) :
  run_ofac_searches [] w =
  mkOut (Normal tt) w
        [Call Mrun_ofac_searches;
         Log INFO "Search queue is empty. No OFAC checks to perform."].
Proof. reflexivity. Qed.

(** [close]: its entry, then [quit]. *)
Lemma close_run (w : W) :
  calls (evs (close w)) = [Mclose] /\
  writes (evs (close w)) = [] /\
  db_failures (evs (close w)) = [] /\
  (forall acc, fold_left replay_step (evs (close w)) acc = acc) /\
  ios (evs (close w)) = [(Quit, fst (act Quit w))].
Proof.
  unfold close. run_cases; repeat split; try reflexivity;
    intros [kept pending]; reflexivity.
Qed.

End SearchPhase.

(** ** The phases around the search *)

Lemma report_ev_trace (tr : list Event) :
  Forall report_ev tr ->
  writes tr = [] /\
  (forall acc, fold_left replay_step tr acc = acc) /\
  count_calls is_search tr = 0%nat /\
  count_calls is_close tr = 0%nat /\
  browser_ios tr = [].
Proof.
  intros H.
  assert (Hw : Forall no_write_ev tr).
  { eapply Forall_impl; [|exact H]. intros [m|c r|l msg]; simpl; tauto. }
  split; [now apply writes_no_write|].
  split; [intros acc; now apply replay_no_write|].
  clear Hw. unfold count_calls, browser_ios.
  induction H as [|ev tr Hev _ IH]; [repeat split|].
  destruct IH as (I1 & I2 & I3).
  destruct ev as [m|c r|l msg]; simpl in *.
  - destruct Hev as (E1 & E2). rewrite E1, E2. auto.
  - destruct Hev as (E1 & _). rewrite E1. auto.
  - auto.
Qed.

Section MainPhases.

Context {world : World}.

Lemma safe_ret {A} (a : A) : safe (ret a).
Proof. intros w. now exists a. Qed.

Lemma safe_ask {A} (f : W -> A) : safe (ask f).
Proof. intros w. now exists (f w). Qed.

Lemma safe_log l msg : safe (log l msg).
Proof. intros w. now exists tt. Qed.

Lemma safe_enter m : safe (enter m).
Proof. intros w. now exists tt. Qed.

Lemma safe_bind {A B} (m : M A) (k : A -> M B) :
  safe m -> (forall a, safe (k a)) -> safe (bind m k).
Proof.
  intros Hm Hk w. rewrite res_bind. destruct (Hm w) as (a & ->). apply Hk.
Qed.

Lemma safe_try {A} (m : M A) (h : exn -> M A) :
  (forall e, safe (h e)) -> safe (try_except m h).
Proof.
  intros Hh w. rewrite res_try. destruct (res (m w)) as [a|e]; [now exists a|].
  apply Hh.
Qed.

Lemma safe_unit (m : M unit) (w : W) : safe m -> res (m w) = Normal tt.
Proof. intros H. destruct (H w) as ([] & E). exact E. Qed.

End MainPhases.

Ltac safe_steps :=
  repeat first
    [ apply safe_bind; [|intro]
    | apply safe_try; intro
    | apply safe_ret
    | apply safe_ask
    | apply safe_log
    | apply safe_enter ].

Section ReportPhase.

Context {world : World}.

Lemma generate_final_reports_safe : safe generate_final_reports.
Proof.
  unfold generate_final_reports. safe_steps.
  match goal with |- safe (match ?x with _ => _ end) => destruct x end;
    safe_steps.
Qed.

Lemma generate_final_reports_evs : emits report_ev generate_final_reports.
Proof.
  unfold generate_final_reports. emits_steps; simpl; auto.
  match goal with |- emits _ (match ?x with _ => _ end) => destruct x end;
    emits_steps; simpl; auto.
Qed.

(** [generate_final_reports] always returns; it writes no result record and
    does not touch the browser. *)
Lemma generate_final_reports_run (w : W) :
  let o := generate_final_reports w in
  res o = Normal tt /\
  writes (evs o) = [] /\
  (forall acc, fold_left replay_step (evs o) acc = acc) /\
  count_calls is_search (evs o) = 0%nat /\
  count_calls is_close (evs o) = 0%nat /\
  browser_ios (evs o) = [] /\
  In Mgenerate_final_reports (calls (evs o)).
Proof.
  cbv zeta. split; [apply safe_unit, generate_final_reports_safe|].
  destruct (report_ev_trace _ (generate_final_reports_evs w)) as (H1 & H2 & H3 & H4 & H5).
  repeat (split; [assumption|]).
  unfold generate_final_reports. rewrite enter_bind_run. simpl. auto.
Qed.

End ReportPhase.

Section PreCheckPhase.

Context {world : World}.

(** What the database keeps of a bulk insert of at least one row. *)
Lemma insert_results_bulk_replay (r : ResultRecord) (rows : list ResultRecord)
    (w : W) (kept : list ResultRecord) :
  let o := insert_results_bulk (r :: rows) w in
  db_failures (evs o) = [] ->
  res o = Normal tt /\
  fold_left replay_step (evs o) (kept, []) = (kept ++ r :: rows, []).
Proof.
  unfold insert_results_bulk. run_cases; unfold db_failures; simpl;
    intros H; try discriminate; split; reflexivity.
Qed.

Lemma insert_results_bulk_calls (rows : list ResultRecord) (w : W) :
  browser_ios (evs (insert_results_bulk rows w)) = [] /\
  count_calls is_search (evs (insert_results_bulk rows w)) = 0%nat /\
  count_calls is_close (evs (insert_results_bulk rows w)) = 0%nat.
Proof.
  unfold insert_results_bulk. destruct rows as [|r rows]; [repeat split|].
  run_cases; repeat split.
Qed.

(** [process_pre_checks]: what it sends and what the database keeps of it. *)
Lemma process_pre_checks_run (incomplete no_master : list Person) (w : W) :
  let o := process_pre_checks incomplete no_master w in
  let bulk_data := pre_check_bulk_data incomplete no_master in
  List.concat (writes (evs o)) = bulk_data /\
  count_calls is_search (evs o) = 0%nat /\
  count_calls is_close (evs o) = 0%nat /\
  browser_ios (evs o) = [] /\
  (forall kept,
      db_failures (evs o) = [] ->
      res o = Normal tt /\
      fold_left replay_step (evs o) (kept, []) = (kept ++ bulk_data, [])).
Proof.
  cbv zeta. unfold process_pre_checks. rewrite enter_bind_run.
  destruct (pre_check_bulk_data incomplete no_master) as [|r rows].
  - repeat split; try reflexivity. now rewrite app_nil_r.
  - rewrite log_bind_run. cbn [res st evs].
    destruct (insert_results_bulk_writes (r :: rows) w) as (Hw & _).
    destruct (insert_results_bulk_calls (r :: rows) w) as (Hb & Hs & Hc).
    split.
    { change (List.concat (writes (evs (insert_results_bulk (r :: rows) w)))
              = r :: rows).
      rewrite Hw. simpl. now rewrite app_nil_r. }
    split; [exact Hs|]. split; [exact Hc|]. split; [exact Hb|].
    intros kept Hdb.
    exact (insert_results_bulk_replay r rows w kept Hdb).
Qed.

End PreCheckPhase.

Lemma launch_failures_app (a b : list Event) :
  launch_failures (a ++ b) = launch_failures a ++ launch_failures b.
Proof. unfold launch_failures. now rewrite ios_app, filter_app. Qed.

Lemma concat_map_singleton {A B} (f : A -> B) (l : list A) :
  List.concat (map (fun x => [f x]) l) = map f l.
Proof. induction l as [|x l IH]; simpl; [reflexivity | now rewrite IH]. Qed.

Section ScreenRun.

Context {world : World}.

(** The records of the search phase. *)
Lemma run_ofac_searches_records (q : list Person) (w : W) :
  let o := run_ofac_searches q w in
  exists rcs,
    (List.length rcs <= List.length q)%nat /\
    Forall (fun rc => rc = -1 \/ 0 <= rc) rcs /\
    List.concat (writes (evs o))
    = map (fun x => outcome_record (fst x) (snd x)) (combine q rcs) /\
    (forall kept,
        db_failures (evs o) = [] ->
        launch_failures (evs o) = [] ->
        List.length rcs = List.length q /\
        fold_left replay_step (evs o) (kept, [])
        = (kept ++ map (fun x => outcome_record (fst x) (snd x)) (combine q rcs),
           [])).
Proof.
  cbv zeta. destruct q as [|p0 q0] eqn:Eq.
  { exists []. rewrite run_ofac_searches_empty. simpl.
    split; [lia|]. split; [constructor|]. split; [reflexivity|].
    intros kept _ _. now rewrite app_nil_r. }
  rewrite <- Eq. assert (Hq : q <> []) by (rewrite Eq; discriminate).
  clear Eq p0 q0.
  rewrite (run_ofac_searches_nonempty q w Hq), search_phase_run.
  destruct (OfacScraper_init_run w) as (tri & Ei & Hi & Hlaunch & _ & _).
  destruct (scraper_method_trace MOfacScraper_init tri Hi) as (_ & Wi & Di & Ri).
  rewrite <- Ei in Wi, Di, Ri.
  destruct (res (OfacScraper_init w)) as [[]|e] eqn:Eres; cbn [res st evs].
  - destruct (search_loop_records q (st (OfacScraper_init w)))
      as (rcs & Hlen & Hall & Hw & Hn & Hk & _).
    cbv zeta in Hw, Hn, Hk.
    exists rcs. split; [exact Hlen|]. split; [exact Hall|].
    destruct (res (for_each q search_iteration (st (OfacScraper_init w))))
      as [[]|e] eqn:El; cbn [res st evs].
    + destruct (close_run (st (for_each q search_iteration (st (OfacScraper_init w)))))
        as (_ & Wc & Dc & Rc & _).
      change (Call Mrun_ofac_searches :: ?l) with ([Call Mrun_ofac_searches] ++ l).
      rewrite !writes_app, !db_failures_app, Wi, Wc, Hw, Di, Dc.
      cbn [writes flat_map app db_failures ios filter]. rewrite app_nil_r.
      split; [apply concat_map_singleton|].
      intros kept Hdb _. rewrite app_nil_r in Hdb. split; [now apply Hn|].
      cbn [fold_left replay_step]. rewrite !fold_left_app, Ri.
      destruct (Hk kept Hdb) as (_ & Hk'). now rewrite Hk', Rc.
    + change (Call Mrun_ofac_searches :: ?l) with ([Call Mrun_ofac_searches] ++ l).
      rewrite !writes_app, !db_failures_app, Wi, Hw, Di.
      cbn [writes flat_map app db_failures ios filter].
      split; [apply concat_map_singleton|].
      intros kept Hdb _. destruct (Hk kept Hdb) as (Hn' & _). discriminate.
  - exists []. split; [simpl; lia|]. split; [constructor|].
    change (Call Mrun_ofac_searches :: ?l) with ([Call Mrun_ofac_searches] ++ l).
    rewrite !writes_app, !launch_failures_app, Wi.
    split; [now destruct q|].
    intros kept _ Hl. exfalso.
    cbn [launch_failures ios flat_map app filter] in Hl.
    apply app_eq_nil in Hl. destruct Hl as (Hl & _).
    specialize (Hlaunch Hl). discriminate.
Qed.

End ScreenRun.

Section ScreenProperties.

Context {world : World}.

(** Lines 134-137 of [main], piece by piece. *)
Lemma screen_run (all_persons : list Person) (w : W) :
  screen all_persons w =
  match res (process_pre_checks (filter goes_incomplete all_persons)
               (filter goes_no_master all_persons) w) with
  | Raised e =>
      mkOut (Raised e)
        (st (process_pre_checks (filter goes_incomplete all_persons)
               (filter goes_no_master all_persons) w))
        ([Call Mcategorize_persons; Log INFO "Categorization complete: "] ++
         evs (process_pre_checks (filter goes_incomplete all_persons)
                (filter goes_no_master all_persons) w))
  | Normal _ =>
      match res (run_ofac_searches (filter goes_search_queue all_persons)
                   (st (process_pre_checks (filter goes_incomplete all_persons)
                          (filter goes_no_master all_persons) w))) with
      | Raised e =>
          mkOut (Raised e)
            (st (run_ofac_searches (filter goes_search_queue all_persons)
                   (st (process_pre_checks (filter goes_incomplete all_persons)
                          (filter goes_no_master all_persons) w))))
            ([Call Mcategorize_persons; Log INFO "Categorization complete: "] ++
             evs (process_pre_checks (filter goes_incomplete all_persons)
                    (filter goes_no_master all_persons) w) ++
             evs (run_ofac_searches (filter goes_search_queue all_persons)
                    (st (process_pre_checks (filter goes_incomplete all_persons)
                           (filter goes_no_master all_persons) w))))
      | Normal _ =>
          mkOut
            (res (generate_final_reports
                    (st (run_ofac_searches (filter goes_search_queue all_persons)
                           (st (process_pre_checks (filter goes_incomplete all_persons)
                                  (filter goes_no_master all_persons) w))))))
            (st (generate_final_reports
                   (st (run_ofac_searches (filter goes_search_queue all_persons)
                          (st (process_pre_checks (filter goes_incomplete all_persons)
                                 (filter goes_no_master all_persons) w))))))
            ([Call Mcategorize_persons; Log INFO "Categorization complete: "] ++
             evs (process_pre_checks (filter goes_incomplete all_persons)
                    (filter goes_no_master all_persons) w) ++
             evs (run_ofac_searches (filter goes_search_queue all_persons)
                    (st (process_pre_checks (filter goes_incomplete all_persons)
                           (filter goes_no_master all_persons) w))) ++
             evs (generate_final_reports
                    (st (run_ofac_searches (filter goes_search_queue all_persons)
                           (st (process_pre_checks (filter goes_incomplete all_persons)
                                  (filter goes_no_master all_persons) w))))))
      end
  end.
Proof.
  assert (Hc : categorize_persons all_persons w
               = mkOut (Normal (filter goes_search_queue all_persons,
                                filter goes_incomplete all_persons,
                                filter goes_no_master all_persons))
                       w [Call Mcategorize_persons;
                          Log INFO "Categorization complete: "]).
  { unfold categorize_persons. rewrite enter_bind_run, log_bind_run.
    unfold ret. cbn [res st evs]. now rewrite categorize_filter. }
  unfold screen. rewrite bind_run, Hc. cbn [res st evs]. cbv beta iota.
  rewrite (bind_run (process_pre_checks _ _)).
  destruct (res (process_pre_checks (filter goes_incomplete all_persons)
                   (filter goes_no_master all_persons) w)) as [[]|e];
    cbn [res st evs]; [|reflexivity].
  rewrite (bind_run (run_ofac_searches _)).
  destruct (res (run_ofac_searches (filter goes_search_queue all_persons)
                   (st (process_pre_checks (filter goes_incomplete all_persons)
                          (filter goes_no_master all_persons) w)))) as [[]|e];
    cbn [res st evs]; reflexivity.
Qed.

(** A search phase that starts no search: the queue is empty, or the
    constructor of the scraper raised. *)
Lemma run_ofac_searches_skipped (q : list Person) (w : W) :
  (q = [] \/ exists e, res (OfacScraper_init w) = Raised e) ->
  let o := run_ofac_searches q w in
  res o = Normal tt /\
  calls (evs o)
  = Mrun_ofac_searches :: match q with [] => [] | _ => [MOfacScraper_init] end /\
  writes (evs o) = [] /\
  (forall acc, fold_left replay_step (evs o) acc = acc) /\
  (q = [] -> ios (evs o) = []) /\
  (q <> [] ->
   In (ERROR, "Could not start the OFAC scraper. Aborting search process. Error: ")
      (logs (evs o))).
Proof.
  intros Hskip. cbv zeta. destruct q as [|p0 q0] eqn:Eq.
  { rewrite run_ofac_searches_empty. repeat split; try reflexivity.
    - now intros [kept pending].
    - congruence. }
  destruct Hskip as [Hskip|(e & He)]; [discriminate|].
  rewrite <- Eq. assert (Hq : q <> []) by (rewrite Eq; discriminate).
  rewrite (run_ofac_searches_nonempty q w Hq), search_phase_run, He.
  cbn [res st evs].
  destruct (OfacScraper_init_run w) as (tri & Ei & Hi & _).
  destruct (scraper_method_trace MOfacScraper_init tri Hi) as (Ci & Wi & _ & Ri).
  rewrite <- Ei in Ci, Wi, Ri.
  change (Call Mrun_ofac_searches :: ?l) with ([Call Mrun_ofac_searches] ++ l).
  rewrite !calls_app, !writes_app, !logs_app, Ci, Wi.
  split; [reflexivity|]. split; [reflexivity|]. split; [reflexivity|].
  split; [|split].
  - intros [kept pending]. rewrite !fold_left_app, Ri. reflexivity.
  - congruence.
  - intros _. apply in_or_app. right. apply in_or_app. right. simpl. auto.
Qed.

(** C6. With an empty queue [run_ofac_searches] returns at once: the
    scraper is not constructed and nothing is sent anywhere.  When the
    constructor raises, [run_ofac_searches] logs the error and returns:
    the constructor was called once, no search was made, nothing was
    written.  In both cases the run goes on: [generate_final_reports] is
    entered, and the database holds what the pre-checks left there. *)
Theorem search_phase_skipped (w : W) :
  (res (run_ofac_searches [] w) = Normal tt /\
   calls (evs (run_ofac_searches [] w)) = [Mrun_ofac_searches] /\
   ios (evs (run_ofac_searches [] w)) = []) /\
  (forall (q : list Person) (e : exn),
      q <> [] ->
      res (OfacScraper_init w) = Raised e ->
      res (run_ofac_searches q w) = Normal tt /\
      calls (evs (run_ofac_searches q w)) = [Mrun_ofac_searches; MOfacScraper_init] /\
      writes (evs (run_ofac_searches q w)) = [] /\
      In (ERROR, "Could not start the OFAC scraper. Aborting search process. Error: ")
         (logs (evs (run_ofac_searches q w)))) /\
  (forall all_persons : list Person,
      let incomplete := filter goes_incomplete all_persons in
      let no_master := filter goes_no_master all_persons in
      let opre := process_pre_checks incomplete no_master w in
      res opre = Normal tt ->
      (filter goes_search_queue all_persons = [] \/
       exists e, res (OfacScraper_init (st opre)) = Raised e) ->
      let o := screen all_persons w in
      res o = Normal tt /\
      In Mgenerate_final_reports (calls (evs o)) /\
      count_calls is_search (evs o) = 0%nat /\
      List.concat (writes (evs o)) = pre_check_bulk_data incomplete no_master /\
      stored (evs o) = stored (evs opre)).
Proof.
  split; [|split].
  - rewrite run_ofac_searches_empty. repeat split.
  - intros q e Hq He.
    destruct (run_ofac_searches_skipped q w (or_intror (ex_intro _ e He)))
      as (H1 & H2 & H3 & _ & _ & H6).
    split; [exact H1|]. split; [|split; [exact H3 | exact (H6 Hq)]].
    rewrite H2. now destruct q.
  - intros all_persons. cbv zeta. intros Hpre Hskip.
    rewrite screen_run, Hpre.
    destruct (run_ofac_searches_skipped _ _ Hskip) as (R1 & R2 & R3 & R4 & _).
    cbv zeta in R1, R2, R3, R4. rewrite R1. cbn [res st evs].
    destruct (generate_final_reports_run
                (st (run_ofac_searches (filter goes_search_queue all_persons)
                       (st (process_pre_checks (filter goes_incomplete all_persons)
                              (filter goes_no_master all_persons) w)))))
      as (G1 & G2 & G3 & G4 & _ & _ & G7).
    cbv zeta in G1, G2, G3, G4, G7.
    destruct (process_pre_checks_run (filter goes_incomplete all_persons)
                (filter goes_no_master all_persons) w) as (P1 & P2 & _).
    cbv zeta in P1, P2.
    split; [exact G1|]. split; [|split; [|split]].
    + rewrite !calls_app. apply in_or_app. right. apply in_or_app. right.
      apply in_or_app. right. exact G7.
    + rewrite !count_calls_app, P2, G4. unfold count_calls at 2. rewrite R2.
      now destruct (filter goes_search_queue all_persons).
    + rewrite !writes_app, R3, G2, app_nil_r. exact P1.
    + unfold stored, replay. rewrite !fold_left_app, G3, R4. reflexivity.
Qed.

End ScreenProperties.

(** ** One record per person *)

Lemma partition_permutation (l : list Person) :
  Permutation
    (filter goes_incomplete l ++ filter goes_no_master l ++ filter goes_search_queue l)
    l.
Proof.
  induction l as [|p l IH]; [constructor|]. cbn [filter].
  destruct (goes_exactly_one p) as [(E1 & E2 & E3)|[(E1 & E2 & E3)|(E1 & E2 & E3)]];
    rewrite E1, E2, E3.
  - rewrite app_assoc. apply Permutation_sym, Permutation_cons_app.
    rewrite <- app_assoc. now apply Permutation_sym.
  - simpl. now constructor.
  - apply Permutation_sym, Permutation_cons_app. now apply Permutation_sym.
Qed.

Lemma outcome_record_id (p : Person) (rc : Z) :
  r_idPersona (outcome_record p rc) = idPersona p.
Proof. unfold outcome_record. now destruct (rc >? -1). Qed.

Lemma outcome_records_ids (q : list Person) (rcs : list Z) :
  List.length rcs = List.length q ->
  map r_idPersona (map (fun x => outcome_record (fst x) (snd x)) (combine q rcs))
  = map idPersona q.
Proof.
  revert rcs. induction q as [|p q IH]; intros [|rc rcs] H; simpl in *;
    try discriminate; [reflexivity|].
  rewrite outcome_record_id. f_equal. apply IH. lia.
Qed.

Lemma records_of_count (p : Person) (rows : list ResultRecord) :
  List.length (records_of p rows)
  = count_occ Z.eq_dec (map r_idPersona rows) (idPersona p).
Proof.
  unfold records_of. induction rows as [|r rows IH]; [reflexivity|].
  cbn [filter map count_occ].
  destruct (Z.eq_dec (r_idPersona r) (idPersona p)) as [E|E].
  - rewrite E, Z.eqb_refl. simpl. now rewrite IH.
  - apply Z.eqb_neq in E. now rewrite E.
Qed.

Section OneRecord.

Context {world : World}.

(** C8, as the code has it.  In a run of lines 134-137 the records sent to
    the database are, in this order, one per incomplete person, one per
    no-master person, and one per person of the search queue that the loop
    reached; a person the loop did not reach has none.  The database keeps
    some of the records sent and nothing else, and a record it keeps is not
    touched again.  When no database call fails and the browser starts, it
    keeps them all, one per row of the input; with distinct person ids that
    is exactly one record per person. *)
Theorem one_record_per_person_reached (all_persons : list Person) (w : W) :
  let o := screen all_persons w in
  let search_queue := filter goes_search_queue all_persons in
  let incomplete := filter goes_incomplete all_persons in
  let no_master := filter goes_no_master all_persons in
  exists rcs : list Z,
    (List.length rcs <= List.length search_queue)%nat /\
    Forall (fun rc => rc = -1 \/ 0 <= rc) rcs /\
    List.concat (writes (evs o))
    = map incomplete_record incomplete ++ map no_master_record no_master ++
      map (fun x => outcome_record (fst x) (snd x)) (combine search_queue rcs) /\
    subseq (stored (evs o)) (List.concat (writes (evs o))) /\
    (forall tr1 tr2, evs o = tr1 ++ tr2 ->
                     exists more, stored (evs o) = stored tr1 ++ more) /\
    (db_failures (evs o) = [] ->
     launch_failures (evs o) = [] ->
     List.length rcs = List.length search_queue /\
     stored (evs o) = List.concat (writes (evs o)) /\
     Permutation (map r_idPersona (stored (evs o))) (map idPersona all_persons) /\
     (NoDup (map idPersona all_persons) -> exactly_one_record all_persons (evs o))).
Proof.
  cbv zeta.
  set (sq := filter goes_search_queue all_persons).
  set (inc := filter goes_incomplete all_persons).
  set (nm := filter goes_no_master all_persons).
  assert (Hfull : forall rcs,
             List.length rcs = List.length sq ->
             stored (evs (screen all_persons w))
             = map incomplete_record inc ++ map no_master_record nm ++
               map (fun x => outcome_record (fst x) (snd x)) (combine sq rcs) ->
             Permutation (map r_idPersona (stored (evs (screen all_persons w))))
                         (map idPersona all_persons) /\
             (NoDup (map idPersona all_persons) ->
              exactly_one_record all_persons (evs (screen all_persons w)))).
  { intros rcs Hlen Hst.
    assert (Hperm : Permutation (map r_idPersona (stored (evs (screen all_persons w))))
                                (map idPersona all_persons)).
    { rewrite Hst, !map_app, outcome_records_ids, !map_map by exact Hlen.
      cbn [incomplete_record no_master_record r_idPersona].
      rewrite <- !map_app. apply Permutation_map. apply partition_permutation. }
    split; [exact Hperm|].
    intros Hnd p Hp. rewrite records_of_count.
    rewrite (Permutation_count_occ Z.eq_dec) in Hperm. rewrite Hperm.
    apply NoDup_count_occ'; [exact Hnd|]. now apply in_map. }
  revert Hfull. rewrite screen_run.
  destruct (process_pre_checks_run inc nm w) as (P1 & _ & _ & _ & P5).
  cbv zeta in P1, P5. rewrite pre_check_bulk_data_map in P1, P5.
  fold inc nm sq.
  destruct (res (process_pre_checks inc nm w)) as [[]|e] eqn:Epre; cbn [res st evs].
  - (* the pre-checks returned *)
    destruct (run_ofac_searches_records sq (st (process_pre_checks inc nm w)))
      as (rcs & Hlen & Hall & Hw & Hk).
    cbv zeta in Hw, Hk.
    set (orun := run_ofac_searches sq (st (process_pre_checks inc nm w))) in *.
    set (tr := match res orun with
               | Normal _ => evs orun ++ evs (generate_final_reports (st orun))
               | Raised _ => evs orun
               end).
    assert (Htr : List.concat (writes tr) = List.concat (writes (evs orun)) /\
                  (forall acc, fold_left replay_step tr acc
                               = fold_left replay_step (evs orun) acc) /\
                  (db_failures tr = [] -> db_failures (evs orun) = []) /\
                  (launch_failures tr = [] -> launch_failures (evs orun) = [])).
    { unfold tr. destruct (res orun); [|auto].
      destruct (generate_final_reports_run (st orun)) as (_ & G2 & G3 & _).
      cbv zeta in G2, G3.
      rewrite writes_app, G2, app_nil_r.
      split; [reflexivity|]. split; [|split].
      - intros acc. now rewrite fold_left_app, G3.
      - rewrite db_failures_app. intros H. now apply app_eq_nil in H.
      - rewrite launch_failures_app. intros H. now apply app_eq_nil in H. }
    destruct Htr as (T1 & T2 & T3 & T4).
    assert (Eevs : evs match res orun with
                       | Normal _ =>
                           mkOut (res (generate_final_reports (st orun)))
                                 (st (generate_final_reports (st orun)))
                                 ([Call Mcategorize_persons;
                                   Log INFO "Categorization complete: "] ++
                                  evs (process_pre_checks inc nm w) ++
                                  evs orun ++ evs (generate_final_reports (st orun)))
                       | Raised e =>
                           mkOut (Raised e) (st orun)
                                 ([Call Mcategorize_persons;
                                   Log INFO "Categorization complete: "] ++
                                  evs (process_pre_checks inc nm w) ++ evs orun)
                       end
                   = [Call Mcategorize_persons; Log INFO "Categorization complete: "]
                     ++ evs (process_pre_checks inc nm w) ++ tr).
    { unfold tr. now destruct (res orun). }
    rewrite Eevs. clear Eevs. intros Hfull.
    exists rcs. split; [exact Hlen|]. split; [exact Hall|].
    assert (Hwrites : List.concat (writes
                        ([Call Mcategorize_persons; Log INFO "Categorization complete: "]
                         ++ evs (process_pre_checks inc nm w) ++ tr))
                      = map incomplete_record inc ++ map no_master_record nm ++
                        map (fun x => outcome_record (fst x) (snd x)) (combine sq rcs)).
    { rewrite !writes_app, !concat_app, P1, T1, Hw. cbn [writes flat_map List.concat app].
      now rewrite <- app_assoc. }
    split; [exact Hwrites|].
    split; [apply stored_subseq_writes|].
    split.
    { intros tr1 tr2 E. rewrite E. apply stored_append_only. }
    intros Hdb Hl.
    rewrite !db_failures_app in Hdb. apply app_eq_nil in Hdb.
    destruct Hdb as (_ & Hdb). apply app_eq_nil in Hdb. destruct Hdb as (Hdb1 & Hdb2).
    rewrite !launch_failures_app in Hl. apply app_eq_nil in Hl.
    destruct Hl as (_ & Hl). apply app_eq_nil in Hl. destruct Hl as (_ & Hl2).
    destruct (P5 [] Hdb1) as (_ & Hk1). cbn [app] in Hk1.
    destruct (Hk (map incomplete_record inc ++ map no_master_record nm)
                 (T3 Hdb2) (T4 Hl2)) as (Hlen' & Hk2).
    assert (Hst : stored ([Call Mcategorize_persons; Log INFO "Categorization complete: "]
                          ++ evs (process_pre_checks inc nm w) ++ tr)
                  = map incomplete_record inc ++ map no_master_record nm ++
                    map (fun x => outcome_record (fst x) (snd x)) (combine sq rcs)).
    { unfold stored, replay. rewrite !fold_left_app.
      cbn [fold_left replay_step]. rewrite Hk1, T2, Hk2. cbn [fst app].
      now rewrite <- app_assoc. }
    split; [exact Hlen'|]. split; [now rewrite Hst, Hwrites|].
    exact (Hfull rcs Hlen' Hst).
  - (* the pre-checks raised *)
    intros _. exists [].
    split; [simpl; lia|]. split; [constructor|].
    split.
    { rewrite !writes_app, !concat_app, P1. cbn [writes flat_map List.concat app].
      rewrite combine_nil. simpl. now rewrite !app_nil_r. }
    split; [apply stored_subseq_writes|].
    split.
    { intros tr1 tr2 E. rewrite E. apply stored_append_only. }
    intros Hdb _. exfalso.
    rewrite !db_failures_app in Hdb. apply app_eq_nil in Hdb.
    destruct Hdb as (_ & Hdb). destruct (P5 [] Hdb) as (Hn & _). discriminate.
Qed.

End OneRecord.

(** ** The run as a whole *)

Section MainProperties.

Context {world : World}.

Lemma quiet_method_trace (m : Method) (tr : list Event) :
  match m with Msearch_person _ _ _ | Mclose => False | _ => True end ->
  Forall (fun ev => report_ev ev /\ not_call ev) tr ->
  calls (Call m :: tr) = [m] /\
  writes (Call m :: tr) = [] /\
  browser_ios (Call m :: tr) = [] /\
  (forall acc, fold_left replay_step (Call m :: tr) acc = acc).
Proof.
  intros Hm H.
  assert (H1 : Forall report_ev (Call m :: tr)).
  { constructor; [now destruct m|].
    eapply Forall_impl; [|exact H]. now intros ev [Hr _]. }
  assert (H2 : Forall not_call tr).
  { eapply Forall_impl; [|exact H]. now intros ev [_ Hn]. }
  destruct (report_ev_trace _ H1) as (W1 & R1 & _ & _ & B1).
  split; [|now repeat split].
  cbn [calls flat_map app]. change (flat_map _ tr) with (calls tr).
  now rewrite calls_not_call.
Qed.

Lemma DatabaseManager_init_evs (w : W) :
  exists tr,
    evs (DatabaseManager_init w) = Call MDatabaseManager_init :: tr /\
    Forall (fun ev => report_ev ev /\ not_call ev) tr.
Proof.
  unfold DatabaseManager_init. rewrite enter_bind_run. cbn [evs].
  eexists. split; [reflexivity|].
  apply emits_try.
  - emits_steps; simpl; auto.
  - intros e. destruct e; emits_steps; simpl; auto.
Qed.

Lemma fetch_persons_to_process_evs (w : W) :
  exists tr,
    evs (fetch_persons_to_process w) = Call Mfetch_persons_to_process :: tr /\
    Forall (fun ev => report_ev ev /\ not_call ev) tr.
Proof.
  unfold fetch_persons_to_process. rewrite enter_bind_run. cbn [evs].
  eexists. split; [reflexivity|].
  apply emits_try; [|intro]; emits_steps; simpl; auto.
Qed.

Lemma disconnect_evs (w : W) :
  exists tr,
    evs (disconnect w) = Call Mdisconnect :: tr /\
    Forall (fun ev => report_ev ev /\ not_call ev) tr.
Proof.
  unfold disconnect. rewrite enter_bind_run. cbn [evs].
  eexists. split; [reflexivity|].
  match goal with |- Forall ?P (evs (?m w)) => revert w; change (emits P m) end.
  emits_steps; simpl; auto.
Qed.

(** [fetch_persons_to_process] never raises; a failure gives the empty list
    and an ERROR line. *)
Lemma fetch_persons_to_process_res (w : W) :
  (exists persons, res (fetch_persons_to_process w) = Normal persons) /\
  (failures (evs (fetch_persons_to_process w)) <> [] ->
   res (fetch_persons_to_process w) = Normal [] /\
   In (ERROR, "Failed to fetch persons to process: ")
      (logs (evs (fetch_persons_to_process w)))).
Proof.
  unfold fetch_persons_to_process. rewrite enter_bind_run. cbn [res evs].
  rewrite res_try, evs_try, failures_call, failures_app.
  set (body := io ExecuteSelectPersons ;; io FetchAll ;; ask fetched_persons).
  assert (Hclean : clean body) by (unfold body; clean_steps).
  destruct (res (body w)) as [persons|e] eqn:E.
  - split; [now exists persons|].
    rewrite (Hclean w persons E). intros H. now elim H.
  - rewrite log_bind_run. cbn [res evs ret].
    split; [now exists []|]. intros _. split; [reflexivity|].
    change (Call Mfetch_persons_to_process :: ?l)
      with ([Call Mfetch_persons_to_process] ++ l).
    rewrite !logs_app. apply in_or_app. right. apply in_or_app. right.
    simpl. auto.
Qed.

(** With nothing fetched, the [try] block of [main] ends after one INFO
    line. *)
Lemma main_connected_empty (w : W) :
  res (fetch_persons_to_process w) = Normal [] ->
  main_connected w
  = mkOut (Normal tt) (st (fetch_persons_to_process w))
          (evs (fetch_persons_to_process w) ++
           [Log INFO "No persons found with the 'aConsultar' flag set to 'SI'."]).
Proof.
  intros H. unfold main_connected. rewrite bind_run, H. reflexivity.
Qed.

(** With a fetch that is not empty, the [try] block goes through lines
    134-137 with what was fetched. *)
Lemma main_connected_screens (w : W) (p : Person) (l : list Person) :
  res (fetch_persons_to_process w) = Normal (p :: l) ->
  main_connected w
  = mkOut (res (screen (p :: l) (st (fetch_persons_to_process w))))
          (st (screen (p :: l) (st (fetch_persons_to_process w))))
          (evs (fetch_persons_to_process w) ++
           evs (screen (p :: l) (st (fetch_persons_to_process w)))).
Proof.
  intros H. unfold main_connected. rewrite bind_run, H. reflexivity.
Qed.

End MainProperties.

Section MainRun.

Context {world : World}.

(** [main] once the connection is up: the [try] block, then [disconnect]. *)
Lemma main_evs_connected (w : W) :
  res (DatabaseManager_init w) = Normal tt ->
  exists tail,
    evs (main w)
    = [Log INFO "--- OFAC Background Check Automation Started ---"] ++
      evs (DatabaseManager_init w) ++
      evs (try_except main_connected
             (fun e => log CRITICAL "A critical error occurred in the main process: ")
             (st (DatabaseManager_init w))) ++
      evs (disconnect
             (st (try_except main_connected
                    (fun e => log CRITICAL "A critical error occurred in the main process: ")
                    (st (DatabaseManager_init w))))) ++
      tail /\
    Forall (fun ev => exists l msg, ev = Log l msg) tail.
Proof.
  intros Hinit. unfold main. rewrite log_bind_run. cbn [evs].
  rewrite evs_bind, evs_try, res_try, st_try, (evs_bind DatabaseManager_init),
    (res_bind DatabaseManager_init), (st_bind DatabaseManager_init), Hinit.
  cbn [res st evs ret]. rewrite !app_nil_r.
  rewrite evs_bind.
  set (body := try_except main_connected
                 (fun e => log CRITICAL "A critical error occurred in the main process: ")).
  assert (Hbody : res (body (st (DatabaseManager_init w))) = Normal tt).
  { unfold body. rewrite res_try.
    destruct (res (main_connected (st (DatabaseManager_init w)))) as [[]|e];
      reflexivity. }
  rewrite (res_bind body), (evs_bind body), (st_bind body), Hbody.
  destruct (res (disconnect (st (body (st (DatabaseManager_init w))))))
    as [[]|e] eqn:Ed.
  - exists [Log INFO "--- OFAC Background Check Automation Finished ---"].
    split; [|repeat constructor; eauto].
    cbn [evs log emit app]. now rewrite <- !app_assoc.
  - exists []. split; [|constructor].
    cbn [app]. now rewrite !app_nil_r.
Qed.

Lemma log_tail_trace (tail : list Event) :
  Forall (fun ev => exists l msg, ev = Log l msg) tail ->
  calls tail = [] /\ writes tail = [] /\ browser_ios tail = [].
Proof.
  induction 1 as [|ev tail (l & msg & ->) _ IH]; [repeat split|].
  exact IH.
Qed.

(** C10. [fetch_persons_to_process] never raises.  When one of its calls to
    the database raised it returns the empty list (and logs an ERROR line).
    On an empty list, whatever the reason, the [try] block of [main] logs
    one INFO line and ends; so a run whose connection came up and whose
    fetch gave the empty list enters [DatabaseManager.__init__],
    [fetch_persons_to_process] and [disconnect] and nothing else: no
    pre-check, no search, no report, no write, no browser. *)
Theorem fetch_failure_ends_run_as_empty (w : W) :
  (exists persons, res (fetch_persons_to_process w) = Normal persons) /\
  (failures (evs (fetch_persons_to_process w)) <> [] ->
   res (fetch_persons_to_process w) = Normal [] /\
   In (ERROR, "Failed to fetch persons to process: ")
      (logs (evs (fetch_persons_to_process w)))) /\
  (res (fetch_persons_to_process w) = Normal [] ->
   main_connected w
   = mkOut (Normal tt) (st (fetch_persons_to_process w))
           (evs (fetch_persons_to_process w) ++
            [Log INFO "No persons found with the 'aConsultar' flag set to 'SI'."])) /\
  (res (DatabaseManager_init w) = Normal tt ->
   res (fetch_persons_to_process (st (DatabaseManager_init w))) = Normal [] ->
   calls (evs (main w))
   = [MDatabaseManager_init; Mfetch_persons_to_process; Mdisconnect] /\
   writes (evs (main w)) = [] /\
   browser_ios (evs (main w)) = []).
Proof.
  destruct (fetch_persons_to_process_res w) as (H1 & H2).
  split; [exact H1|]. split; [exact H2|].
  split; [apply main_connected_empty|].
  intros Hinit Hfetch.
  destruct (main_evs_connected w Hinit) as (tail & E & Htail). rewrite E.
  destruct (log_tail_trace tail Htail) as (Ct & Wt & Bt).
  rewrite evs_try, (main_connected_empty _ Hfetch). cbn [res evs].
  rewrite st_try, (main_connected_empty _ Hfetch). cbn [res st].
  destruct (DatabaseManager_init_evs w) as (tri & Ei & Hi).
  destruct (quiet_method_trace MDatabaseManager_init tri I Hi) as (Ci & Wi & Bi & _).
  rewrite <- Ei in Ci, Wi, Bi.
  destruct (fetch_persons_to_process_evs (st (DatabaseManager_init w)))
    as (trf & Ef & Hf).
  destruct (quiet_method_trace Mfetch_persons_to_process trf I Hf) as (Cf & Wf & Bf & _).
  rewrite <- Ef in Cf, Wf, Bf.
  destruct (disconnect_evs (st (fetch_persons_to_process (st (DatabaseManager_init w)))))
    as (trd & Ed & Hd).
  destruct (quiet_method_trace Mdisconnect trd I Hd) as (Cd & Wd & Bd & _).
  rewrite <- Ed in Cd, Wd, Bd.
  rewrite !calls_app, !writes_app, !browser_ios_app.
  rewrite Ci, Cf, Cd, Ct, Wi, Wf, Wd, Wt, Bi, Bf, Bd, Bt.
  repeat split.
Qed.

(** A run of [main] that connects and fetches at least one person writes
    and keeps what lines 134-137 write and keep. *)
Lemma main_keeps_what_screen_keeps (w : W) (p : Person) (l : list Person) :
  res (DatabaseManager_init w) = Normal tt ->
  res (fetch_persons_to_process (st (DatabaseManager_init w))) = Normal (p :: l) ->
  let o := screen (p :: l)
             (st (fetch_persons_to_process (st (DatabaseManager_init w)))) in
  writes (evs (main w)) = writes (evs o) /\
  stored (evs (main w)) = stored (evs o).
Proof.
  intros Hinit Hfetch. cbv zeta.
  destruct (main_evs_connected w Hinit) as (tail & E & Htail). rewrite E.
  assert (Ht : writes tail = [] /\ forall acc, fold_left replay_step tail acc = acc).
  { split; [apply (log_tail_trace tail Htail)|].
    intros acc. apply replay_no_write.
    eapply Forall_impl; [|exact Htail]. now intros ev (lv & msg & ->). }
  destruct Ht as (Wt & Rt).
  rewrite evs_try, st_try, (main_connected_screens _ _ _ Hfetch). cbn [res st evs].
  set (o := screen (p :: l)
              (st (fetch_persons_to_process (st (DatabaseManager_init w))))).
  destruct (DatabaseManager_init_evs w) as (tri & Ei & Hi).
  destruct (quiet_method_trace MDatabaseManager_init tri I Hi) as (_ & Wi & _ & Ri).
  rewrite <- Ei in Wi, Ri.
  destruct (fetch_persons_to_process_evs (st (DatabaseManager_init w)))
    as (trf & Ef & Hf).
  destruct (quiet_method_trace Mfetch_persons_to_process trf I Hf) as (_ & Wf & _ & Rf).
  rewrite <- Ef in Wf, Rf.
  assert (Hd : forall w', writes (evs (disconnect w')) = [] /\
                          forall acc, fold_left replay_step (evs (disconnect w')) acc = acc).
  { intros w'. destruct (disconnect_evs w') as (trd & Ed & Hd).
    destruct (quiet_method_trace Mdisconnect trd I Hd) as (_ & Wd & _ & Rd).
    rewrite <- Ed in Wd, Rd. now split. }
  unfold stored, replay.
  rewrite !writes_app, !fold_left_app, Wi, Wf, Wt, Ri, Rf, Rt.
  cbn [fold_left replay_step writes flat_map app].
  destruct (res o) as [[]|e]; cbn [evs log emit];
    match goal with
    | |- context [disconnect ?w'] => destruct (Hd w') as (Wd & Rd)
    end; rewrite Wd, Rd; cbn [fold_left replay_step writes flat_map app];
    rewrite ?app_nil_r.
  - split; reflexivity.
  - destruct (fold_left replay_step (evs o) ([], [])) as [kept pending].
    split; reflexivity.
Qed.

End MainRun.

(** ** Closing the session *)

Section CloseSession.

Context {world : World}.

(** C7, as the code has it.  Once the scraper is constructed, [close] is
    called once when the loop runs to its end, and is not called at all when
    an exception leaves the loop: the exception leaves [run_ofac_searches]
    too, there is no [finally].  [close] passes on what [quit] raises, and a
    second [close] sends a second [quit]. *)
Theorem close_only_after_a_loop_that_returns (q : list Person) (w : W) :
  q <> [] ->
  res (OfacScraper_init w) = Normal tt ->
  let loop := for_each q search_iteration (st (OfacScraper_init w)) in
  let o := run_ofac_searches q w in
  (res loop = Normal tt ->
   count_calls is_close (evs o) = 1%nat /\ res o = res (close (st loop))) /\
  (forall e, res loop = Raised e ->
             count_calls is_close (evs o) = 0%nat /\ res o = Raised e) /\
  (forall w' e, fst (act Quit w') = Some e -> res (close w') = Raised e) /\
  (forall w', res (close w') = Normal tt ->
              ios (evs ((close ;; close) w'))
              = [(Quit, None); (Quit, fst (act Quit (st (close w'))))]).
Proof.
  intros Hq Hinit. cbv zeta.
  rewrite (run_ofac_searches_nonempty q w Hq), search_phase_run, Hinit.
  destruct (OfacScraper_init_run w) as (tri & Ei & Hi & _ & Ci & _).
  destruct (search_loop_records q (st (OfacScraper_init w)))
    as (rcs & _ & _ & _ & _ & _ & Cl).
  cbv zeta in Cl.
  split; [|split; [|split]].
  - intros Hl. rewrite Hl. cbn [res evs].
    change (Call Mrun_ofac_searches :: ?l) with ([Call Mrun_ofac_searches] ++ l).
    rewrite !count_calls_app, Ci, Cl.
    destruct (close_run (st (for_each q search_iteration (st (OfacScraper_init w)))))
      as (Cc & _).
    unfold count_calls at 2. rewrite Cc. split; reflexivity.
  - intros e Hl. rewrite Hl. cbn [res evs].
    change (Call Mrun_ofac_searches :: ?l) with ([Call Mrun_ofac_searches] ++ l).
    rewrite !count_calls_app, Ci, Cl. split; reflexivity.
  - intros w' e He. unfold close. rewrite enter_bind_run. cbn [res].
    rewrite res_bind. unfold io at 1. cbn [res]. now rewrite He.
  - intros w' Hc. rewrite evs_bind, Hc, ios_app.
    destruct (close_run w') as (_ & _ & _ & _ & I1).
    destruct (close_run (st (close w'))) as (_ & _ & _ & _ & I2).
    rewrite I1, I2. cbn [app]. repeat f_equal.
    revert Hc. unfold close. rewrite enter_bind_run. cbn [res].
    rewrite res_bind. unfold io at 1. cbn [res].
    destruct (fst (act Quit w')); [discriminate | reflexivity].
Qed.

End CloseSession.

(** * Further properties *)

(** ** Constructors *)

Section Constructors.

Context {world : World}.

(** X1. [OfacScraper.__init__] returns exactly when both launch calls
    returned.  Otherwise it raises what the failing call raised, after one
    ERROR line; and when the driver cannot be installed, Chrome is not
    started. *)
Theorem OfacScraper_init_outcome (w : W) :
  let o := OfacScraper_init w in
  (res o = Normal tt <-> failures (evs o) = []) /\
  (forall e, res o = Raised e ->
             (In (ChromeDriverInstall, Some e) (ios (evs o)) \/
              In (ChromeStart, Some e) (ios (evs o))) /\
             In (ERROR, "Failed to initialize WebDriver: ") (logs (evs o))) /\
  (forall e, fst (act ChromeDriverInstall w) = Some e ->
             res o = Raised e /\ ios (evs o) = [(ChromeDriverInstall, Some e)]).
Proof.
  unfold OfacScraper_init. run_cases; unfold failures; simpl;
    (split; [split; intros H; try discriminate; reflexivity|]);
    (split; intros e' H; inversion H; subst; simpl; auto).
Qed.

(** X2. [DatabaseManager.__init__] returns exactly when [connect] and
    [cursor] returned.  Otherwise it raises what the failing call raised,
    and it has logged an ERROR line exactly when that is an
    [OperationalError]; a failed [connect] is not followed by [cursor]. *)
Theorem DatabaseManager_init_outcome (w : W) :
  let o := DatabaseManager_init w in
  (res o = Normal tt <-> failures (evs o) = []) /\
  (forall e, res o = Raised e ->
             (In (Connect, Some e) (ios (evs o)) \/ In (Cursor, Some e) (ios (evs o))) /\
             (In (ERROR, "Could not connect to the database: ") (logs (evs o))
              <-> e = OperationalError)) /\
  (forall e, fst (act Connect w) = Some e ->
             res o = Raised e /\ ios (evs o) = [(Connect, Some e)]).
Proof.
  unfold DatabaseManager_init. run_cases; unfold failures; simpl;
    try match goal with e0 : exn |- _ => destruct e0 end; simpl;
    (split; [split; intros H; try discriminate; reflexivity|]);
    (split; intros e' H; inversion H; subst; simpl; auto);
    (split; [auto|]); split; intros H'; try reflexivity; try discriminate;
    try (destruct H' as [H'|[]]; discriminate); auto; try contradiction.
Qed.

End Constructors.

(** ** Storage *)

Section Storage.

Context {world : World}.

(** X3. Both insert methods write all or nothing.  Started with no open
    transaction, a call leaves the database with all the rows of the call
    added when none of its database calls failed, and with no row added when
    one failed; when it returns no transaction is left open; and it raises
    only what the ROLLBACK of its handler raised. *)
Theorem inserts_are_all_or_nothing (w : W) (kept : list ResultRecord) :
  (forall rows : list ResultRecord,
      let o := insert_results_bulk rows w in
      (db_failures (evs o) = [] ->
       res o = Normal tt /\
       fold_left replay_step (evs o) (kept, []) = (kept ++ rows, [])) /\
      (db_failures (evs o) <> [] ->
       fst (fold_left replay_step (evs o) (kept, [])) = kept) /\
      (res o = Normal tt ->
       snd (fold_left replay_step (evs o) (kept, [])) = []) /\
      (forall e, res o = Raised e -> In (Rollback, Some e) (ios (evs o)))) /\
  (forall (person : Person) (count : option Z) (status : string),
      let o := insert_single_result person count status w in
      (db_failures (evs o) = [] ->
       res o = Normal tt /\
       fold_left replay_step (evs o) (kept, [])
       = (kept ++ [single_params person count status], [])) /\
      (db_failures (evs o) <> [] ->
       fst (fold_left replay_step (evs o) (kept, [])) = kept) /\
      (res o = Normal tt ->
       snd (fold_left replay_step (evs o) (kept, [])) = []) /\
      (forall e, res o = Raised e -> In (Rollback, Some e) (ios (evs o)))).
Proof.
  split.
  - intros rows. cbv zeta. unfold insert_results_bulk.
    destruct rows as [|r rows].
    + simpl. rewrite app_nil_r. unfold db_failures. simpl.
      repeat split; try reflexivity; try discriminate.
    + run_cases; unfold db_failures; simpl;
        (split; [intros H; try discriminate; split; reflexivity|]);
        (split; [intros H; try reflexivity; now elim H|]);
        (split; [intros H; try discriminate; reflexivity|]);
        intros e' H; inversion H; subst; auto.
  - intros person count status. cbv zeta. unfold insert_single_result.
    run_cases; unfold db_failures; simpl;
      (split; [intros H; try discriminate; split; reflexivity|]);
      (split; [intros H; try reflexivity; now elim H|]);
      (split; [intros H; try discriminate; reflexivity|]);
      intros e' H; inversion H; subst; auto.
Qed.

(** X9. [disconnect] closes the cursor first.  When that raises, the
    connection is not closed and the exception leaves [disconnect];
    otherwise the connection is closed next, and [disconnect] returns or
    raises as that call does. *)
Theorem disconnect_closes_cursor_first (w : W) :
  let o := disconnect w in
  (forall e, fst (act CursorClose w) = Some e ->
             res o = Raised e /\ ios (evs o) = [(CursorClose, Some e)]) /\
  (fst (act CursorClose w) = None ->
   ios (evs o)
   = [(CursorClose, None);
      (ConnClose, fst (act ConnClose (snd (act CursorClose w))))] /\
   res o = match fst (act ConnClose (snd (act CursorClose w))) with
           | None => Normal tt
           | Some e => Raised e
           end) /\
  (In (INFO, "Database connection closed.") (logs (evs o)) <-> res o = Normal tt).
Proof.
  unfold disconnect. run_cases;
    (split; [intros e' H; inversion H; subst; auto|]);
    (split; [intros H; try discriminate; auto|]);
    split; intros H; try discriminate; try contradiction; auto.
Qed.

End Storage.

(** ** The report *)

Lemma reports_written_app (a b : list Event) :
  reports_written (a ++ b) = reports_written a ++ reports_written b.
Proof. apply flat_map_app. Qed.

Lemma reports_written_none (tr : list Event) :
  Forall (fun ev => match ev with Io (WriteReport _) _ => False | _ => True end) tr ->
  reports_written tr = [].
Proof.
  induction 1 as [|ev tr H _ IH]; [reflexivity|].
  destruct ev as [m|c r|l msg]; simpl; try exact IH.
  destruct c; simpl in *; try exact IH. contradiction.
Qed.

Section Report.

Context {world : World}.

Lemma fetch_incomplete_body_normal (w : W) (rows : list ReportRow) :
  res ((io ExecuteSelectIncomplete ;;
        io FetchAll ;;
        records <- ask fetched_report_rows ;;
        log INFO "Fetched incomplete records for Excel report." ;;
        ret records) w) = Normal rows ->
  rows = fetched_report_rows
           (st ((io ExecuteSelectIncomplete ;;
                 io FetchAll ;;
                 records <- ask fetched_report_rows ;;
                 log INFO "Fetched incomplete records for Excel report." ;;
                 ret records) w)).
Proof.
  intros H.
  apply bind_io_normal in H. destruct H as [H Hst]. rewrite Hst. clear Hst.
  cbv beta in *.
  apply bind_io_normal in H. destruct H as [H Hst]. rewrite Hst. clear Hst.
  cbv beta in *.
  rewrite bind_run in *. cbn [ask res st evs] in *.
  rewrite log_bind_run in *. cbn [ret res st] in *.
  now inversion H.
Qed.

(** The three ways [fetch_incomplete_records_for_report] can end. *)
Lemma fetch_incomplete_records_cases (w : W) :
  (exists rows, res (fetch_incomplete_records_for_report w) = Normal rows) /\
  (failures (evs (fetch_incomplete_records_for_report w)) <> [] ->
   res (fetch_incomplete_records_for_report w) = Normal [] /\
   In (ERROR, "Failed to fetch incomplete records for report: ")
      (logs (evs (fetch_incomplete_records_for_report w)))) /\
  (failures (evs (fetch_incomplete_records_for_report w)) = [] ->
   res (fetch_incomplete_records_for_report w)
   = Normal (fetched_report_rows (st (fetch_incomplete_records_for_report w)))).
Proof.
  unfold fetch_incomplete_records_for_report.
  rewrite enter_bind_run. cbn [res st evs].
  rewrite res_try, st_try, evs_try, failures_call, failures_app.
  set (body := io ExecuteSelectIncomplete ;;
               io FetchAll ;;
               records <- ask fetched_report_rows ;;
               log INFO "Fetched incomplete records for Excel report." ;;
               ret records) in *.
  assert (Hclean : clean body) by (unfold body; clean_steps).
  assert (Hfaith : faithful body) by (unfold body; faithful_steps).
  destruct (res (body w)) as [rows|e] eqn:E.
  - split; [now exists rows|].
    rewrite (Hclean w rows E). cbn [app].
    split; [intros H; now elim H|].
    intros _. f_equal. now apply fetch_incomplete_body_normal.
  - rewrite log_bind_run. cbn [res st evs ret].
    split; [now exists []|].
    split.
    + intros _. split; [reflexivity|].
      change (Call Mfetch_incomplete_records_for_report :: ?l)
        with ([Call Mfetch_incomplete_records_for_report] ++ l).
      rewrite !logs_app. apply in_or_app. right. apply in_or_app. right.
      simpl. auto.
    + intros H. exfalso. apply app_eq_nil in H. destruct H as (H & _).
      exact (Hfaith w e E H).
Qed.

(** X4. [fetch_incomplete_records_for_report] never raises.  When the query
    or the fetch raised it returns the empty list and logs an ERROR line;
    otherwise it returns the rows the cursor holds.  It writes nothing and
    does not touch the browser. *)
Theorem fetch_incomplete_records_outcome (w : W) :
  let o := fetch_incomplete_records_for_report w in
  (exists rows, res o = Normal rows) /\
  (failures (evs o) <> [] ->
   res o = Normal [] /\
   In (ERROR, "Failed to fetch incomplete records for report: ") (logs (evs o))) /\
  (failures (evs o) = [] -> res o = Normal (fetched_report_rows (st o))) /\
  writes (evs o) = [] /\
  browser_ios (evs o) = [].
Proof.
  cbv zeta.
  assert (Hev : emits report_ev fetch_incomplete_records_for_report).
  { unfold fetch_incomplete_records_for_report. emits_steps; simpl; auto. }
  destruct (report_ev_trace _ (Hev w)) as (Hw & _ & _ & _ & Hb).
  destruct (fetch_incomplete_records_cases w) as (H1 & H2 & H3).
  repeat (split; [assumption|]). assumption.
Qed.

(** What [create_incomplete_records_report] hands to the writer. *)
Lemma create_incomplete_records_report_run (records : list ReportRow) (w : W) :
  res (create_incomplete_records_report records w) = Normal tt /\
  reports_written (evs (create_incomplete_records_report records w))
  = match records with [] => [] | _ => [records] end.
Proof.
  unfold create_incomplete_records_report. destruct records as [|r rows].
  - split; reflexivity.
  - run_cases; split; reflexivity.
Qed.

(** X5. [create_incomplete_records_report] never raises.  Without records
    it calls nothing and leaves the world as it is; with records it hands
    exactly those records to the writer, once, and a failure of the writer
    only leaves an ERROR line. *)
Theorem report_written_only_for_records (records : list ReportRow) (w : W) :
  let o := create_incomplete_records_report records w in
  res o = Normal tt /\
  reports_written (evs o) = match records with [] => [] | _ => [records] end /\
  (records = [] -> ios (evs o) = [] /\ st o = w) /\
  (failures (evs o) <> [] ->
   In (ERROR, "Failed to create the Excel report: ") (logs (evs o))).
Proof.
  unfold create_incomplete_records_report. destruct records as [|r rows].
  - unfold failures. simpl. repeat split. intros H. now elim H.
  - run_cases; unfold failures; simpl;
      (split; [reflexivity|]); (split; [reflexivity|]);
      (split; [discriminate|]); intros H; try (now elim H); auto.
Qed.

(** X6. [generate_final_reports] always returns.  It writes a report
    exactly when the fetch of the incomplete records gave rows, and then
    with those rows; a fetch that failed gives no report, like a results
    table without incomplete records. *)
Theorem final_report_follows_fetch (w : W) :
  let o := generate_final_reports w in
  let f := fetch_incomplete_records_for_report w in
  res o = Normal tt /\
  (exists rows,
      res f = Normal rows /\
      reports_written (evs o) = match rows with [] => [] | _ => [rows] end) /\
  (failures (evs f) <> [] -> reports_written (evs o) = []).
Proof.
  cbv zeta. split; [apply safe_unit, generate_final_reports_safe|].
  assert (Hf : reports_written (evs (fetch_incomplete_records_for_report w)) = []).
  { apply reports_written_none.
    revert w. change (emits (fun ev => match ev with
                                       | Io (WriteReport _) _ => False
                                       | _ => True
                                       end) fetch_incomplete_records_for_report).
    unfold fetch_incomplete_records_for_report. emits_steps; exact I. }
  destruct (fetch_incomplete_records_cases w) as ((rows & Er) & Hfail & _).
  destruct (create_incomplete_records_report_run rows
              (st (fetch_incomplete_records_for_report w))) as (Hres & Hrep).
  assert (E : reports_written (evs (generate_final_reports w))
              = match rows with [] => [] | _ => [rows] end).
  { unfold generate_final_reports. rewrite enter_bind_run, log_bind_run.
    cbn [res st evs].
    change (Call Mgenerate_final_reports :: Log INFO "Starting final report generation..." :: ?l)
      with ([Call Mgenerate_final_reports;
             Log INFO "Starting final report generation..."] ++ l).
    rewrite reports_written_app, evs_bind, reports_written_app, Hf, Er.
    rewrite evs_bind, reports_written_app, Hrep, Hres.
    cbn [evs log emit reports_written flat_map app]. now rewrite app_nil_r. }
  rewrite E. split.
  - exists rows. split; [exact Er | reflexivity].
  - intros H. destruct (Hfail H) as (E0 & _). rewrite Er in E0.
    now inversion E0.
Qed.

End Report.

(** ** The order of the calls of a search *)

Section SearchScript.

Context {world : World}.

(** X10. [search_person] makes its calls to the browser in one fixed order:
    open the page, wait for and fill the last name, fill the address,
    select the country, click the search button, wait for the results
    label, read it.  Either all of them returned, or the calls stop at the
    first one that raised and the method returns -1: no call follows a
    failed one. *)
Theorem search_person_follows_script (name : string)
    (address country : option string) (w : W) :
  let o := search_person name address country w in
  let script := search_script name address country in
  (ios (evs o) = returned script /\ failures (evs o) = []) \/
  (exists pre c post e,
      script = pre ++ c :: post /\
      ios (evs o) = returned pre ++ [(c, Some e)] /\
      res o = Normal (-1)).
Proof.
  cbv zeta.
  assert (Hios : ios (evs (search_person name address country w))
                 = ios (evs (search_attempt name address country w))).
  { unfold search_person. rewrite enter_bind_run. cbn [evs].
    rewrite evs_try.
    change (Call (Msearch_person name address country) :: ?l)
      with ([Call (Msearch_person name address country)] ++ l).
    rewrite !ios_app.
    destruct (res (search_attempt name address country w)) as [rc|e];
      [now rewrite app_nil_r|].
    destruct (search_handler_run e (st (search_attempt name address country w)))
      as (msg & Eh).
    rewrite Eh. cbn [evs ios flat_map app]. now rewrite app_nil_r. }
  assert (Hres : forall e, res (search_attempt name address country w) = Raised e ->
                           res (search_person name address country w) = Normal (-1)).
  { intros e He. unfold search_person. rewrite enter_bind_run. cbn [res].
    rewrite res_try, He.
    destruct (search_handler_run e (st (search_attempt name address country w)))
      as (msg & Eh).
    now rewrite Eh. }
  unfold failures. rewrite Hios.
  destruct (search_attempt_plays name address country w)
    as [Hi|(pre & c & post & e & Hs & Hi & Hr)].
  - left. rewrite Hi. split; [reflexivity|]. reflexivity.
  - right. exists pre, c, post, e. split; [exact Hs|]. split; [exact Hi|].
    exact (Hres e Hr).
Qed.

End SearchScript.

(** ** Evidence and searches of the loop *)

Lemma subseq_forall {A} (P : A -> Prop) (l1 l2 : list A) :
  subseq l1 l2 -> Forall P l2 -> Forall P l1.
Proof.
  induction 1 as [|x l1 l2 _ IH|x l1 l2 _ IH]; intros H.
  - constructor.
  - inversion H; subst. auto.
  - inversion H; subst. constructor; auto.
Qed.

Lemma evidence_due_outcome (p : Person) (rc : Z) :
  evidence_due (outcome_record p rc) = if rc >? 0 then [idPersona p] else [].
Proof.
  unfold evidence_due, outcome_record.
  destruct (rc >? -1) eqn:E; cbn [single_params r_cantidadDeResultados r_idPersona].
  - reflexivity.
  - destruct (rc >? 0) eqn:E'; [lia | reflexivity].
Qed.

Lemma no_search_call (tr : list Event) (n : string) (a c : option string) :
  count_calls is_search tr = 0%nat -> ~ In (Msearch_person n a c) (calls tr).
Proof.
  unfold count_calls. intros H Hin.
  assert (Hf : In (Msearch_person n a c) (filter is_search (calls tr)))
    by (apply filter_In; split; [exact Hin | reflexivity]).
  destruct (filter is_search (calls tr)); [contradiction | discriminate].
Qed.

Section LoopEvidence.

Context {world : World}.

(** X14. In the search loop [take_screenshot] is called only for a record
    that was written with a positive match count, in the order of the
    records and at most once per record; when the loop runs to its end, it
    has been called for every such record.  A call is not a saved file:
    [take_screenshot] swallows a failed save. *)
Theorem evidence_follows_positive_counts (search_queue : list Person) (w : W) :
  let o := for_each search_queue search_iteration w in
  subseq (screenshot_calls (evs o))
         (flat_map evidence_due (List.concat (writes (evs o)))) /\
  (res o = Normal tt ->
   screenshot_calls (evs o) = flat_map evidence_due (List.concat (writes (evs o)))).
Proof.
  cbv zeta. revert w. induction search_queue as [|p q IH]; intros w.
  - split; [constructor | reflexivity].
  - cbn [for_each]. rewrite res_bind, evs_bind.
    rewrite screenshot_calls_app, writes_app, concat_app, flat_map_app.
    destruct (search_iteration_trace p w)
      as (rc & _ & _ & Hcalls & Hwrites & _).
    cbv zeta in Hcalls, Hwrites.
    rewrite Hwrites. unfold screenshot_calls at 1 3. rewrite Hcalls.
    cbn [List.concat flat_map app]. rewrite app_nil_r, evidence_due_outcome.
    destruct (res (search_iteration p w)) as [a|e].
    + destruct (IH (st (search_iteration p w))) as (IH1 & IH2).
      assert (E : flat_map (fun m => match m with
                                     | Mtake_screenshot id => [id]
                                     | _ => []
                                     end)
                    ((if rc >? 0 then [Mtake_screenshot (idPersona p)] else [])
                     ++ [Mreset_search_form])
                  = if rc >? 0 then [idPersona p] else [])
        by (now destruct (rc >? 0)).
      rewrite E. split.
      * apply subseq_app; [apply subseq_refl | exact IH1].
      * intros H. now rewrite (IH2 H).
    + cbn [flat_map screenshot_calls calls app]. split; [|discriminate].
      apply subseq_nil_l.
Qed.

(** Every search of the loop is the search of a person of the queue. *)
Lemma search_loop_searches (q : list Person) (w : W) (n : string)
    (a c : option string) :
  In (Msearch_person n a c) (calls (evs (for_each q search_iteration w))) ->
  exists p, In p q /\ search_key p = (n, a, c).
Proof.
  revert w. induction q as [|p q IH]; intros w; [intros []|].
  cbn [for_each]. rewrite evs_bind, calls_app. intros H.
  apply in_app_or in H. destruct H as [H|H].
  - exists p. split; [now left|].
    destruct (search_iteration_trace p w) as (rc & _ & _ & Hcalls & _).
    cbv zeta in Hcalls. rewrite Hcalls in H.
    destruct H as [H|[H|H]]; [now inversion H | discriminate |].
    destruct (res (search_iteration p w)); [|contradiction].
    destruct (rc >? 0); simpl in H; intuition discriminate.
  - destruct (res (search_iteration p w)); [|contradiction].
    destruct (IH _ H) as (p' & Hp & Hk). exists p'. split; [now right | exact Hk].
Qed.

End LoopEvidence.

(** ** Properties of lines 134-137 *)

Section ScreenExtras.

Context {world : World}.

(** The trace of lines 134-137: classification, pre-checks, and when
    these returned the search phase, and when that returned the report. *)
Lemma screen_evs (all_persons : list Person) (w : W) :
  let opre := process_pre_checks (filter goes_incomplete all_persons)
                (filter goes_no_master all_persons) w in
  let orun := run_ofac_searches (filter goes_search_queue all_persons) (st opre) in
  exists tail,
    evs (screen all_persons w)
    = [Call Mcategorize_persons; Log INFO "Categorization complete: "]
      ++ evs opre ++ tail /\
    ((tail = [] /\ exists e, res opre = Raised e) \/
     (res opre = Normal tt /\
      (tail = evs orun \/
       (res orun = Normal tt /\
        tail = evs orun ++ evs (generate_final_reports (st orun)))))).
Proof.
  cbv zeta. rewrite screen_run.
  destruct (res (process_pre_checks (filter goes_incomplete all_persons)
                   (filter goes_no_master all_persons) w)) as [[]|e].
  - destruct (res (run_ofac_searches (filter goes_search_queue all_persons)
                     (st (process_pre_checks (filter goes_incomplete all_persons)
                            (filter goes_no_master all_persons) w)))) as [[]|e].
    + eexists. split; [reflexivity|]. right. split; [reflexivity|]. right.
      split; reflexivity.
    + eexists. split; [reflexivity|]. right. split; [reflexivity|]. now left.
  - exists []. cbn [evs]. rewrite app_nil_r. split; [reflexivity|]. left.
    split; [reflexivity|]. now exists e.
Qed.

Lemma OfacScraper_init_first_call (w : W) :
  exists r rest, ios (evs (OfacScraper_init w)) = (ChromeDriverInstall, r) :: rest.
Proof. unfold OfacScraper_init. run_cases; eexists; eexists; reflexivity. Qed.

(** X11. A run touches the browser only for a search queue that is not
    empty: when no person is searchable no call goes to the browser, and
    when one is and the pre-checks returned, the driver installation is
    attempted. *)
Theorem browser_only_for_searchable_persons (all_persons : list Person) (w : W) :
  let opre := process_pre_checks (filter goes_incomplete all_persons)
                (filter goes_no_master all_persons) w in
  (filter goes_search_queue all_persons = [] ->
   browser_ios (evs (screen all_persons w)) = []) /\
  (filter goes_search_queue all_persons <> [] ->
   res opre = Normal tt ->
   exists r, In (ChromeDriverInstall, r) (browser_ios (evs (screen all_persons w)))).
Proof.
  cbv zeta.
  destruct (screen_evs all_persons w) as (tail & E & Htail). cbv zeta in Htail.
  destruct (process_pre_checks_run (filter goes_incomplete all_persons)
              (filter goes_no_master all_persons) w) as (_ & _ & _ & Bpre & _).
  cbv zeta in Bpre. rewrite E, !browser_ios_app, Bpre.
  cbn [browser_ios ios flat_map filter app].
  set (opre := process_pre_checks (filter goes_incomplete all_persons)
                 (filter goes_no_master all_persons) w) in *.
  set (sq := filter goes_search_queue all_persons) in *.
  split.
  - intros Hsq.
    assert (Hrun : ios (evs (run_ofac_searches sq (st opre))) = []).
    { rewrite Hsq. now rewrite run_ofac_searches_empty. }
    assert (Brun : browser_ios (evs (run_ofac_searches sq (st opre))) = [])
      by (unfold browser_ios; now rewrite Hrun).
    destruct Htail as [(-> & _)|(_ & [->|(_ & ->)])]; [reflexivity | exact Brun |].
    rewrite browser_ios_app, Brun.
    destruct (generate_final_reports_run (st (run_ofac_searches sq (st opre))))
      as (_ & _ & _ & _ & _ & Brep & _).
    exact Brep.
  - intros Hsq Hpre.
    assert (Hin : exists r, In (ChromeDriverInstall, r)
                               (browser_ios (evs (run_ofac_searches sq (st opre))))).
    { rewrite (run_ofac_searches_nonempty sq _ Hsq), search_phase_run.
      destruct (OfacScraper_init_first_call (st opre)) as (r & rest & Ei).
      exists r.
      assert (Hi : In (ChromeDriverInstall, r)
                      (browser_ios (evs (OfacScraper_init (st opre))))).
      { unfold browser_ios. rewrite Ei. simpl. now left. }
      destruct (res (OfacScraper_init (st opre))) as [[]|e];
        [destruct (res (for_each sq search_iteration (st (OfacScraper_init (st opre)))))
           as [[]|e]|];
        cbn [evs];
        change (Call Mrun_ofac_searches :: ?l) with ([Call Mrun_ofac_searches] ++ l);
        rewrite !browser_ios_app; apply in_or_app; right; apply in_or_app; now left. }
    destruct Hin as (r & Hin). exists r.
    destruct Htail as [(_ & e & He)|(_ & [->|(_ & ->)])].
    + rewrite Hpre in He. discriminate.
    + exact Hin.
    + rewrite browser_ios_app. apply in_or_app. now left.
Qed.

(** X12. What the pre-checks stored stays stored: when no database call
    of the pre-checks failed, the rows the database keeps at the end of
    lines 134-137 begin with the pre-check records, whatever happens in
    the search phase and the report. *)
Theorem pre_check_records_survive (all_persons : list Person) (w : W) :
  let incomplete := filter goes_incomplete all_persons in
  let no_master := filter goes_no_master all_persons in
  db_failures (evs (process_pre_checks incomplete no_master w)) = [] ->
  exists more,
    stored (evs (screen all_persons w))
    = map incomplete_record incomplete ++ map no_master_record no_master ++ more.
Proof.
  cbv zeta. intros Hdb.
  destruct (screen_evs all_persons w) as (tail & E & _).
  destruct (process_pre_checks_run (filter goes_incomplete all_persons)
              (filter goes_no_master all_persons) w) as (_ & _ & _ & _ & P5).
  cbv zeta in P5. destruct (P5 [] Hdb) as (_ & Hk).
  rewrite pre_check_bulk_data_map in Hk. cbn [app] in Hk.
  rewrite E, app_assoc.
  destruct (stored_append_only
              ([Call Mcategorize_persons; Log INFO "Categorization complete: "]
               ++ evs (process_pre_checks (filter goes_incomplete all_persons)
                         (filter goes_no_master all_persons) w)) tail)
    as (more & Hm).
  assert (Hs : stored ([Call Mcategorize_persons; Log INFO "Categorization complete: "]
                       ++ evs (process_pre_checks (filter goes_incomplete all_persons)
                                 (filter goes_no_master all_persons) w))
               = map incomplete_record (filter goes_incomplete all_persons)
                 ++ map no_master_record (filter goes_no_master all_persons)).
  { unfold stored, replay. rewrite fold_left_app. cbn [fold_left replay_step].
    now rewrite Hk. }
  exists more. rewrite Hm, Hs. now rewrite <- app_assoc.
Qed.

End ScreenExtras.

Section ScreenRecords.

Context {world : World}.

(** The records lines 134-137 send to the database. *)
Lemma screen_writes (all_persons : list Person) (w : W) :
  exists rcs : list Z,
    Forall (fun rc => rc = -1 \/ 0 <= rc) rcs /\
    List.concat (writes (evs (screen all_persons w)))
    = map incomplete_record (filter goes_incomplete all_persons)
      ++ map no_master_record (filter goes_no_master all_persons)
      ++ map (fun x => outcome_record (fst x) (snd x))
             (combine (filter goes_search_queue all_persons) rcs).
Proof.
  destruct (screen_evs all_persons w) as (tail & E & Htail). cbv zeta in Htail.
  destruct (process_pre_checks_run (filter goes_incomplete all_persons)
              (filter goes_no_master all_persons) w) as (P1 & _).
  cbv zeta in P1. rewrite pre_check_bulk_data_map in P1.
  rewrite E, !writes_app, !concat_app, P1.
  cbn [writes flat_map List.concat app].
  set (opre := process_pre_checks (filter goes_incomplete all_persons)
                 (filter goes_no_master all_persons) w) in *.
  set (sq := filter goes_search_queue all_persons) in *.
  destruct (run_ofac_searches_records sq (st opre)) as (rcs & _ & Hall & Hw & _).
  cbv zeta in Hw.
  destruct Htail as [(-> & _)|(_ & [->|(_ & ->)])].
  - exists []. split; [constructor|]. rewrite combine_nil. simpl.
    now rewrite !app_nil_r.
  - exists rcs. split; [exact Hall|]. now rewrite Hw, <- app_assoc.
  - exists rcs. split; [exact Hall|].
    destruct (generate_final_reports_run (st (run_ofac_searches sq (st opre))))
      as (_ & G2 & _).
    cbv zeta in G2.
    rewrite writes_app, concat_app, G2, Hw. cbn [List.concat].
    now rewrite app_nil_r, <- app_assoc.
Qed.

Lemma outcome_record_well_formed (p : Person) (rc : Z) :
  rc = -1 \/ 0 <= rc -> well_formed_record (outcome_record p rc).
Proof.
  intros H. unfold well_formed_record, outcome_record.
  destruct (rc >? -1) eqn:E; cbn [single_params r_estadoTransaccion
                                   r_cantidadDeResultados r_pais].
  - left. split; [reflexivity|]. exists rc. split; [reflexivity | lia].
  - right. split; [reflexivity|]. now left.
Qed.

(** X13. Every record that lines 134-137 send to the database, and so
    every record the database keeps of them, has one of the four statuses
    of the settings; it has a match count, not negative, exactly when its
    status is OK, and no country when its status is the no-master one. *)
Theorem written_records_are_well_formed (all_persons : list Person) (w : W) :
  Forall well_formed_record (List.concat (writes (evs (screen all_persons w)))) /\
  Forall well_formed_record (stored (evs (screen all_persons w))).
Proof.
  assert (H : Forall well_formed_record
                (List.concat (writes (evs (screen all_persons w))))).
  { destruct (screen_writes all_persons w) as (rcs & Hall & ->).
    apply Forall_app. split; [|apply Forall_app; split].
    - apply Forall_forall. intros r Hr. apply in_map_iff in Hr.
      destruct Hr as (p & <- & _). right. split; [reflexivity|].
      right. now left.
    - apply Forall_forall. intros r Hr. apply in_map_iff in Hr.
      destruct Hr as (p & <- & _). right. split; [reflexivity|].
      right. right. split; reflexivity.
    - revert rcs Hall.
      induction (filter goes_search_queue all_persons) as [|p q IH];
        intros rcs Hall; [constructor|].
      destruct Hall as [|rc rcs Hrc Hall]; [constructor|].
      cbn [combine map fst snd]. constructor; [|now apply IH].
      now apply outcome_record_well_formed. }
  split; [exact H|].
  eapply subseq_forall; [apply stored_subseq_writes | exact H].
Qed.

(** Every search of the search phase is the search of a person of the
    queue. *)
Lemma run_ofac_searches_searches (q : list Person) (w : W) (n : string)
    (a c : option string) :
  In (Msearch_person n a c) (calls (evs (run_ofac_searches q w))) ->
  exists p, In p q /\ search_key p = (n, a, c).
Proof.
  destruct q as [|p0 q0] eqn:Eq.
  { rewrite run_ofac_searches_empty. simpl. intuition discriminate. }
  rewrite <- Eq. assert (Hq : q <> []) by (rewrite Eq; discriminate).
  clear Eq p0 q0.
  rewrite (run_ofac_searches_nonempty q w Hq), search_phase_run.
  destruct (OfacScraper_init_run w) as (tri & Ei & Hi & _ & _ & Si).
  pose proof (no_search_call _ n a c Si) as Hni.
  destruct (res (OfacScraper_init w)) as [[]|e].
  - destruct (res (for_each q search_iteration (st (OfacScraper_init w))))
      as [[]|e]; cbn [evs];
      change (Call Mrun_ofac_searches :: ?l) with ([Call Mrun_ofac_searches] ++ l);
      rewrite !calls_app; intros H;
      apply in_app_or in H; destruct H as [H|H];
      try (simpl in H; intuition discriminate);
      apply in_app_or in H; destruct H as [H|H]; try contradiction.
    + apply in_app_or in H. destruct H as [H|H];
        [now apply search_loop_searches in H|].
      destruct (close_run (st (for_each q search_iteration (st (OfacScraper_init w)))))
        as (Cc & _).
      rewrite Cc in H. simpl in H. intuition discriminate.
    + now apply search_loop_searches in H.
  - cbn [evs].
    change (Call Mrun_ofac_searches :: ?l) with ([Call Mrun_ofac_searches] ++ l).
    rewrite !calls_app. intros H.
    apply in_app_or in H. destruct H as [H|H];
      [simpl in H; intuition discriminate|].
    apply in_app_or in H. destruct H as [H|H]; [contradiction|].
    simpl in H. contradiction.
Qed.

(** X15. A run searches only persons with complete data: every call of
    [search_person] in lines 134-137 has the name, address and country of
    a person of the input who has a master record and whose address and
    country are both present and not empty. *)
Theorem searches_only_complete_persons (all_persons : list Person) (w : W)
    (n : string) (a c : option string) :
  In (Msearch_person n a c) (calls (evs (screen all_persons w))) ->
  exists p,
    In p all_persons /\
    search_key p = (n, a, c) /\
    idMaestra p <> None /\
    truthy a = true /\
    truthy c = true.
Proof.
  destruct (screen_evs all_persons w) as (tail & E & Htail). cbv zeta in Htail.
  destruct (process_pre_checks_run (filter goes_incomplete all_persons)
              (filter goes_no_master all_persons) w) as (_ & Spre & _).
  cbv zeta in Spre. pose proof (no_search_call _ n a c Spre) as Hnpre.
  rewrite E, !calls_app. intros H.
  apply in_app_or in H. destruct H as [H|H];
    [simpl in H; intuition discriminate|].
  apply in_app_or in H. destruct H as [H|H]; [contradiction|].
  set (opre := process_pre_checks (filter goes_incomplete all_persons)
                 (filter goes_no_master all_persons) w) in *.
  assert (Hrun : In (Msearch_person n a c)
                    (calls (evs (run_ofac_searches
                                   (filter goes_search_queue all_persons) (st opre))))).
  { destruct Htail as [(-> & _)|(_ & [->|(_ & ->)])];
      [contradiction | exact H |].
    rewrite calls_app in H. apply in_app_or in H. destruct H as [H|H]; [exact H|].
    destruct (generate_final_reports_run
                (st (run_ofac_searches (filter goes_search_queue all_persons)
                       (st opre)))) as (_ & _ & _ & Srep & _).
    cbv zeta in Srep. now apply no_search_call in H. }
  apply run_ofac_searches_searches in Hrun. destruct Hrun as (p & Hp & Hk).
  apply filter_In in Hp. destruct Hp as (Hin & Hgo).
  exists p. split; [exact Hin|]. split; [exact Hk|].
  unfold search_key in Hk. inversion Hk; subst.
  unfold goes_search_queue, goes_no_master in Hgo.
  destruct (idMaestra p); [|discriminate].
  destruct (truthy (direccion p)); destruct (truthy (pais p));
    try discriminate.
  repeat split. discriminate.
Qed.

End ScreenRecords.

(** ** The run and the connection *)

(** Follows a computation through its branches down to its leaves. *)
Ltac emits_all :=
  repeat first
    [ apply emits_bind; [|intro]
    | apply emits_try; [|intro]
    | apply emits_ret
    | apply emits_raise
    | apply emits_ask
    | apply emits_log
    | apply emits_enter
    | apply emits_io; intro
    | apply emits_for_each; intro
    | match goal with
      | |- emits _ (match ?x with _ => _ end) => destruct x
      | |- emits _ (if ?b then _ else _) => destruct b
      end ].

Lemma count_calls_none (f : Method -> bool) (tr : list Event) :
  Forall (fun ev => match ev with Call m => f m = false | _ => True end) tr ->
  count_calls f tr = 0%nat.
Proof.
  unfold count_calls. induction 1 as [|ev tr H _ IH]; [reflexivity|].
  destruct ev as [m|c r|l msg]; simpl in *; try exact IH.
  now rewrite H.
Qed.

Section MainExtras.

Context {world : World}.

Lemma main_connected_no_disconnect :
  emits (fun ev => match ev with Call m => is_disconnect m = false | _ => True end)
        main_connected.
Proof.
  unfold main_connected, screen, categorize_persons, process_pre_checks,
    run_ofac_searches, generate_final_reports.
  emits_all; try exact I; try reflexivity;
    try (apply emits_parse_results; intros; exact I);
    unfold search_handler;
    match goal with e : exn |- _ => destruct e end;
    emits_all; exact I.
Qed.

(** [main] when the constructor of the database manager raised. *)
Lemma main_not_connected_run (w : W) (e : exn) :
  res (DatabaseManager_init w) = Raised e ->
  main w
  = mkOut (Normal tt) (st (DatabaseManager_init w))
          ([Log INFO "--- OFAC Background Check Automation Started ---"]
           ++ evs (DatabaseManager_init w)
           ++ [Log CRITICAL "A critical error occurred in the main process: ";
               Log INFO "--- OFAC Background Check Automation Finished ---"]).
Proof.
  intros H. unfold main. rewrite log_bind_run.
  rewrite bind_run, try_run, (bind_run DatabaseManager_init), H.
  cbn [res st evs]. rewrite log_bind_run. cbn [res st evs ret].
  rewrite bind_run. cbn [ret res st evs log emit app].
  rewrite ?app_nil_r, <- ?app_assoc. reflexivity.
Qed.

(** X7. When the database cannot be reached, [main] gives up at once and
    returns: it logs a CRITICAL line, it does not fetch, classify, search or
    report, it does not call [disconnect], and its only calls to the
    outside are those of the failed constructor. *)
Theorem main_without_connection (w : W) (e : exn) :
  res (DatabaseManager_init w) = Raised e ->
  res (main w) = Normal tt /\
  calls (evs (main w)) = [MDatabaseManager_init] /\
  ios (evs (main w)) = ios (evs (DatabaseManager_init w)) /\
  In (CRITICAL, "A critical error occurred in the main process: ")
     (logs (evs (main w))).
Proof.
  intros H. rewrite (main_not_connected_run w e H). cbn [res evs].
  destruct (DatabaseManager_init_evs w) as (tri & Ei & Hi).
  destruct (quiet_method_trace MDatabaseManager_init tri I Hi) as (Ci & _).
  rewrite <- Ei in Ci.
  rewrite !calls_app, !ios_app, !logs_app, Ci.
  split; [reflexivity|]. split; [reflexivity|].
  split; [cbn [ios flat_map app]; now rewrite app_nil_r|].
  apply in_or_app. right. apply in_or_app. right. simpl. auto.
Qed.

(** X8. Once the connection is up, [main] calls [disconnect] exactly once,
    whatever happens before: an exception of the fetch, the pre-checks, the
    search phase or the report is caught and logged as CRITICAL.  [main]
    ends as [disconnect] ends, so the only exception that can leave it is
    one raised while closing the cursor or the connection. *)
Theorem main_disconnects_once (w : W) :
  res (DatabaseManager_init w) = Normal tt ->
  let body := try_except main_connected
                (fun e => log CRITICAL "A critical error occurred in the main process: ")
                (st (DatabaseManager_init w)) in
  count_calls is_disconnect (evs (main w)) = 1%nat /\
  res body = Normal tt /\
  res (main w) = res (disconnect (st body)) /\
  (forall e, res (main_connected (st (DatabaseManager_init w))) = Raised e ->
             In (CRITICAL, "A critical error occurred in the main process: ")
                (logs (evs (main w)))).
Proof.
  intros Hinit. cbv zeta.
  destruct (main_evs_connected w Hinit) as (tail & E & Htail).
  set (body := try_except main_connected
                 (fun e => log CRITICAL "A critical error occurred in the main process: ")
                 (st (DatabaseManager_init w))) in *.
  assert (Hbody : res body = Normal tt).
  { unfold body. rewrite res_try.
    destruct (res (main_connected (st (DatabaseManager_init w)))) as [[]|e];
      reflexivity. }
  assert (Hres : res (main w) = res (disconnect (st body))).
  { unfold main. rewrite log_bind_run. cbn [res].
    rewrite res_bind, res_try, st_try, (res_bind DatabaseManager_init),
      (st_bind DatabaseManager_init), Hinit.
    cbn [res st ret]. rewrite res_bind, res_bind. fold body. rewrite Hbody.
    destruct (res (disconnect (st body))) as [[]|e]; reflexivity. }
  split; [|split; [exact Hbody | split; [exact Hres|]]].
  - rewrite E, !count_calls_app.
    destruct (DatabaseManager_init_evs w) as (tri & Ei & Hi).
    destruct (disconnect_evs (st body)) as (trd & Ed & Hd).
    assert (C0 : forall tr, Forall (fun ev => report_ev ev /\ not_call ev) tr ->
                            count_calls is_disconnect tr = 0%nat).
    { intros tr H. apply count_calls_none.
      eapply Forall_impl; [|exact H]. intros [m|c r|l msg] [_ Hn]; simpl in *;
        [contradiction | exact I | exact I]. }
    assert (Cb : count_calls is_disconnect (evs body) = 0%nat).
    { unfold body. rewrite evs_try, count_calls_app.
      rewrite (count_calls_none _ _ (main_connected_no_disconnect _)).
      destruct (res (main_connected (st (DatabaseManager_init w)))); reflexivity. }
    assert (Ct : count_calls is_disconnect tail = 0%nat).
    { apply count_calls_none. eapply Forall_impl; [|exact Htail].
      now intros ev (l & msg & ->). }
    rewrite Ei, Ed, Cb, Ct.
    unfold count_calls. cbn [calls flat_map app filter is_disconnect].
    change (flat_map _ tri) with (calls tri).
    change (flat_map _ trd) with (calls trd).
    fold (count_calls is_disconnect tri). fold (count_calls is_disconnect trd).
    cbn [List.length]. fold (count_calls is_disconnect trd).
    now rewrite (C0 tri Hi), (C0 trd Hd).
  - intros e He. rewrite E, !logs_app.
    apply in_or_app. right. apply in_or_app. right. apply in_or_app. left.
    unfold body. rewrite evs_try, He, logs_app. apply in_or_app. right.
    simpl. auto.
Qed.

End MainExtras.

(** ** One session, no open transaction *)

Section Session.

Context {world : World}.

Lemma search_loop_no_init (q : list Person) :
  emits (fun ev => match ev with Call m => is_scraper_init m = false | _ => True end)
        (for_each q search_iteration).
Proof.
  apply emits_for_each. intros p.
  unfold search_iteration.
  emits_all; try exact I; try reflexivity;
    try (apply emits_parse_results; intros; exact I);
    unfold search_handler;
    match goal with e : exn |- _ => destruct e end;
    emits_all; exact I.
Qed.

(** X16. The search phase uses one browser session: with an empty queue
    the scraper is never constructed, otherwise it is constructed exactly
    once and closed at most once; it is closed only if
    its constructor returned. *)
Theorem one_session_per_search_phase (q : list Person) (w : W) :
  let o := run_ofac_searches q w in
  count_calls is_scraper_init (evs o)
  = match q with [] => 0%nat | _ => 1%nat end /\
  (count_calls is_close (evs o) <= 1)%nat /\
  (count_calls is_close (evs o) = 1%nat ->
   q <> [] /\ res (OfacScraper_init w) = Normal tt).
Proof.
  cbv zeta. destruct q as [|p0 q0] eqn:Eq.
  { rewrite run_ofac_searches_empty. unfold count_calls. simpl.
    repeat split; try lia; try discriminate. }
  rewrite <- Eq. assert (Hq : q <> []) by (rewrite Eq; discriminate).
  clear Eq p0 q0.
  rewrite (run_ofac_searches_nonempty q w Hq), search_phase_run.
  destruct (OfacScraper_init_run w) as (tri & Ei & Hi & _ & Ci & _).
  assert (Ii : count_calls is_scraper_init (evs (OfacScraper_init w)) = 1%nat).
  { rewrite Ei. unfold count_calls. cbn [calls flat_map app filter is_scraper_init].
    change (flat_map _ tri) with (calls tri).
    rewrite calls_not_call; [reflexivity|].
    eapply Forall_impl; [apply browser_ev_not_call | exact Hi]. }
  destruct (search_loop_records q (st (OfacScraper_init w)))
    as (rcs & _ & _ & _ & _ & _ & Cl).
  cbv zeta in Cl.
  pose proof (count_calls_none _ _ (search_loop_no_init q (st (OfacScraper_init w))))
    as Il.
  destruct (res (OfacScraper_init w)) as [[]|e].
  - destruct (res (for_each q search_iteration (st (OfacScraper_init w))))
      as [[]|e]; cbn [evs];
      change (Call Mrun_ofac_searches :: ?l) with ([Call Mrun_ofac_searches] ++ l);
      rewrite !count_calls_app, Ii, Il, Ci, Cl.
    + destruct (close_run (st (for_each q search_iteration (st (OfacScraper_init w)))))
        as (Cc & _).
      unfold count_calls at 2 3 4 5 6. rewrite Cc. simpl.
      repeat split; try lia; try assumption.
    + unfold count_calls. simpl. repeat split; try lia; try discriminate.
  - cbn [evs].
    change (Call Mrun_ofac_searches :: ?l) with ([Call Mrun_ofac_searches] ++ l).
    rewrite !count_calls_app, Ii, Ci. unfold count_calls. simpl.
    repeat split; try lia; try discriminate.
Qed.

(** A loop that returns leaves no inserted row pending. *)
Lemma search_loop_closes_transactions (q : list Person) (w : W)
    (kept : list ResultRecord) :
  res (for_each q search_iteration w) = Normal tt ->
  snd (fold_left replay_step (evs (for_each q search_iteration w)) (kept, [])) = [].
Proof.
  revert w kept. induction q as [|p q IH]; intros w kept; [reflexivity|].
  cbn [for_each]. rewrite res_bind, evs_bind, fold_left_app.
  destruct (search_iteration_trace p w) as (rc & _ & _ & _ & _ & _ & Hk & _).
  cbv zeta in Hk.
  destruct (res (search_iteration p w)) as [[]|e]; [|discriminate].
  intros H. destruct (Hk kept eq_refl) as [E|E]; rewrite E; now apply IH.
Qed.

(** X17. When lines 134-137 return, no inserted row is left pending: the
    last INSERT that returned is followed by a COMMIT or a ROLLBACK that
    returned.  This is about the rows the run inserts; the SELECT
    statements of the run are outside it. *)
Theorem returned_run_leaves_no_pending_insert (all_persons : list Person) (w : W) :
  res (screen all_persons w) = Normal tt ->
  snd (replay (evs (screen all_persons w))) = [].
Proof.
  rewrite screen_run.
  set (opre := process_pre_checks (filter goes_incomplete all_persons)
                 (filter goes_no_master all_persons) w).
  set (sq := filter goes_search_queue all_persons).
  assert (Hpre : res opre = Normal tt ->
                 snd (fold_left replay_step (evs opre) ([], [])) = []).
  { unfold opre, process_pre_checks. rewrite enter_bind_run.
    destruct (pre_check_bulk_data (filter goes_incomplete all_persons)
                (filter goes_no_master all_persons)) as [|r rows];
      [reflexivity|].
    rewrite log_bind_run. cbn [res evs fold_left replay_step].
    unfold insert_results_bulk. run_cases; intros H; try discriminate; reflexivity. }
  destruct (res opre) as [[]|e]; [|discriminate].
  specialize (Hpre eq_refl).
  assert (Hrun : res (run_ofac_searches sq (st opre)) = Normal tt ->
                 forall kept,
                   snd (fold_left replay_step (evs (run_ofac_searches sq (st opre)))
                          (kept, [])) = []).
  { destruct sq as [|p0 q0] eqn:Eq.
    { intros _ kept. now rewrite run_ofac_searches_empty. }
    rewrite <- Eq. assert (Hq : sq <> []) by (rewrite Eq; discriminate).
    clear Eq p0 q0.
    rewrite (run_ofac_searches_nonempty sq _ Hq), search_phase_run.
    destruct (OfacScraper_init_run (st opre)) as (tri & Ei & Hi & _).
    destruct (scraper_method_trace MOfacScraper_init tri Hi) as (_ & _ & _ & Ri).
    rewrite <- Ei in Ri.
    destruct (res (OfacScraper_init (st opre))) as [[]|e'].
    - destruct (res (for_each sq search_iteration (st (OfacScraper_init (st opre)))))
        as [[]|e'] eqn:El; cbn [res evs]; [|discriminate].
      intros _ kept. cbn [fold_left replay_step].
      destruct (close_run (st (for_each sq search_iteration
                                 (st (OfacScraper_init (st opre))))))
        as (_ & _ & _ & Rc & _).
      rewrite !fold_left_app, Ri, Rc.
      now apply search_loop_closes_transactions.
    - cbn [res evs]. intros _ kept. cbn [fold_left replay_step].
      rewrite !fold_left_app, Ri. reflexivity. }
  destruct (res (run_ofac_searches sq (st opre))) as [[]|e]; [|discriminate].
  specialize (Hrun eq_refl). cbn [res evs]. intros _.
  destruct (generate_final_reports_run (st (run_ofac_searches sq (st opre))))
    as (_ & _ & G3 & _).
  cbv zeta in G3.
  unfold replay. rewrite !fold_left_app. cbn [fold_left replay_step]. rewrite G3.
  destruct (fold_left replay_step (evs opre) ([], [])) as [kept pending].
  cbn [snd] in Hpre. subst pending. apply Hrun.
Qed.

End Session.

(** ** The properties at work on the sample worlds *)

Lemma search_person_outcome_witness :
  res (@search_person world_three_found "Ana Rojas" (Some "Calle 10") (Some "Chile") tt)
  = Normal 3 /\
  res (@search_person world_timeout "Ana Rojas" (Some "Calle 10") (Some "Chile") tt)
  = Normal (-1) /\
  res (@search_person world_long_count "Ana Rojas" (Some "Calle 10") (Some "Chile") tt)
  = Normal (-1).
Proof.
  split; [|split].
  - pose proof (@search_person_outcome world_three_found "Ana Rojas"
                  (Some "Calle 10") (Some "Chile") tt) as H.
    cbv zeta in H. destruct H as (_ & H & _).
    destruct (H eq_refl) as (_ & Hr). rewrite Hr. reflexivity.
  - pose proof (@search_person_outcome world_timeout "Ana Rojas"
                  (Some "Calle 10") (Some "Chile") tt) as H.
    cbv zeta in H. destruct H as (H & _).
    apply H. vm_compute. discriminate.
  - pose proof (@search_person_outcome world_long_count "Ana Rojas"
                  (Some "Calle 10") (Some "Chile") tt) as H.
    cbv zeta in H. destruct H as (_ & _ & H & _).
    apply H. right. vm_compute. reflexivity.
Defined.

(** With a results label of 4301 digits no call fails and the text has
    digits, and yet the search returns the sentinel, not a count. *)
Lemma long_count_gives_sentinel :
  let o := @search_person world_long_count "Ana Rojas" (Some "Calle 10")
             (Some "Chile") tt in
  failures (evs o) = [] /\
  @re_search_digits world_long_count (@element_text world_long_count (st o))
  = Some (repeat 49%N 4301%nat) /\
  res o = Normal (-1) /\
  ~ (exists n, res o = Normal n /\ 0 <= n).
Proof.
  cbv zeta.
  assert (E : res (@search_person world_long_count "Ana Rojas" (Some "Calle 10")
                     (Some "Chile") tt) = Normal (-1)) by (vm_compute; reflexivity).
  split; [vm_compute; reflexivity|]. split; [vm_compute; reflexivity|].
  split; [exact E|].
  intros (n & Hn & Hpos). rewrite E in Hn. inversion Hn. lia.
Qed.



Lemma categorize_persons_partition_witness :
  res (@categorize_persons world_three_found sample_persons tt)
  = Normal ([person_ok], [person_incomplete], [person_no_master]) /\
  goes_no_master person_no_master = true.
Proof.
  pose proof (@categorize_persons_partition world_three_found sample_persons tt) as H.
  cbv zeta in H. destruct H as (Hres & _ & _ & _ & Hnm & _).
  split; [exact Hres|].
  apply Hnm. reflexivity.
Defined.

Lemma process_pre_checks_batch_witness :
  ios (evs (@process_pre_checks world_three_found [] [] tt)) = [] /\
  writes (evs (@process_pre_checks world_three_found [person_incomplete]
                 [person_no_master] tt))
  = [[mkResult 2 "Luis Mora" (Some "Chile") None "Información incompleta";
      mkResult 1 "Eva Pino" None None "No cruza con maestra"]].
Proof.
  split.
  - pose proof (@process_pre_checks_batch world_three_found [] [] tt) as H.
    cbv zeta in H. destruct H as (_ & _ & _ & _ & _ & _ & _ & H).
    apply H. reflexivity.
  - pose proof (@process_pre_checks_batch world_three_found [person_incomplete]
                  [person_no_master] tt) as H.
    cbv zeta in H. destruct H as (_ & _ & _ & _ & _ & H & _).
    exact H.
Defined.

Lemma reset_once_per_record_witness :
  count_calls is_reset
    (evs (@for_each world_three_found _ [person_ok; person_ok] search_iteration tt))
  = 2%nat /\
  loop_calls (evs (@for_each world_db_lost _ [person_ok] search_iteration tt))
  = [CSearch (search_key person_ok); CPersist person_ok] /\
  count_calls is_reset
    (evs (@for_each world_db_lost _ [person_ok] search_iteration tt))
  = 0%nat.
Proof.
  split.
  - pose proof (@reset_once_per_record world_three_found [person_ok; person_ok] tt)
      as H.
    cbv zeta in H. destruct H as (H & _).
    apply H. vm_compute. reflexivity.
  - pose proof (@reset_once_per_record world_db_lost [person_ok] tt) as H.
    cbv zeta in H. destruct H as (_ & done & rest & Hq & Hl & Hc & Hr).
    destruct done as [|d done].
    + cbn [app] in Hq. subst rest. split; [exact Hl | exact Hc].
    + exfalso. inversion Hq as [[Hd Hrest]].
      destruct done; [|discriminate Hrest]. cbn [app] in Hrest. subst rest.
      pose proof (proj1 Hr eq_refl) as Hn. vm_compute in Hn. discriminate Hn.
Defined.

Lemma search_phase_skipped_witness :
  calls (evs (@run_ofac_searches world_no_chrome [person_ok] tt))
  = [Mrun_ofac_searches; MOfacScraper_init] /\
  In Mgenerate_final_reports (calls (evs (@screen world_no_chrome sample_persons tt))).
Proof.
  pose proof (@search_phase_skipped world_no_chrome tt) as (_ & H2 & H3).
  split.
  - apply (H2 [person_ok] WebDriverException); [discriminate | reflexivity].
  - apply (H3 sample_persons); [reflexivity|].
    right. exists WebDriverException. reflexivity.
Defined.

Lemma close_only_after_a_loop_that_returns_witness :
  res (@run_ofac_searches world_db_lost [person_ok] tt) = Raised InterfaceError /\
  count_calls is_close (evs (@run_ofac_searches world_db_lost [person_ok] tt)) = 0%nat.
Proof.
  assert (Hq : [person_ok] <> []) by discriminate.
  pose proof (@close_only_after_a_loop_that_returns world_db_lost [person_ok] tt
                Hq eq_refl) as H.
  cbv zeta in H. destruct H as (_ & H & _).
  destruct (H InterfaceError eq_refl) as (H1 & H2). split; assumption.
Defined.

Lemma one_record_per_person_reached_witness :
  exactly_one_record sample_persons (evs (@screen world_three_found sample_persons tt)).
Proof.
  pose proof (@one_record_per_person_reached world_three_found sample_persons tt) as H.
  cbv zeta in H. destruct H as (rcs & _ & _ & _ & _ & _ & H).
  destruct (H eq_refl eq_refl) as (_ & _ & _ & Hone).
  apply Hone. vm_compute.
  repeat (constructor; [simpl; intuition discriminate|]). constructor.
Defined.

(** In a run where Chrome does not start, the person of the search queue
    gets no record. *)
Lemma person_without_record :
  ~ exactly_one_record sample_persons (evs (@screen world_no_chrome sample_persons tt)).
Proof.
  intros H.
  specialize (H person_ok (or_intror (or_intror (or_introl eq_refl)))).
  vm_compute in H. discriminate.
Qed.

Lemma evidence_and_reset_never_raise_witness :
  In (ERROR, "Failed to take screenshot for person ID ")
     (logs (evs (@take_screenshot world_no_evidence 3 tt))) /\
  In (ERROR, "Could not reset the search form: ")
     (logs (evs (@reset_search_form world_no_evidence tt))).
Proof.
  pose proof (@evidence_and_reset_never_raise world_no_evidence 3 tt)
    as (_ & _ & H3 & H4 & _).
  split; [apply H3 | apply H4]; vm_compute; discriminate.
Defined.

Lemma fetch_failure_ends_run_as_empty_witness :
  calls (evs (@main world_query_fails tt))
  = [MDatabaseManager_init; Mfetch_persons_to_process; Mdisconnect] /\
  calls (evs (@main world_nobody tt))
  = [MDatabaseManager_init; Mfetch_persons_to_process; Mdisconnect].
Proof.
  split.
  - pose proof (@fetch_failure_ends_run_as_empty world_query_fails tt)
      as (_ & _ & _ & H).
    apply (H eq_refl eq_refl).
  - pose proof (@fetch_failure_ends_run_as_empty world_nobody tt)
      as (_ & _ & _ & H).
    apply (H eq_refl eq_refl).
Defined.

(** ** The further properties at work on the sample worlds *)

Lemma OfacScraper_init_outcome_witness :
  res (@OfacScraper_init world_no_chrome tt) = Raised WebDriverException /\
  In (ERROR, "Failed to initialize WebDriver: ")
     (logs (evs (@OfacScraper_init world_no_chrome tt))) /\
  res (@OfacScraper_init world_three_found tt) = Normal tt.
Proof.
  split; [reflexivity|]. split.
  - pose proof (@OfacScraper_init_outcome world_no_chrome tt) as H.
    cbv zeta in H. destruct H as (_ & H & _).
    apply (H WebDriverException). reflexivity.
  - pose proof (@OfacScraper_init_outcome world_three_found tt) as H.
    cbv zeta in H. destruct H as ((_ & H) & _).
    apply H. reflexivity.
Defined.

Lemma DatabaseManager_init_outcome_witness :
  res (@DatabaseManager_init world_no_database tt) = Raised OperationalError /\
  ios (evs (@DatabaseManager_init world_no_database tt))
  = [(Connect, Some OperationalError)].
Proof.
  pose proof (@DatabaseManager_init_outcome world_no_database tt) as H.
  cbv zeta in H. destruct H as (_ & _ & H).
  apply (H OperationalError). reflexivity.
Defined.

Lemma inserts_are_all_or_nothing_witness :
  fold_left replay_step
    (evs (@insert_results_bulk world_three_found
            [incomplete_record person_incomplete] tt)) ([], [])
  = ([incomplete_record person_incomplete], []) /\
  fst (fold_left replay_step
         (evs (@insert_single_result world_insert_rejected person_ok (Some 3)
                 settings.STATUS_OK tt)) ([], [])) = [].
Proof.
  pose proof (@inserts_are_all_or_nothing world_three_found tt []) as (Hb & _).
  pose proof (@inserts_are_all_or_nothing world_insert_rejected tt []) as (_ & Hs).
  split.
  - specialize (Hb [incomplete_record person_incomplete]).
    cbv zeta in Hb. destruct Hb as (Hb & _).
    apply Hb. reflexivity.
  - specialize (Hs person_ok (Some 3) settings.STATUS_OK).
    cbv zeta in Hs. destruct Hs as (_ & Hs & _).
    apply Hs. vm_compute. discriminate.
Defined.

Lemma disconnect_closes_cursor_first_witness :
  ios (evs (@disconnect world_stuck_cursor tt)) = [(CursorClose, Some InterfaceError)] /\
  res (@disconnect world_three_found tt) = Normal tt.
Proof.
  split.
  - pose proof (@disconnect_closes_cursor_first world_stuck_cursor tt) as H.
    cbv zeta in H. destruct H as (H & _).
    apply (H InterfaceError). reflexivity.
  - pose proof (@disconnect_closes_cursor_first world_three_found tt) as H.
    cbv zeta in H. destruct H as (_ & H & _).
    destruct (H eq_refl) as (_ & Hr). exact Hr.
Defined.

Lemma fetch_incomplete_records_outcome_witness :
  res (@fetch_incomplete_records_for_report world_report_query_fails tt) = Normal [] /\
  res (@fetch_incomplete_records_for_report world_no_report tt)
  = Normal [mkReportRow 2 "Luis Mora" (Some "Chile") settings.STATUS_INCOMPLETE].
Proof.
  split.
  - pose proof (@fetch_incomplete_records_outcome world_report_query_fails tt) as H.
    cbv zeta in H. destruct H as (_ & H & _).
    apply H. vm_compute. discriminate.
  - pose proof (@fetch_incomplete_records_outcome world_no_report tt) as H.
    cbv zeta in H. destruct H as (_ & _ & H & _).
    apply H. reflexivity.
Defined.

Lemma report_written_only_for_records_witness :
  ios (evs (@create_incomplete_records_report world_no_report [] tt)) = [] /\
  In (ERROR, "Failed to create the Excel report: ")
     (logs (evs (@create_incomplete_records_report world_no_report
                   [mkReportRow 2 "Luis Mora" (Some "Chile") settings.STATUS_INCOMPLETE]
                   tt))).
Proof.
  split.
  - pose proof (@report_written_only_for_records world_no_report [] tt) as H.
    cbv zeta in H. destruct H as (_ & _ & H & _).
    apply H. reflexivity.
  - pose proof (@report_written_only_for_records world_no_report
                  [mkReportRow 2 "Luis Mora" (Some "Chile") settings.STATUS_INCOMPLETE]
                  tt) as H.
    cbv zeta in H. destruct H as (_ & _ & _ & H).
    apply H. vm_compute. discriminate.
Defined.

Lemma final_report_follows_fetch_witness :
  reports_written (evs (@generate_final_reports world_report_query_fails tt)) = [].
Proof.
  pose proof (@final_report_follows_fetch world_report_query_fails tt) as H.
  cbv zeta in H. destruct H as (_ & _ & H).
  apply H. vm_compute. discriminate.
Defined.

Lemma browser_only_for_searchable_persons_witness :
  browser_ios (evs (@screen world_three_found [person_incomplete; person_no_master] tt))
  = [] /\
  exists r, In (ChromeDriverInstall, r)
              (browser_ios (evs (@screen world_three_found sample_persons tt))).
Proof.
  split.
  - pose proof (@browser_only_for_searchable_persons world_three_found
                  [person_incomplete; person_no_master] tt) as H.
    cbv zeta in H. destruct H as (H & _).
    apply H. reflexivity.
  - pose proof (@browser_only_for_searchable_persons world_three_found
                  sample_persons tt) as H.
    cbv zeta in H. destruct H as (_ & H).
    apply H; [vm_compute; discriminate | reflexivity].
Defined.

Lemma pre_check_records_survive_witness :
  exists more,
    stored (evs (@screen world_no_chrome sample_persons tt))
    = [incomplete_record person_incomplete] ++ [no_master_record person_no_master] ++ more.
Proof.
  pose proof (@pre_check_records_survive world_no_chrome sample_persons tt) as H.
  cbv zeta in H. apply H. reflexivity.
Defined.

Lemma evidence_follows_positive_counts_witness :
  screenshot_calls
    (evs (@for_each world_three_found _ [person_ok; person_ok] search_iteration tt))
  = [3; 3].
Proof.
  pose proof (@evidence_follows_positive_counts world_three_found
                [person_ok; person_ok] tt) as H.
  cbv zeta in H. destruct H as (_ & H).
  rewrite H; reflexivity.
Defined.

Lemma searches_only_complete_persons_witness :
  exists p,
    In p sample_persons /\
    search_key p = ("Ana Rojas", Some "Calle 10", Some "Chile") /\
    idMaestra p <> None /\
    truthy (Some "Calle 10") = true /\
    truthy (Some "Chile") = true.
Proof.
  apply (@searches_only_complete_persons world_three_found sample_persons tt).
  vm_compute. tauto.
Defined.

Lemma main_without_connection_witness :
  res (@main world_no_database tt) = Normal tt /\
  calls (evs (@main world_no_database tt)) = [MDatabaseManager_init].
Proof.
  pose proof (@main_without_connection world_no_database tt OperationalError eq_refl)
    as (H1 & H2 & _).
  split; assumption.
Defined.

Lemma main_disconnects_once_witness :
  count_calls is_disconnect (evs (@main world_db_lost tt)) = 1%nat /\
  In (CRITICAL, "A critical error occurred in the main process: ")
     (logs (evs (@main world_db_lost tt))).
Proof.
  pose proof (@main_disconnects_once world_db_lost tt eq_refl) as H.
  cbv zeta in H. destruct H as (H1 & _ & _ & H4).
  split; [exact H1|].
  apply (H4 InterfaceError). reflexivity.
Defined.

Lemma one_session_per_search_phase_witness :
  count_calls is_scraper_init
    (evs (@run_ofac_searches world_three_found [person_ok; person_ok] tt)) = 1%nat /\
  res (@OfacScraper_init world_three_found tt) = Normal tt.
Proof.
  pose proof (@one_session_per_search_phase world_three_found
                [person_ok; person_ok] tt) as H.
  cbv zeta in H. destruct H as (H1 & _ & H3).
  split; [exact H1|].
  apply H3. reflexivity.
Defined.

Lemma returned_run_leaves_no_pending_insert_witness :
  snd (replay (evs (@screen world_insert_rejected sample_persons tt))) = [].
Proof.
  apply (@returned_run_leaves_no_pending_insert world_insert_rejected
           sample_persons tt).
  reflexivity.
Defined.

(** ** Scenarios *)

Example scenario_no_master :
  let tr := evs (@main (world_of [person_no_master]) tt) in
  stored tr = [mkResult 1 "Eva Pino" None None "No cruza con maestra"] /\
  browser_ios tr = [].
Proof. vm_compute. split; reflexivity. Qed.

Example scenario_incomplete :
  let tr := evs (@main (world_of [person_incomplete]) tt) in
  stored tr = [mkResult 2 "Luis Mora" (Some "Chile") None "Información incompleta"] /\
  browser_ios tr = [] /\
  In Mgenerate_final_reports (calls tr).
Proof. vm_compute. repeat split. auto 10. Qed.

Example scenario_three_matches :
  let tr := evs (@main (world_of [person_ok]) tt) in
  stored tr = [mkResult 3 "Ana Rojas" (Some "Chile") (Some 3) "OK"] /\
  screenshot_calls tr = [3] /\
  count_calls is_reset tr = 1%nat /\
  count_calls is_close tr = 1%nat.
Proof. vm_compute. repeat split. Qed.

Example scenario_timeout :
  let tr := evs (@main world_timeout tt) in
  stored tr = [mkResult 3 "Ana Rojas" (Some "Chile") None "NOK"] /\
  screenshot_calls tr = [] /\
  count_calls is_reset tr = 1%nat.
Proof. vm_compute. repeat split. Qed.

Example scenario_insert_rejected :
  let tr := evs (@main world_insert_rejected tt) in
  stored tr = [] /\
  screenshot_calls tr = [3] /\
  count_calls is_reset tr = 1%nat /\
  count_calls is_close tr = 1%nat.
Proof. vm_compute. repeat split. Qed.

Example scenario_connection_lost :
  let tr := evs (@main world_db_lost tt) in
  res (@main world_db_lost tt) = Normal tt /\
  stored tr = [] /\
  count_calls is_close tr = 0%nat /\
  In (CRITICAL, "A critical error occurred in the main process: ") (logs tr).
Proof. vm_compute. repeat split. auto 10. Qed.
